(** * CloudNexus API: a shallow embedding of the request handlers

  The development follows the three source files:
  - [database.py]: the [Task] model, the lazily created engine, the request
    scoped session ([get_db]) and the connectivity probe;
  - [utils.py]: object-store keys, uploads, JSON backups and their listing;
  - [main.py]: the request schemas, the six route handlers and the start-up
    hook.

  Handlers are written in a reader/state/exception monad [M].  The reader
  part ([Env]) holds what the process only observes (environment variables,
  the UTC clock, the UUID generator, the outcome of each backend round
  trip); the state part ([State]) holds what the handlers change (the rows
  of table [tasks], the id sequence, the session, the object store).
  Log lines and the float durations passed to [log_request] are not part of
  the state. *)

From Stdlib Require Import ZArith NArith List String Ascii Bool Lia Arith DecimalString.
From Stdlib Require Import Sorted Permutation.
Import ListNotations.
Local Open Scope string_scope.
Local Open Scope nat_scope.
Local Set Warnings "-register-all".

(* ===================================================================== *)
(** ** Python values used by the handlers *)
(* ===================================================================== *)

Module Py.

(** [sep.join(parts)] *)
Fixpoint join (sep : string) (parts : list string) : string :=
  match parts with
  | [] => ""
  | [p] => p
  | p :: rest => p ++ sep ++ join sep rest
  end.

(** [c in s] for a one-character [c] *)
Fixpoint contains (c : ascii) (s : string) : bool :=
  match s with
  | EmptyString => false
  | String d s' => Ascii.eqb d c || contains c s'
  end.

(** The cut of [s] around the last occurrence of [sep], when there is one. *)
Fixpoint rpartition (sep : ascii) (s : string) : option (string * string) :=
  match s with
  | EmptyString => None
  | String c s' =>
      match rpartition sep s' with
      | Some (before, after) => Some (String c before, after)
      | None => if Ascii.eqb c sep then Some ("", s') else None
      end
  end.

(** [s.rsplit(sep, 1)] for a one-character [sep] *)
Definition rsplit1 (sep : ascii) (s : string) : list string :=
  match rpartition sep s with
  | Some (before, after) => [before; after]
  | None => [s]
  end.

(** [s[:n]] *)
Fixpoint take (n : nat) (s : string) : string :=
  match n, s with
  | S n', String c s' => String c (take n' s')
  | _, _ => ""
  end.

(** [s.lower()] on the ASCII letters *)
Definition lower_char (c : ascii) : ascii :=
  let n := nat_of_ascii c in
  if (65 <=? n) && (n <=? 90) then ascii_of_nat (n + 32) else c.

Fixpoint lower (s : string) : string :=
  match s with
  | EmptyString => ""
  | String c s' => String (lower_char c) (lower s')
  end.

(** A string is truthy when it is not empty; [None] is falsy. *)
Definition truthy (s : string) : bool :=
  match s with EmptyString => false | _ => true end.

Definition truthy_opt (o : option string) : bool :=
  match o with Some s => truthy s | None => false end.

(** Decimal digits. *)
Definition digit (n : nat) : ascii := ascii_of_nat (48 + n mod 10).

Definition is_digit (c : ascii) : bool :=
  let n := nat_of_ascii c in (48 <=? n) && (n <=? 57).

(** [n] written on [width] decimal digits, zero padded *)
Fixpoint zpad (width n : nat) : string :=
  match width with
  | O => ""
  | S w => zpad w (n / 10) ++ String (digit n) ""
  end.

(** [str(z)] for an int *)
Definition str_int (z : Z) : string := NilZero.string_of_int (Z.to_int z).

(** Lower-case hexadecimal digits. *)
Definition hex_digit (n : N) : ascii :=
  let d := N.to_nat (n mod 16) in
  if d <? 10 then ascii_of_nat (48 + d) else ascii_of_nat (87 + d).

(** ['%0{width}x' % n], most significant digit first *)
Fixpoint hex (width : nat) (n : N) : string :=
  match width with
  | O => ""
  | S w => hex w (n / 16) ++ String (hex_digit n) ""
  end.

(** [substring] by position, as in [h[a:b]] *)
Definition slice (a b : nat) (s : string) : string := substring a (b - a) s.

(** [str(u)] for a [uuid.UUID] whose 128-bit value is [u]: the 32 hex
    digits grouped 8-4-4-4-12. *)
Definition str_uuid (u : N) : string :=
  let h := hex 32 u in
  slice 0 8 h ++ "-" ++ slice 8 12 h ++ "-" ++ slice 12 16 h ++ "-"
    ++ slice 16 20 h ++ "-" ++ slice 20 32 h.

(** A naive [datetime]: the fields of the object, each within its range
    (year 1..9999, month 1..12, ..., microsecond 0..999999). *)
Record datetime := mk_datetime {
  year : nat; month : nat; day : nat;
  hour : nat; minute : nat; second : nat; microsecond : nat
}.

Definition datetime_eqb (a b : datetime) : bool :=
  (year a =? year b) && (month a =? month b) && (day a =? day b)
  && (hour a =? hour b) && (minute a =? minute b) && (second a =? second b)
  && (microsecond a =? microsecond b).

(** [dt.strftime("%Y%m%d_%H%M%S")] *)
Definition strftime_Ymd_HMS (dt : datetime) : string :=
  zpad 4 (year dt) ++ zpad 2 (month dt) ++ zpad 2 (day dt) ++ "_"
    ++ zpad 2 (hour dt) ++ zpad 2 (minute dt) ++ zpad 2 (second dt).

(** [dt.isoformat()]: the fraction is printed only when it is not zero *)
Definition isoformat (dt : datetime) : string :=
  zpad 4 (year dt) ++ "-" ++ zpad 2 (month dt) ++ "-" ++ zpad 2 (day dt) ++ "T"
    ++ zpad 2 (hour dt) ++ ":" ++ zpad 2 (minute dt) ++ ":" ++ zpad 2 (second dt)
    ++ (if microsecond dt =? 0 then "" else "." ++ zpad 6 (microsecond dt)).

(** The shape [YYYYMMDD_HHMMSS]: eight digits, an underscore, six digits. *)
Fixpoint all_digits (s : string) : bool :=
  match s with
  | EmptyString => true
  | String c s' => is_digit c && all_digits s'
  end.

Definition is_Ymd_HMS (s : string) : bool :=
  (String.length s =? 15)
  && all_digits (substring 0 8 s)
  && String.eqb (substring 8 1 s) "_"
  && all_digits (substring 9 6 s).

(** Values that reach [json.dumps]: the JSON types, and [PObject] for any
    other object, known by its [str()]. A float is kept as its [repr]. *)
Inductive value : Type :=
| PNone
| PBool (b : bool)
| PInt (z : Z)
| PFloat (repr : string)
| PStr (s : string)
| PList (items : list value)
| PDict (items : list (string * value))
| PObject (str : string).

(** [d.get(key)] on the items of a dict *)
Fixpoint dict_get (key : string) (items : list (string * value)) : option value :=
  match items with
  | [] => None
  | (k, v) :: rest => if String.eqb k key then Some v else dict_get key rest
  end.

(** *** [json.dumps(v, indent=2, default=str)] *)

Definition quote : ascii := "034"%char.
Definition backslash : ascii := "092"%char.
Definition newline : ascii := "010"%char.

(** One character of a JSON string with [ensure_ascii]: the quote and the
    backslash are escaped, the usual control characters have short escapes,
    and everything else outside [' '..'~'] is written [\u00XX]. *)
Definition json_escape (c : ascii) : string :=
  let n := nat_of_ascii c in
  if n =? 34 then String backslash (String quote "")
  else if n =? 92 then String backslash (String backslash "")
  else if n =? 10 then String backslash "n"
  else if n =? 13 then String backslash "r"
  else if n =? 9 then String backslash "t"
  else if n =? 8 then String backslash "b"
  else if n =? 12 then String backslash "f"
  else if (n <? 32) || (126 <? n) then String backslash ("u" ++ hex 4 (N.of_nat n))
  else String c "".

Fixpoint json_escape_all (s : string) : string :=
  match s with
  | EmptyString => ""
  | String c s' => json_escape c ++ json_escape_all s'
  end.

Definition json_string (s : string) : string :=
  String quote (json_escape_all s) ++ String quote "".

Fixpoint spaces (n : nat) : string :=
  match n with O => "" | S n' => String " " (spaces n') end.

(** The line break and indentation written before an item at [level]. *)
Definition newline_indent (level : nat) : string :=
  String newline (spaces (2 * level)).

Fixpoint dumps_at (level : nat) (v : value) : string :=
  match v with
  | PNone => "null"
  | PBool true => "true"
  | PBool false => "false"
  | PInt z => str_int z
  | PFloat repr => repr
  | PStr s => json_string s
  | PObject str => json_string str
  | PList [] => "[]"
  | PList items =>
      "[" ++ newline_indent (S level)
        ++ join ("," ++ newline_indent (S level)) (map (dumps_at (S level)) items)
        ++ newline_indent level ++ "]"
  | PDict [] => "{}"
  | PDict items =>
      "{" ++ newline_indent (S level)
        ++ join ("," ++ newline_indent (S level))
             (map (fun kv => json_string (fst kv) ++ ": " ++ dumps_at (S level) (snd kv)) items)
        ++ newline_indent level ++ "}"
  end.

Definition json_dumps (v : value) : string := dumps_at 0 v.

End Py.

Import Py.

(* ===================================================================== *)
(** ** The world seen by a request *)
(* ===================================================================== *)

(** Exceptions that travel through the handlers. *)
Inductive Exn : Type :=
| HTTPException (status_code : Z) (detail : string)
| RequestValidationError
| ValueError (msg : string)
| OperationalError (msg : string)
| NoCredentialsError
| ClientError (code message operation_name : string)
| PyException (msg : string).

(** [str(e)] *)
Definition str_exn (e : Exn) : string :=
  match e with
  | HTTPException status_code detail => str_int status_code ++ ": " ++ detail
  | RequestValidationError => "request validation error"
  | ValueError msg => msg
  | OperationalError msg => msg
  | NoCredentialsError => "Unable to locate credentials"
  | ClientError code message operation_name =>
      "An error occurred (" ++ code ++ ") when calling the " ++ operation_name
        ++ " operation: " ++ message
  | PyException msg => msg
  end.

(** What a failing database round trip raises: an [OperationalError], which
    [create_db_engine] retries, or any other exception.  [DbLost] is the
    [OperationalError] of a connection lost after the statements of the
    round trip ran and before the database confirmed them: it differs from
    [DbOperational] only at a commit, whose INSERTs have then drawn their
    ids. *)
Inductive DbFault : Type :=
| DbOperational (msg : string)
| DbFailure (msg : string)
| DbLost (msg : string).

Definition exn_of_db_fault (f : DbFault) : Exn :=
  match f with
  | DbOperational msg => OperationalError msg
  | DbFailure msg => PyException msg
  | DbLost msg => OperationalError msg
  end.

(** What a failing object-store call raises. *)
Inductive S3Fault : Type :=
| S3NoCredentials
| S3ClientError (code message operation_name : string)
| S3Failure (msg : string).

Definition exn_of_s3_fault (f : S3Fault) : Exn :=
  match f with
  | S3NoCredentials => NoCredentialsError
  | S3ClientError code message operation_name => ClientError code message operation_name
  | S3Failure msg => PyException msg
  end.

Module Task.
(** A row of table [tasks] (class [Task]). [created_at] and [is_active] are
    [nullable=False]; [updated_at] and [description] may be NULL. *)
Record t := mk {
  id : Z;
  title : string;
  description : option string;
  status : string;
  created_at : datetime;
  updated_at : option datetime;
  is_active : bool
}.
End Task.

Module Pending.
(** A [Task(title=, description=, status=)] object added to the session and
    not yet inserted: the other columns are filled by the INSERT. *)
Record t := mk {
  title : string;
  description : option string;
  status : string
}.
End Pending.

Module S3.
(** One call to the object store, with its keyword arguments. *)
Inductive Op : Type := upload_fileobj | put_object.

Record call := mk {
  op : Op;
  Bucket : string;
  Key : string;
  Body : string;
  ContentType : option string
}.
End S3.

(** What the process observes and does not change. *)
Record Env := mkEnv {
  S3_BUCKET : option string;          (* os.environ.get("S3_BUCKET") *)
  AWS_REGION : option string;         (* os.environ.get("AWS_REGION") *)
  DEBUG : option string;              (* os.environ.get("DEBUG") *)
  utcnow_at : nat -> datetime;        (* the n-th reading of datetime.utcnow() *)
  uuid4_at : nat -> N;                (* the n-th draw of uuid.uuid4() *)
  db_fault : nat -> option DbFault;   (* the fate of the n-th database round trip *)
  s3_fault : nat -> option S3Fault;   (* the fate of the n-th object-store call *)
  latency_ms : string;                (* repr of the rounded probe latency *)
  bind_casts : bool                   (* whether SQLAlchemy casts each parameter
                                         to the type it gave it *)
}.

(** What the handlers change. *)
Record State := mkState {
  engine : bool;                      (* database._engine is not None *)
  tasks : list Task.t;                (* committed rows, in the store's order *)
  next_id : Z;                        (* next value of the id sequence *)
  session_new : list Pending.t;       (* objects added to the session *)
  in_transaction : bool;              (* the session has begun a transaction *)
  objects : list S3.call;             (* objects the store accepted, oldest first *)
  s3_calls : list S3.call;            (* every call issued to the store *)
  db_calls : nat;                     (* database round trips so far *)
  utcnow_calls : nat;                 (* clock readings so far *)
  uuid4_calls : nat                   (* UUID draws so far *)
}.

Definition set_engine (v : bool) (st : State) : State :=
  mkState v (tasks st) (next_id st) (session_new st) (in_transaction st)
    (objects st) (s3_calls st) (db_calls st) (utcnow_calls st) (uuid4_calls st).

Definition set_tasks (v : list Task.t) (st : State) : State :=
  mkState (engine st) v (next_id st) (session_new st) (in_transaction st)
    (objects st) (s3_calls st) (db_calls st) (utcnow_calls st) (uuid4_calls st).

Definition set_next_id (v : Z) (st : State) : State :=
  mkState (engine st) (tasks st) v (session_new st) (in_transaction st)
    (objects st) (s3_calls st) (db_calls st) (utcnow_calls st) (uuid4_calls st).

Definition set_session_new (v : list Pending.t) (st : State) : State :=
  mkState (engine st) (tasks st) (next_id st) v (in_transaction st)
    (objects st) (s3_calls st) (db_calls st) (utcnow_calls st) (uuid4_calls st).

Definition set_in_transaction (v : bool) (st : State) : State :=
  mkState (engine st) (tasks st) (next_id st) (session_new st) v
    (objects st) (s3_calls st) (db_calls st) (utcnow_calls st) (uuid4_calls st).

Definition set_objects (v : list S3.call) (st : State) : State :=
  mkState (engine st) (tasks st) (next_id st) (session_new st) (in_transaction st)
    v (s3_calls st) (db_calls st) (utcnow_calls st) (uuid4_calls st).

Definition set_s3_calls (v : list S3.call) (st : State) : State :=
  mkState (engine st) (tasks st) (next_id st) (session_new st) (in_transaction st)
    (objects st) v (db_calls st) (utcnow_calls st) (uuid4_calls st).

Definition set_db_calls (v : nat) (st : State) : State :=
  mkState (engine st) (tasks st) (next_id st) (session_new st) (in_transaction st)
    (objects st) (s3_calls st) v (utcnow_calls st) (uuid4_calls st).

Definition set_utcnow_calls (v : nat) (st : State) : State :=
  mkState (engine st) (tasks st) (next_id st) (session_new st) (in_transaction st)
    (objects st) (s3_calls st) (db_calls st) v (uuid4_calls st).

Definition set_uuid4_calls (v : nat) (st : State) : State :=
  mkState (engine st) (tasks st) (next_id st) (session_new st) (in_transaction st)
    (objects st) (s3_calls st) (db_calls st) (utcnow_calls st) v.

(** A freshly started process over an empty table. *)
Definition initial_state : State :=
  mkState false [] 1%Z [] false [] [] 0 0 0.

(* ===================================================================== *)
(** ** The monad of the handlers *)
(* ===================================================================== *)

Inductive Outcome (A : Type) : Type :=
| Ok (a : A)
| Raise (e : Exn).

Arguments Ok {A} a.
Arguments Raise {A} e.

Definition M (A : Type) : Type := Env -> State -> Outcome A * State.

Definition ret {A} (a : A) : M A := fun _ st => (Ok a, st).

Definition bind {A B} (m : M A) (k : A -> M B) : M B :=
  fun env st =>
    match m env st with
    | (Ok a, st') => k a env st'
    | (Raise e, st') => (Raise e, st')
    end.

Definition raise {A} (e : Exn) : M A := fun _ st => (Raise e, st).

(** [try: body  except Exception as e: handler(e)] *)
Definition try_except {A} (body : M A) (handler : Exn -> M A) : M A :=
  fun env st =>
    match body env st with
    | (Ok a, st') => (Ok a, st')
    | (Raise e, st') => handler e env st'
    end.

(** [try: body  finally: cleanup], for a cleanup that does not raise *)
Definition finally {A} (body : M A) (cleanup : State -> State) : M A :=
  fun env st => let (r, st') := body env st in (r, cleanup st').

Definition asks {A} (f : Env -> A) : M A := fun env st => (Ok (f env), st).
Definition gets {A} (f : State -> A) : M A := fun _ st => (Ok (f st), st).
Definition modify (f : State -> State) : M unit := fun _ st => (Ok tt, f st).

Declare Scope monad_scope.
Delimit Scope monad_scope with monad.
Notation "x <- m ;; k" := (bind m (fun x => k))
  (at level 61, m at next level, right associativity) : monad_scope.
Notation "m ;; k" := (bind m (fun _ => k))
  (at level 61, right associativity) : monad_scope.
Local Open Scope monad_scope.

(* ===================================================================== *)
(** ** database.py *)
(* ===================================================================== *)

(** [Task.to_dict] *)
Definition to_dict (self : Task.t) : list (string * value) :=
  [ ("id", PInt (Task.id self));
    ("title", PStr (Task.title self));
    ("description", match Task.description self with Some d => PStr d | None => PNone end);
    ("status", PStr (Task.status self));
    ("created_at", PStr (isoformat (Task.created_at self)));
    ("updated_at", match Task.updated_at self with
                   | Some u => PStr (isoformat u)
                   | None => PNone
                   end);
    ("is_active", PBool (Task.is_active self)) ].

(** [datetime.utcnow()]: the next reading of the clock *)
Definition utcnow : M datetime :=
  fun env st =>
    (Ok (utcnow_at env (utcnow_calls st)), set_utcnow_calls (S (utcnow_calls st)) st).

(** One round trip to the database; the environment decides its fate. *)
Definition db_round_trip : M unit :=
  fun env st =>
    let st' := set_db_calls (S (db_calls st)) st in
    match db_fault env (db_calls st) with
    | Some f => (Raise (exn_of_db_fault f), st')
    | None => (Ok tt, st')
    end.

(** [create_engine(...)], [engine.connect()] and [SELECT 1] *)
Definition connect_and_select_1 : M unit :=
  db_round_trip ;; db_round_trip.

(** The loop of [create_db_engine]: [remaining] attempts are left; an
    [OperationalError] is kept and the next attempt made, any other
    exception leaves the loop; after the last attempt the kept exception is
    raised.  The sleeps between attempts are not modelled. *)
Fixpoint create_db_engine_loop (remaining : nat) (last_exception : option Exn) : M unit :=
  match remaining with
  | O =>
      match last_exception with
      | Some e => raise e
      | None => raise (PyException "exceptions must derive from BaseException")
      end
  | S n =>
      try_except connect_and_select_1
        (fun e =>
           match e with
           | OperationalError _ => create_db_engine_loop n (Some e)
           | _ => raise e
           end)
  end.

Definition create_db_engine (max_retries : nat) : M unit :=
  create_db_engine_loop max_retries None.

(** [get_engine]: the engine is created on first use and kept. *)
Definition get_engine : M unit :=
  ready <- gets engine ;;
  if ready then ret tt
  else (create_db_engine 3 ;; modify (set_engine true)).

(** [get_session_factory]: the factory is created with the engine and kept
    with it. *)
Definition get_session_factory : M unit := get_engine.

Module Query.
(** A [Query] over [Task]: the criteria added by [filter], the values they
    compare [Task.id] with, and the [offset] and [limit] set on it. *)
Record t := mk {
  criteria : list (Task.t -> bool);
  integers : list Z;
  offset : option Z;
  limit : option Z
}.
End Query.

(** [db.query(Task)] *)
Definition query_Task : Query.t := Query.mk [] [] None None.

Definition query_filter (c : Task.t -> bool) (q : Query.t) : Query.t :=
  Query.mk (Query.criteria q ++ [c])%list (Query.integers q) (Query.offset q)
    (Query.limit q).

(** [query.filter(Task.id == n, c)]: the two criteria, with [n] bound to the
    INTEGER parameter that [Task.id] is compared with. *)
Definition query_filter_id (n : Z) (c : Task.t -> bool) (q : Query.t) : Query.t :=
  Query.mk (Query.criteria q ++ [fun row => (Task.id row =? n)%Z && c row])%list
    (Query.integers q ++ [n])%list (Query.offset q) (Query.limit q).

Definition query_offset (n : Z) (q : Query.t) : Query.t :=
  Query.mk (Query.criteria q) (Query.integers q) (Some n) (Query.limit q).

Definition query_limit (n : Z) (q : Query.t) : Query.t :=
  Query.mk (Query.criteria q) (Query.integers q) (Query.offset q) (Some n).

Definition matches (q : Query.t) (row : Task.t) : bool :=
  forallb (fun c => c row) (Query.criteria q).

Definition apply_offset (o : option Z) (rows : list Task.t) : list Task.t :=
  match o with Some n => skipn (Z.to_nat n) rows | None => rows end.

Definition apply_limit (o : option Z) (rows : list Task.t) : list Task.t :=
  match o with Some n => firstn (Z.to_nat n) rows | None => rows end.

(** The rows a SELECT returns: WHERE, then OFFSET, then LIMIT. *)
Definition select (q : Query.t) (rows : list Task.t) : list Task.t :=
  apply_limit (Query.limit q) (apply_offset (Query.offset q) (filter (matches q) rows)).

Definition negative (o : option Z) : bool :=
  match o with Some n => (n <? 0)%Z | None => false end.

Definition min_integer : Z := -2147483648.
Definition max_integer : Z := 2147483647.

(** The values of an INTEGER column and of an INTEGER parameter: [Task.id]
    is an [Integer] column, and so is the value compared with it. *)
Definition is_integer (n : Z) : bool :=
  (min_integer <=? n)%Z && (n <=? max_integer)%Z.

Definition min_bigint : Z := -9223372036854775808.
Definition max_bigint : Z := 9223372036854775807.

Definition is_bigint (n : Z) : bool :=
  (min_bigint <=? n)%Z && (n <=? max_bigint)%Z.

(** The OFFSET and the LIMIT are Python integers that SQLAlchemy types as
    [Integer].  Where it casts its parameters they are INTEGER parameters;
    where it sends them bare, the database reads them as BIGINT. *)
Definition out_of_range (casts : bool) (o : option Z) : bool :=
  match o with
  | Some n => negb (if casts then is_integer n else is_bigint n)
  | None => false
  end.

(** A value compared with [Task.id] that the database cannot read as an
    INTEGER.  The ids of the stored rows are values of the column, so a
    value that a stored row carries is one. *)
Definition not_an_id (rows : list Task.t) (n : Z) : bool :=
  negb (is_integer n) && negb (existsb (fun row => (Task.id row =? n)%Z) rows).

(** What the database refuses in a query, with the text of its error: a
    parameter outside the range of its type, a negative OFFSET or LIMIT. *)
Definition refusal (casts : bool) (q : Query.t) (rows : list Task.t) : option string :=
  if out_of_range casts (Query.offset q) || out_of_range casts (Query.limit q)
     || existsb (not_an_id rows) (Query.integers q)
  then Some "integer out of range"
  else if negative (Query.offset q) || negative (Query.limit q)
  then Some "OFFSET and LIMIT must not be negative"
  else None.

(** Running a query is one round trip inside the session's transaction; the
    database raises for a query it refuses. *)
Definition execute (q : Query.t) : M (list Task.t) :=
  modify (set_in_transaction true) ;;
  db_round_trip ;;
  rows <- gets tasks ;;
  casts <- asks bind_casts ;;
  match refusal casts q rows with
  | Some text => raise (PyException text)
  | None => ret (select q rows)
  end.

(** [query.all()] *)
Definition query_all (q : Query.t) : M (list Task.t) := execute q.

(** [query.first()]: the query with [LIMIT 1], and its row if any *)
Definition query_first (q : Query.t) : M (option Task.t) :=
  rows <- execute (query_limit 1 q) ;; ret (hd_error rows).

(** [db.add(obj)] *)
Definition session_add (obj : Pending.t) : M unit :=
  modify (fun st => set_session_new (session_new st ++ [obj])%list st).

(** The INSERT of one pending object: the id comes from the sequence,
    [created_at] and [updated_at] each from their own call of the column
    default [datetime.utcnow], [is_active] from its default [True]. *)
Definition insert_row (p : Pending.t) : M Task.t :=
  i <- gets next_id ;;
  modify (set_next_id (i + 1)%Z) ;;
  created <- utcnow ;;
  updated <- utcnow ;;
  let row := Task.mk i (Pending.title p) (Pending.description p) (Pending.status p)
               created (Some updated) true in
  modify (fun st => set_tasks (tasks st ++ [row])%list st) ;;
  ret row.

Fixpoint insert_rows (ps : list Pending.t) : M (list Task.t) :=
  match ps with
  | [] => ret []
  | p :: rest =>
      row <- insert_row p ;;
      rows <- insert_rows rest ;;
      ret (row :: rows)
  end.

(** Whether the coming round trip is a connection lost at its end. *)
Definition connection_is_lost : M bool :=
  fun env st =>
    (Ok match db_fault env (db_calls st) with
        | Some (DbLost _) => true
        | _ => false
        end, st).

(** The INSERTs of a transaction that is lost afterwards: the ids and the
    clock readings are used up, the rows are gone with the transaction. *)
Definition insert_rows_rolled_back (ps : list Pending.t) : M unit :=
  before <- gets tasks ;;
  insert_rows ps ;;
  modify (set_tasks before).

(** [db.commit()]: nothing to do for a session with no pending object and no
    transaction; otherwise one round trip that inserts the pending rows and
    commits.  Returns the rows inserted, in the order they were added.  A
    round trip that fails raises before anything is inserted, unless the
    connection is lost at its end: then the INSERTs ran and the COMMIT did
    not. *)
Definition session_commit : M (list Task.t) :=
  pending <- gets session_new ;;
  active <- gets in_transaction ;;
  match pending, active with
  | [], false => ret []
  | _, _ =>
      lost <- connection_is_lost ;;
      if lost then
        insert_rows_rolled_back pending ;;
        db_round_trip ;;
        ret []
      else
        db_round_trip ;;
        rows <- insert_rows pending ;;
        modify (set_session_new []) ;;
        modify (set_in_transaction false) ;;
        ret rows
  end.

(** [db.refresh(obj)]: the row is read again by its primary key. *)
Definition session_refresh (obj : Task.t) : M Task.t :=
  modify (set_in_transaction true) ;;
  db_round_trip ;;
  rows <- gets tasks ;;
  match find (fun row => (Task.id row =? Task.id obj)%Z) rows with
  | Some row => ret row
  | None => raise (PyException "Could not refresh instance")
  end.

(** [db.rollback()] and [db.close()]: pending objects are dropped and the
    transaction ends. *)
Definition rollback_state (st : State) : State :=
  set_in_transaction false (set_session_new [] st).

Definition session_rollback : M unit := modify rollback_state.

Definition session_close : State -> State := rollback_state.

(** The body of [get_db] around its [yield] (lines 182-190): commit when the
    handler returns, roll back and re-raise when anything raises, close in
    every case. *)
Definition session_scope {A} (handler : M A) : M A :=
  finally
    (try_except
       (r <- handler ;; session_commit ;; ret r)
       (fun e => session_rollback ;; raise e))
    session_close.

(** [SessionLocal()]: a session with nothing pending. *)
Definition new_session : M unit := modify rollback_state.

(** [get_db]: a new session from the factory, then the scope above. *)
Definition get_db {A} (handler : M A) : M A :=
  get_session_factory ;;
  new_session ;;
  session_scope handler.

(** The try block of [test_db_connection]. *)
Definition probe : M unit :=
  get_engine ;;
  connect_and_select_1.

(** [test_db_connection] *)
Definition test_db_connection : M (list (string * value)) :=
  try_except
    (probe ;;
     latency <- asks latency_ms ;;
     ret [ ("status", PStr "healthy");
           ("database", PStr "connected");
           ("latency_ms", PFloat latency) ])
    (fun e =>
       ret [ ("status", PStr "unhealthy");
             ("database", PStr "disconnected");
             ("error", PStr (str_exn e)) ]).

(* ===================================================================== *)
(** ** utils.py *)
(* ===================================================================== *)

(** [uuid.uuid4()]: the next draw, as its 128-bit value *)
Definition uuid4 : M N :=
  fun env st =>
    (Ok (uuid4_at env (uuid4_calls st)), set_uuid4_calls (S (uuid4_calls st)) st).

(** [os.environ.get("AWS_REGION", "us-east-1")] *)
Definition aws_region : M string :=
  region <- asks AWS_REGION ;;
  ret (match region with Some r => r | None => "us-east-1" end).

(** [get_s3_client]: building the client calls nothing. *)
Definition get_s3_client : M unit :=
  _ <- aws_region ;; ret tt.

(** [get_s3_bucket] *)
Definition get_s3_bucket : M string :=
  bucket <- asks S3_BUCKET ;;
  match bucket with
  | Some b =>
      if truthy b then ret b
      else raise (ValueError "S3_BUCKET environment variable is not set")
  | None => raise (ValueError "S3_BUCKET environment variable is not set")
  end.

(** [generate_unique_filename] *)
Definition generate_unique_filename (original_filename : string) : M string :=
  now <- utcnow ;;
  let timestamp := strftime_Ymd_HMS now in
  u <- uuid4 ;;
  let unique_id := take 8 (str_uuid u) in
  if contains "." original_filename then
    match rsplit1 "." original_filename with
    | [name; ext] => ret (timestamp ++ "_" ++ unique_id ++ "_" ++ name ++ "." ++ ext)
    | _ => raise (ValueError "not enough values to unpack (expected 2, got 1)")
    end
  else ret (timestamp ++ "_" ++ unique_id ++ "_" ++ original_filename).

(** One call to the object store: it is recorded, the environment decides
    its fate, and an accepted call stores its object. *)
Definition s3_request (c : S3.call) : M unit :=
  fun env st =>
    let st' := set_s3_calls (s3_calls st ++ [c])%list st in
    match s3_fault env (List.length (s3_calls st)) with
    | Some f => (Raise (exn_of_s3_fault f), st')
    | None => (Ok tt, set_objects (objects st' ++ [c])%list st')
    end.

Definition s3_url_of (bucket region s3_key : string) : string :=
  "https://" ++ bucket ++ ".s3." ++ region ++ ".amazonaws.com/" ++ s3_key.

Module UploadResult.
Record t := mk {
  success : bool;
  s3_key : string;
  s3_url : string;
  bucket : string;
  original_filename : string;
  unique_filename : string;
  content_type : option string
}.
End UploadResult.

(** The text of the [TypeError] that Python raises for the call below. *)
Definition unexpected_keyword : string :=
  "upload_fileobj() got an unexpected keyword argument 'Body'".

(** [s3_client.upload_fileobj] called with [upload_params] as its keywords:
    [Bucket], [Key], [Body] and, when given, [ContentType].  The method takes
    [Fileobj], [Bucket], [Key], [ExtraArgs], [Callback] and [Config]: Python
    raises [TypeError] for the keyword [Body] when the method is called,
    before the client sends anything.  The call is recorded with what was
    passed to it; nothing is stored. *)
Definition upload_fileobj_with_keywords (c : S3.call) : M unit :=
  modify (fun st => set_s3_calls (s3_calls st ++ [c])%list st) ;;
  raise (PyException unexpected_keyword).

(** [upload_file_to_s3] *)
Definition upload_file_to_s3 (file_content : string) (original_filename : string)
    (content_type : option string) (prefix : string) : M UploadResult.t :=
  get_s3_client ;;
  bucket <- get_s3_bucket ;;
  unique_filename <- generate_unique_filename original_filename ;;
  let s3_key := prefix ++ "/" ++ unique_filename in
  let upload_content_type := if truthy_opt content_type then content_type else None in
  try_except
    (upload_fileobj_with_keywords
       (S3.mk S3.upload_fileobj bucket s3_key file_content upload_content_type) ;;
     region <- aws_region ;;
     ret (UploadResult.mk true s3_key (s3_url_of bucket region s3_key) bucket
            original_filename unique_filename content_type))
    (fun e =>
       match e with
       | NoCredentialsError => raise (ValueError "AWS credentials are not configured")
       | _ => raise e
       end).

Module BackupResult.
Record t := mk {
  success : bool;
  s3_key : string;
  s3_url : string;
  bucket : string;
  backup_filename : string;
  table_name : string;
  record_count : Z;
  backup_timestamp : string
}.
End BackupResult.

(** The dict [backup_content] of [create_backup]. *)
Definition backup_content (iso_now : string) (table_name : string)
    (data : list (list (string * value))) : value :=
  PDict [ ("backup_timestamp", PStr iso_now);
          ("table_name", PStr table_name);
          ("record_count", PInt (Z.of_nat (List.length data)));
          ("data", PList (map PDict data)) ].

(** [create_backup] *)
Definition create_backup (data : list (list (string * value))) (table_name : string)
    : M BackupResult.t :=
  get_s3_client ;;
  bucket <- get_s3_bucket ;;
  now <- utcnow ;;
  let timestamp := strftime_Ymd_HMS now in
  let backup_filename := table_name ++ "_backup_" ++ timestamp ++ ".json" in
  let s3_key := "backups/" ++ backup_filename in
  now' <- utcnow ;;
  let content := backup_content (isoformat now') table_name data in
  let json_content := json_dumps content in
  try_except
    (s3_request (S3.mk S3.put_object bucket s3_key json_content (Some "application/json")) ;;
     region <- aws_region ;;
     ret (BackupResult.mk true s3_key (s3_url_of bucket region s3_key) bucket
            backup_filename table_name (Z.of_nat (List.length data)) (isoformat now')))
    (fun e => raise e).

(* ===================================================================== *)
(** ** main.py *)
(* ===================================================================== *)

Module TaskCreate.
(** A validated [TaskCreate] body. *)
Record t := mk {
  title : string;
  description : option string;
  status : string
}.
End TaskCreate.

Module UploadFile.
(** The uploaded part: its name, its content type and the bytes read. *)
Record t := mk {
  filename : option string;
  content_type : option string;
  content : string
}.
End UploadFile.

Module HealthResponse.
Record t := mk {
  status : string;
  timestamp : string;
  database : list (string * value);
  version : string
}.
End HealthResponse.

Module UploadResponse.
Record t := mk {
  success : bool;
  s3_url : string;
  original_filename : string;
  message : string
}.
End UploadResponse.

Module BackupResponse.
Record t := mk {
  success : bool;
  s3_url : string;
  record_count : Z;
  backup_timestamp : string;
  message : string
}.
End BackupResponse.

(** [health_check] *)
Definition health_check : M HealthResponse.t :=
  db_status <- test_db_connection ;;
  now <- utcnow ;;
  let healthy :=
    match dict_get "status" db_status with
    | Some (PStr s) => String.eqb s "healthy"
    | _ => false
    end in
  ret (HealthResponse.mk (if healthy then "healthy" else "degraded")
         (isoformat now) db_status "1.0.0").

(** The query of [get_items]: active rows, and the status filter when
    [status] is truthy. *)
Definition items_query (skip limit : Z) (status : option string) : Query.t :=
  let query := query_filter Task.is_active query_Task in
  let query :=
    match status with
    | Some s =>
        if truthy s then query_filter (fun row => String.eqb (Task.status row) s) query
        else query
    | None => query
    end in
  query_limit limit (query_offset skip query).

(** [get_items] *)
Definition get_items (skip limit : Z) (status : option string) : M (list Task.t) :=
  try_except
    (query_all (items_query skip limit status))
    (fun e => raise (HTTPException 500 ("Failed to fetch items: " ++ str_exn e))).

Definition valid_statuses : list string := ["pending"; "in_progress"; "completed"].

(** [create_item].  [db_task] is the object added last, so after the commit
    its row is the last one inserted; [db.refresh] reads that row again. *)
Definition create_item (task : TaskCreate.t) : M Task.t :=
  try_except
    (if negb (existsb (String.eqb (TaskCreate.status task)) valid_statuses)
     then raise (HTTPException 400
                   ("Invalid status. Must be one of: " ++ join ", " valid_statuses))
     else
       session_add (Pending.mk (TaskCreate.title task) (TaskCreate.description task)
                      (TaskCreate.status task)) ;;
       rows <- session_commit ;;
       match rev rows with
       | db_task :: _ => session_refresh db_task
       | [] => raise (PyException "Instance is not persistent within this Session")
       end)
    (fun e =>
       match e with
       | HTTPException _ _ => raise e
       | _ =>
           session_rollback ;;
           raise (HTTPException 500 ("Failed to create item: " ++ str_exn e))
       end).

(** [get_item] *)
Definition get_item (item_id : Z) : M Task.t :=
  task <- query_first (query_filter_id item_id Task.is_active query_Task) ;;
  match task with
  | Some t => ret t
  | None => raise (HTTPException 404 "Task not found")
  end.

Definition max_size : Z := 10 * 1024 * 1024.

(** [upload_file] *)
Definition upload_file (file : UploadFile.t) : M UploadResponse.t :=
  match UploadFile.filename file with
  | Some filename =>
      if truthy filename then
        try_except
          (let file_content := UploadFile.content file in
           if (max_size <? Z.of_nat (String.length file_content))%Z
           then raise (HTTPException 413 "File too large. Maximum size is 10MB")
           else
             result <- upload_file_to_s3 file_content filename
                         (UploadFile.content_type file) "uploads" ;;
             ret (UploadResponse.mk true (UploadResult.s3_url result) filename
                    "File uploaded successfully"))
          (fun e =>
             match e with
             | HTTPException _ _ => raise e
             | ValueError _ => raise (HTTPException 500 (str_exn e))
             | _ => raise (HTTPException 500 ("Failed to upload file: " ++ str_exn e))
             end)
      else raise (HTTPException 400 "No filename provided")
  | None => raise (HTTPException 400 "No filename provided")
  end.

(** [trigger_backup] *)
Definition trigger_backup : M BackupResponse.t :=
  try_except
    (rows <- query_all (query_filter Task.is_active query_Task) ;;
     let tasks_data := map to_dict rows in
     result <- create_backup tasks_data "tasks" ;;
     ret (BackupResponse.mk true (BackupResult.s3_url result)
            (BackupResult.record_count result) (BackupResult.backup_timestamp result)
            "Backup created successfully"))
    (fun e =>
       match e with
       | ValueError _ => raise (HTTPException 500 (str_exn e))
       | _ => raise (HTTPException 500 ("Failed to create backup: " ++ str_exn e))
       end).

(* ===================================================================== *)
(** ** The router: validation, dependencies, exception handlers *)
(* ===================================================================== *)

Inductive Request : Type :=
| GET_health
| GET_items (skip limit : option Z) (status : option string)
| POST_items (body : value)
| GET_item (item_id : Z)
| POST_upload (file : option UploadFile.t)
| POST_backup.

Inductive Content : Type :=
| JHealth (r : HealthResponse.t)
| JTasks (rows : list Task.t)
| JTask (row : Task.t)
| JUpload (r : UploadResponse.t)
| JBackup (r : BackupResponse.t)
| JDetail (detail : string)
| JValidationErrors
| JUnexpected (error : option string).

Record Response := mkResponse {
  status_code : Z;
  content : Content
}.

(** The status FastAPI answers a [RequestValidationError] with; [main.py]
    installs no handler of its own for it. *)
Definition HTTP_422_UNPROCESSABLE_ENTITY : Z := 422.

(** [skip: int = Query(0, ge=0)] *)
Definition validate_skip (raw : option Z) : option Z :=
  match raw with
  | None => Some 0%Z
  | Some n => if (0 <=? n)%Z then Some n else None
  end.

(** [limit: int = Query(100, ge=1, le=1000)] *)
Definition validate_limit (raw : option Z) : option Z :=
  match raw with
  | None => Some 100%Z
  | Some n => if ((1 <=? n) && (n <=? 1000))%Z then Some n else None
  end.

(** [title: str = Field(..., min_length=1, max_length=255)] *)
Definition validate_title (items : list (string * value)) : option string :=
  match dict_get "title" items with
  | Some (PStr title) =>
      if (1 <=? String.length title) && (String.length title <=? 255)
      then Some title else None
  | _ => None
  end.

(** [description: Optional[str] = Field(None)] *)
Definition validate_description (items : list (string * value)) : option (option string) :=
  match dict_get "description" items with
  | None => Some None
  | Some PNone => Some None
  | Some (PStr d) => Some (Some d)
  | Some _ => None
  end.

(** [status: str = Field("pending")] *)
Definition validate_status (items : list (string * value)) : option string :=
  match dict_get "status" items with
  | None => Some "pending"
  | Some (PStr s) => Some s
  | Some _ => None
  end.

(** The body of [POST /items] read as a [TaskCreate]. *)
Definition validate_TaskCreate (body : value) : option TaskCreate.t :=
  match body with
  | PDict items =>
      match validate_title items, validate_description items, validate_status items with
      | Some title, Some description, Some status =>
          Some (TaskCreate.mk title description status)
      | _, _, _ => None
      end
  | _ => None
  end.

(** A route: FastAPI enters the [Depends(get_db)] dependency, validates the
    parameters, and calls the handler with them; the decorator gives the
    status of a normal return. *)
Definition endpoint (req : Request) : M Response :=
  match req with
  | GET_health =>
      r <- health_check ;; ret (mkResponse 200 (JHealth r))
  | GET_items skip limit status =>
      get_db
        (match validate_skip skip, validate_limit limit with
         | Some skip', Some limit' =>
             rows <- get_items skip' limit' status ;; ret (mkResponse 200 (JTasks rows))
         | _, _ => raise RequestValidationError
         end)
  | POST_items body =>
      get_db
        (match validate_TaskCreate body with
         | Some task => row <- create_item task ;; ret (mkResponse 201 (JTask row))
         | None => raise RequestValidationError
         end)
  | GET_item item_id =>
      get_db (row <- get_item item_id ;; ret (mkResponse 200 (JTask row)))
  | POST_upload file =>
      match file with
      | Some f => r <- upload_file f ;; ret (mkResponse 200 (JUpload r))
      | None => raise RequestValidationError
      end
  | POST_backup =>
      get_db (r <- trigger_backup ;; ret (mkResponse 200 (JBackup r)))
  end.

(** [global_exception_handler] *)
Definition global_exception_handler (env : Env) (exc : Exn) : Response :=
  let debug := match DEBUG env with Some d => d | None => "false" end in
  mkResponse 500
    (JUnexpected (if String.eqb (lower debug) "true" then Some (str_exn exc) else None)).

(** The response to an exception that leaves a route. *)
Definition exception_response (env : Env) (e : Exn) : Response :=
  match e with
  | HTTPException status_code detail => mkResponse status_code (JDetail detail)
  | RequestValidationError => mkResponse HTTP_422_UNPROCESSABLE_ENTITY JValidationErrors
  | _ => global_exception_handler env e
  end.

(** The application: one request against the world. *)
Definition app (req : Request) (env : Env) (st : State) : Response * State :=
  match endpoint req env st with
  | (Ok r, st') => (r, st')
  | (Raise e, st') => (exception_response env e, st')
  end.

(* ===================================================================== *)
(** ** Notions used in the statements *)
(* ===================================================================== *)

(** The id sequence is positive and ahead of every stored id. *)
Definition sequence_ahead (st : State) : Prop :=
  (0 < next_id st)%Z /\ Forall (fun row => (Task.id row < next_id st)%Z) (tasks st).

(** Offset then limit over a list of rows. *)
Definition page (skip limit : Z) (rows : list Task.t) : list Task.t :=
  firstn (Z.to_nat limit) (skipn (Z.to_nat skip) rows).

(** The filter of a list request as the specification words it: active,
    and of exactly the given status when one is given. *)
Definition listed (status : option string) (row : Task.t) : bool :=
  Task.is_active row
  && match status with
     | Some s => String.eqb (Task.status row) s
     | None => true
     end.

(** The schema violations named by the specification. *)
Inductive violates_schema : Request -> Prop :=
| negative_skip skip limit status :
    (skip < 0)%Z -> violates_schema (GET_items (Some skip) limit status)
| limit_out_of_range skip limit status :
    (limit < 1 \/ 1000 < limit)%Z -> violates_schema (GET_items skip (Some limit) status)
| title_length_out_of_range items title :
    dict_get "title" items = Some (PStr title) ->
    (String.length title < 1 \/ 255 < String.length title) ->
    violates_schema (POST_items (PDict items)).

(** The calls a run added to the record of object-store calls. *)
Definition calls_since (before after : State) : list S3.call :=
  skipn (List.length (s3_calls before)) (s3_calls after).

(** A string of [n] copies of [c]: a file of [n] bytes. *)
Fixpoint bytes_of_length (c : ascii) (n : nat) : string :=
  match n with
  | O => ""
  | S n' => String c (bytes_of_length c n')
  end.

(** *** Sample worlds *)

Definition noon : datetime := mk_datetime 2026 1 15 12 0 0 0.

(** Every backend call succeeds, the bucket is configured, the clock stands
    still. *)
Definition steady_env : Env :=
  mkEnv (Some "nexus-files") None None (fun _ => noon) (fun n => N.of_nat n)
    (fun _ => None) (fun _ => None) "1.25" true.

(** As [steady_env], with a clock that advances by a microsecond per reading. *)
Definition ticking_env : Env :=
  mkEnv (Some "nexus-files") None None (fun n => mk_datetime 2026 1 15 12 0 0 n)
    (fun n => N.of_nat n) (fun _ => None) (fun _ => None) "1.25" true.

(** No bucket is configured. *)
Definition unconfigured_env : Env :=
  mkEnv None None None (fun _ => noon) (fun n => N.of_nat n)
    (fun _ => None) (fun _ => None) "1.25" true.

(** The engine exists, the table is empty. *)
Definition warm_state : State := set_engine true initial_state.

Definition sample_row : Task.t :=
  Task.mk 1 "write report" None "pending" noon (Some noon) true.

(** The engine exists, the table holds one active pending row. *)
Definition one_row_state : State :=
  set_next_id 2 (set_tasks [sample_row] warm_state).

(** *** Relations between the state before and after a run *)

(** Every stored row is kept as it was, and the rows added are active. *)
Definition extends (st st' : State) : Prop :=
  exists added,
    tasks st' = (tasks st ++ added)%list
    /\ Forall (fun row => Task.is_active row = true) added.

(** The calls issued to the object store during the run all satisfy [good]. *)
Definition records (good : S3.call -> Prop) (st st' : State) : Prop :=
  exists added,
    s3_calls st' = (s3_calls st ++ added)%list /\ Forall good added.

(** A call whose body is the backup document of a list of active rows. *)
Definition snapshot_of_active_rows (c : S3.call) : Prop :=
  exists iso_now rows,
    Forall (fun row => Task.is_active row = true) rows
    /\ Forall (fun record => dict_get "is_active" record = Some (PBool true))
         (map to_dict rows)
    /\ S3.Body c =
         json_dumps
           (PDict [ ("backup_timestamp", PStr iso_now);
                    ("table_name", PStr "tasks");
                    ("record_count", PInt (Z.of_nat (List.length rows)));
                    ("data", PList (map PDict (map to_dict rows))) ]).

(** A run keeps the id sequence ahead of the stored ids. *)
Definition keeps_ahead (st st' : State) : Prop :=
  sequence_ahead st -> sequence_ahead st'.

(** The states a process reaches from its start by answering requests,
    whatever the environment shows during each. *)
Inductive reachable : State -> Prop :=
| reachable_initial : reachable initial_state
| reachable_request st req env :
    reachable st -> reachable (snd (app req env st)).

(** [m] relates every start state to its end state by [R]. *)
Definition preserves (R : State -> State -> Prop) {A} (m : M A) : Prop :=
  forall env st, R st (snd (m env st)).

(** Every value [m] returns satisfies [P]. *)
Definition returns {A} (P : A -> Prop) (m : M A) : Prop :=
  forall env st a st', m env st = (Ok a, st') -> P a.

(** A row as an INSERT run from [st] leaves it: an id drawn from the
    sequence, the active flag set, and the two timestamps taken from two
    successive readings of the clock. *)
Definition fresh_row (env : Env) (st : State) (row : Task.t) : Prop :=
  (next_id st <= Task.id row)%Z
  /\ Task.is_active row = true
  /\ exists n, Task.created_at row = utcnow_at env n
               /\ Task.updated_at row = Some (utcnow_at env (S n)).

(** What the body of a normal response can hold: the rows of a list and the
    row of a get are active. *)
Definition reads_active (req : Request) (r : Response) : Prop :=
  (forall rows, content r = JTasks rows ->
     Forall (fun row => Task.is_active row = true) rows)
  /\ (forall item_id row, req = GET_item item_id -> content r = JTask row ->
        Task.is_active row = true).

(* ===================================================================== *)
(** ** Functions outside the routes *)
(* ===================================================================== *)

Module Listed.
(** An entry of ["Contents"] in the answer to [list_objects_v2]. *)
Record t := mk {
  Key : string;
  Size : Z;
  LastModified : datetime
}.
End Listed.

Module Backup.
(** An entry of the list [list_backups] returns. *)
Record t := mk {
  key : string;
  size_bytes : Z;
  last_modified : string
}.
End Backup.

(** What [s3_client.list_objects_v2] does: it raises, or answers with a
    response that may have no ["Contents"]. *)
Inductive ListResponse : Type :=
| ListRaises (f : S3Fault)
| ListAnswers (Contents : option (list Listed.t)).

(** [obj["LastModified"].isoformat()]: the store gives a timezone-aware UTC
    [datetime], whose ISO form ends in the offset. *)
Definition isoformat_utc (dt : datetime) : string := isoformat dt ++ "+00:00".

(** The dict appended for one listed object. *)
Definition backup_of (obj : Listed.t) : Backup.t :=
  Backup.mk (Listed.Key obj) (Listed.Size obj) (isoformat_utc (Listed.LastModified obj)).

(** [sorted(items, key=key, reverse=True)]: descending by key, items of
    equal key in their original order. *)
Fixpoint insert_reverse {A} (key : A -> string) (x : A) (items : list A) : list A :=
  match items with
  | [] => [x]
  | y :: rest =>
      if String.leb (key y) (key x) then x :: items
      else y :: insert_reverse key x rest
  end.

Definition sorted_reverse {A} (key : A -> string) (items : list A) : list A :=
  fold_right (insert_reverse key) [] items.

(** [list_backups]; [list_objects_v2] is the call of the client, given its
    [Bucket], [Prefix] and [MaxKeys]. *)
Definition list_backups (list_objects_v2 : string -> string -> Z -> ListResponse)
    (max_items : Z) : M (list Backup.t) :=
  get_s3_client ;;
  bucket <- get_s3_bucket ;;
  try_except
    (match list_objects_v2 bucket "backups/" max_items with
     | ListRaises f => raise (exn_of_s3_fault f)
     | ListAnswers Contents =>
         let backups := map backup_of (match Contents with Some l => l | None => [] end) in
         ret (sorted_reverse Backup.last_modified backups)
     end)
    (fun e => raise e).

(** [init_db]: the engine, then [Base.metadata.create_all] over it, counted
    as one round trip. *)
Definition init_db : M unit :=
  get_engine ;; db_round_trip.

(** [startup_event]: whatever [init_db] raises is logged and dropped. *)
Definition startup_event : M unit :=
  try_except init_db (fun e => ret tt).

(** *** Further notions used in the statements *)

(** Every exception the database stack raises carries a text. *)
Definition carries_text (env : Env) : Prop :=
  forall n f, db_fault env n = Some f -> str_exn (exn_of_db_fault f) <> "".

(** The row an INSERT of [task] run from [st] stores: the next id of the
    sequence and the next two readings of the clock. *)
Definition created_row (env : Env) (st : State) (task : TaskCreate.t) : Task.t :=
  Task.mk (next_id st) (TaskCreate.title task) (TaskCreate.description task)
    (TaskCreate.status task) (utcnow_at env (utcnow_calls st))
    (Some (utcnow_at env (S (utcnow_calls st)))) true.

(** The filter of a list request as [get_items] builds it: active rows, of
    the given status when that status is not empty. *)
Definition shown (status : option string) (row : Task.t) : bool :=
  Task.is_active row
  && match status with
     | Some s => if truthy s then String.eqb (Task.status row) s else true
     | None => true
     end.

(** [id] is a primary key drawn from the sequence: the sequence is ahead of
    the stored ids, which are positive and pairwise distinct. *)
Definition primary_key (st : State) : Prop :=
  sequence_ahead st
  /\ Forall (fun row => (0 < Task.id row)%Z) (tasks st)
  /\ NoDup (map Task.id (tasks st)).

(** A run keeps [id] a primary key. *)
Definition keeps_key (st st' : State) : Prop := primary_key st -> primary_key st'.

(** A run leaves the table, the id sequence and the pending objects of the
    session as they were. *)
Definition untouched (st st' : State) : Prop :=
  tasks st' = tasks st /\ next_id st' = next_id st /\ session_new st' = session_new st.

(** Satisfied by no call: a run that [records no_call] issues none. *)
Definition no_call (c : S3.call) : Prop := False.

(** [a] was modified no earlier than [b], by the order of the ISO strings. *)
Definition newer_or_same (a b : Backup.t) : Prop :=
  String.leb (Backup.last_modified b) (Backup.last_modified a) = true.

(** *** Further sample worlds *)

(** Every database round trip raises an [OperationalError]. *)
Definition unavailable_env : Env :=
  mkEnv (Some "nexus-files") None None (fun _ => noon) (fun n => N.of_nat n)
    (fun _ => Some (DbOperational "database unavailable")) (fun _ => None) "1.25" true.

(** The first round trip raises an [OperationalError], every later one an
    exception that is none. *)
Definition rejecting_env : Env :=
  mkEnv (Some "nexus-files") None None (fun _ => noon) (fun n => N.of_nat n)
    (fun n => match n with
              | O => Some (DbOperational "database unavailable")
              | S _ => Some (DbFailure "password authentication failed")
              end)
    (fun _ => None) "1.25" true.

(** The first round trip succeeds, every later one raises an
    [OperationalError]. *)
Definition lost_after_commit_env : Env :=
  mkEnv (Some "nexus-files") None None (fun _ => noon) (fun n => N.of_nat n)
    (fun n => match n with
              | O => None
              | S _ => Some (DbOperational "server closed the connection")
              end)
    (fun _ => None) "1.25" true.

(** Every connection is lost at the end of its round trip. *)
Definition lost_commit_env : Env :=
  mkEnv (Some "nexus-files") None None (fun _ => noon) (fun n => N.of_nat n)
    (fun _ => Some (DbLost "server closed the connection")) (fun _ => None) "1.25"
    true.

Definition sample_task : TaskCreate.t := TaskCreate.mk "write report" None "pending".

(** A body that validates to [sample_task]. *)
Definition sample_body : value := PDict [("title", PStr "write report")].

Definition second_row : Task.t :=
  Task.mk 2 "review report" None "completed" noon (Some noon) true.

(** The engine exists, the table holds two active rows. *)
Definition two_row_state : State :=
  set_next_id 3 (set_tasks [sample_row; second_row] warm_state).

Definition sample_file : UploadFile.t :=
  UploadFile.mk (Some "notes.txt") (Some "text/plain") "hello".

(** A listing of two backups, the older one first. *)
Definition sample_contents : list Listed.t :=
  [ Listed.mk "backups/tasks_backup_20260114_120000.json" 2048
      (mk_datetime 2026 1 14 12 0 0 0);
    Listed.mk "backups/tasks_backup_20260115_120000.json" 4096 noon ].

Definition sample_listing (Bucket Prefix : string) (MaxKeys : Z) : ListResponse :=
  ListAnswers (Some sample_contents).

(** The state a new process is in after one create request. *)
Definition state_after_one_create : State :=
  snd (app (POST_items sample_body) steady_env initial_state).

(* ===================================================================== *)
(** ** Strings, timestamps and identifiers *)
(* ===================================================================== *)

Lemma rpartition_cut sep s before after :
  rpartition sep s = Some (before, after) ->
  s = before ++ String sep after /\ contains sep after = false.
Proof.
  revert before after. induction s as [|c s IH]; intros before after H; simpl in H.
  - discriminate.
  - destruct (rpartition sep s) as [[b a]|] eqn:E.
    + inversion H; subst. destruct (IH b after eq_refl) as [-> Hc].
      split; [reflexivity|exact Hc].
    + destruct (Ascii.eqb c sep) eqn:Ec; [|discriminate].
      inversion H; subst. apply Ascii.eqb_eq in Ec. subst c. split; [reflexivity|].
      clear IH H. induction after as [|d t IHt]; [reflexivity|].
      simpl in E |- *. destruct (rpartition sep t) as [[b a]|]; [discriminate|].
      destruct (Ascii.eqb d sep); [discriminate|]. simpl. apply IHt. reflexivity.
Qed.

Lemma rpartition_found sep s :
  contains sep s = true -> exists before after, rpartition sep s = Some (before, after).
Proof.
  induction s as [|c s IH]; simpl; intros H; [discriminate|].
  destruct (rpartition sep s) as [[b a]|] eqn:E.
  - eauto.
  - destruct (Ascii.eqb c sep); [eauto|]. simpl in H.
    destruct (IH H) as (b & a & Hba). discriminate.
Qed.

Lemma is_digit_digit n : is_digit (digit n) = true.
Proof.
  unfold is_digit, digit.
  assert (n mod 10 < 10) by (apply Nat.mod_upper_bound; lia).
  rewrite nat_ascii_embedding by lia.
  apply andb_true_intro; split; apply Nat.leb_le; lia.
Qed.

Lemma strftime_shape dt : is_Ymd_HMS (strftime_Ymd_HMS dt) = true.
Proof.
  unfold strftime_Ymd_HMS, is_Ymd_HMS.
  cbn -[digit Nat.div Nat.modulo].
  rewrite !is_digit_digit. reflexivity.
Qed.

Lemma unique_id_length u : String.length (take 8 (str_uuid u)) = 8.
Proof.
  unfold str_uuid, slice. cbn -[hex_digit N.div]. reflexivity.
Qed.

Lemma length_bytes_of_length c n : String.length (bytes_of_length c n) = n.
Proof. induction n as [|n IH]; simpl; [reflexivity|rewrite IH; reflexivity]. Qed.

(* ===================================================================== *)
(** ** Running the monad *)
(* ===================================================================== *)

Lemma bind_ok {A B} (m : M A) (k : A -> M B) env st a st' :
  m env st = (Ok a, st') -> bind m k env st = k a env st'.
Proof. intros H. unfold bind. rewrite H. reflexivity. Qed.

Lemma db_round_trip_run env st :
  db_round_trip env st
  = (match db_fault env (db_calls st) with
     | Some f => Raise (exn_of_db_fault f)
     | None => Ok tt
     end, set_db_calls (S (db_calls st)) st).
Proof. unfold db_round_trip. destruct (db_fault env (db_calls st)); reflexivity. Qed.

Lemma set_db_calls_same st : set_db_calls (db_calls st) st = st.
Proof. destruct st; reflexivity. Qed.

Lemma set_db_calls_twice a b st : set_db_calls a (set_db_calls b st) = set_db_calls a st.
Proof. reflexivity. Qed.

Lemma get_s3_client_run env st : get_s3_client env st = (Ok tt, st).
Proof. reflexivity. Qed.

Lemma get_s3_bucket_set env st bucket :
  S3_BUCKET env = Some bucket -> bucket <> "" -> get_s3_bucket env st = (Ok bucket, st).
Proof.
  intros H Hne. unfold get_s3_bucket, bind, asks. rewrite H.
  destruct bucket; [congruence|reflexivity].
Qed.

Lemma calls_since_one st st' c :
  s3_calls st' = (s3_calls st ++ [c])%list -> calls_since st st' = [c].
Proof.
  intros H. unfold calls_since. rewrite H, skipn_app, skipn_all, Nat.sub_diag. reflexivity.
Qed.

Lemma get_db_warm {A} (handler : M A) env st :
  engine st = true ->
  get_db handler env st = session_scope handler env (rollback_state st).
Proof.
  intros H. unfold get_db, get_session_factory, get_engine, new_session, bind, gets, modify.
  rewrite H. reflexivity.
Qed.

Lemma session_scope_raise {A} (e : Exn) env st :
  session_scope (@raise A e) env st = (Raise e, rollback_state (rollback_state st)).
Proof. reflexivity. Qed.

Lemma app_state req env st : snd (app req env st) = snd (endpoint req env st).
Proof. unfold app. destruct (endpoint req env st) as [[r|e] st']; reflexivity. Qed.

(* ===================================================================== *)
(** ** Queries *)
(* ===================================================================== *)

Lemma Forall_firstn {A} (P : A -> Prop) n (l : list A) :
  Forall P l -> Forall P (firstn n l).
Proof.
  intros H. revert n. induction H; intros [|n]; simpl; constructor; auto.
Qed.

Lemma Forall_skipn {A} (P : A -> Prop) n (l : list A) :
  Forall P l -> Forall P (skipn n l).
Proof.
  intros H. revert n. induction H; intros [|n]; simpl; auto.
Qed.

Lemma select_matches q rows : Forall (fun row => matches q row = true) (select q rows).
Proof.
  unfold select, apply_limit, apply_offset.
  assert (H : Forall (fun row => matches q row = true) (filter (matches q) rows)).
  { apply Forall_forall. intros row Hin. apply filter_In in Hin. apply Hin. }
  destruct (Query.limit q), (Query.offset q);
    auto using Forall_firstn, Forall_skipn.
Qed.

Lemma execute_run q env st :
  execute q env st
  = (match db_fault env (db_calls st) with
     | Some f => Raise (exn_of_db_fault f)
     | None =>
         match refusal (bind_casts env) q (tasks st) with
         | Some text => Raise (PyException text)
         | None => Ok (select q (tasks st))
         end
     end, set_db_calls (S (db_calls st)) (set_in_transaction true st)).
Proof.
  unfold execute, bind, modify, db_round_trip, gets, asks, ret, raise.
  cbn [db_calls set_in_transaction].
  destruct (db_fault env (db_calls st)); [reflexivity|].
  cbn [tasks set_db_calls set_in_transaction].
  destruct (refusal (bind_casts env) q (tasks st)); reflexivity.
Qed.

Lemma execute_ok q env st :
  db_fault env (db_calls st) = None ->
  refusal (bind_casts env) q (tasks st) = None ->
  execute q env st
  = (Ok (select q (tasks st)), set_db_calls (S (db_calls st)) (set_in_transaction true st)).
Proof. intros Hdb Hn. rewrite execute_run, Hdb, Hn. reflexivity. Qed.

Lemma execute_returns q :
  returns (fun rows => Forall (fun row => matches q row = true) rows) (execute q).
Proof.
  intros env st rows st'. rewrite execute_run.
  destruct (db_fault env (db_calls st)); [discriminate|].
  destruct (refusal (bind_casts env) q (tasks st)); [discriminate|].
  intros H. inversion H; subst. apply select_matches.
Qed.

Lemma is_integer_iff n :
  is_integer n = true <-> (min_integer <= n <= max_integer)%Z.
Proof. unfold is_integer. rewrite andb_true_iff, !Z.leb_le. reflexivity. Qed.

Lemma is_bigint_iff n :
  is_bigint n = true <-> (min_bigint <= n <= max_bigint)%Z.
Proof. unfold is_bigint. rewrite andb_true_iff, !Z.leb_le. reflexivity. Qed.

Lemma integer_is_bigint n : is_integer n = true -> is_bigint n = true.
Proof.
  rewrite is_integer_iff, is_bigint_iff.
  unfold min_integer, max_integer, min_bigint, max_bigint. lia.
Qed.

(** An INTEGER is in range whichever of the two types the parameter has. *)
Lemma integer_in_range casts n :
  is_integer n = true -> out_of_range casts (Some n) = false.
Proof.
  intros H. unfold out_of_range. destruct casts;
    [rewrite H|rewrite (integer_is_bigint n H)]; reflexivity.
Qed.

Lemma in_range_is_bigint casts n :
  out_of_range casts (Some n) = false -> is_bigint n = true.
Proof.
  unfold out_of_range. destruct casts; intros H; apply negb_false_iff in H;
    [apply integer_is_bigint|]; exact H.
Qed.

(** A query with an OFFSET and a LIMIT between 0 and the largest INTEGER,
    whose criteria compare [Task.id] with nothing, is not refused. *)
Lemma refusal_none casts q rows (skip limit : Z) :
  Query.integers q = [] ->
  Query.offset q = Some skip -> Query.limit q = Some limit ->
  (0 <= skip <= max_integer)%Z -> (0 <= limit <= max_integer)%Z ->
  refusal casts q rows = None.
Proof.
  intros Hi Ho Hl Hs Hm. unfold refusal. rewrite Hi, Ho, Hl. cbn [existsb negative].
  assert (Es : is_integer skip = true) by (apply is_integer_iff; unfold min_integer; lia).
  assert (El : is_integer limit = true) by (apply is_integer_iff; unfold min_integer; lia).
  rewrite (integer_in_range casts skip Es), (integer_in_range casts limit El). cbn [orb].
  destruct (Z.ltb_spec skip 0); [lia|]. destruct (Z.ltb_spec limit 0); [lia|]. reflexivity.
Qed.

(** What a query that is not refused was asked for. *)
Lemma refusal_none_inv casts q rows (skip limit : Z) :
  Query.offset q = Some skip -> Query.limit q = Some limit ->
  refusal casts q rows = None ->
  (0 <= skip <= max_bigint)%Z /\ (0 <= limit <= max_bigint)%Z.
Proof.
  intros Ho Hl. unfold refusal. rewrite Ho, Hl. cbn [negative].
  destruct (out_of_range casts (Some skip)) eqn:Es; [discriminate|].
  destruct (out_of_range casts (Some limit)) eqn:El; [discriminate|].
  cbn [orb]. destruct (existsb _ _); [discriminate|].
  destruct (Z.ltb_spec skip 0); [discriminate|].
  destruct (Z.ltb_spec limit 0); [discriminate|]. intros _.
  apply in_range_is_bigint, is_bigint_iff in Es, El. lia.
Qed.

Lemma active_query_matches row :
  matches (query_filter Task.is_active query_Task) row = true -> Task.is_active row = true.
Proof. cbn. rewrite andb_true_r. auto. Qed.

Lemma items_query_matches skip limit status row :
  matches (items_query skip limit status) row = true -> Task.is_active row = true.
Proof.
  unfold items_query. destruct status as [s|]; [destruct (truthy s)|]; cbn;
    intros H; apply andb_true_iff in H; apply H.
Qed.

Lemma items_query_select skip limit status rows :
  status <> Some "" ->
  select (items_query skip limit status) rows
  = page skip limit (filter (listed status) rows).
Proof.
  intros Hs. unfold select, page, items_query.
  assert (E : forall q,
            apply_limit (Query.limit (query_limit limit (query_offset skip q)))
              (apply_offset (Query.offset (query_limit limit (query_offset skip q)))
                 (filter (matches (query_limit limit (query_offset skip q))) rows))
            = firstn (Z.to_nat limit) (skipn (Z.to_nat skip) (filter (matches q) rows))).
  { intros q. reflexivity. }
  rewrite E. f_equal. f_equal. apply filter_ext. intros row.
  destruct status as [s|].
  - destruct s as [|c s]; [congruence|]. cbn. rewrite andb_true_r. reflexivity.
  - cbn. reflexivity.
Qed.

Lemma not_in_valid_statuses s :
  ~ In s valid_statuses -> existsb (String.eqb s) valid_statuses = false.
Proof.
  intros H. destruct (existsb (String.eqb s) valid_statuses) eqn:E; [|reflexivity].
  apply existsb_exists in E. destruct E as (x & Hx & Heq).
  apply String.eqb_eq in Heq. subst x. contradiction.
Qed.

(* ===================================================================== *)
(** ** Inserts *)
(* ===================================================================== *)

Lemma insert_rows_spec ps : forall env st, exists rows st',
  insert_rows ps env st = (Ok rows, st')
  /\ tasks st' = (tasks st ++ rows)%list
  /\ (next_id st <= next_id st')%Z
  /\ Forall (fresh_row env st) rows
  /\ List.length rows = List.length ps.
Proof.
  induction ps as [|p ps IH]; intros env st.
  - exists [], st. cbn. rewrite app_nil_r. repeat split; try lia. constructor.
  - cbn [insert_rows]. unfold bind at 1.
    assert (E : exists row st1, insert_row p env st = (Ok row, st1)
                /\ tasks st1 = (tasks st ++ [row])%list
                /\ next_id st1 = (next_id st + 1)%Z
                /\ fresh_row env st row).
    { unfold insert_row, bind, gets, modify, utcnow, ret. cbn.
      eexists _, _. split; [reflexivity|]. cbn.
      split; [reflexivity|]. split; [reflexivity|].
      unfold fresh_row. cbn. split; [lia|]. split; [reflexivity|].
      exists (utcnow_calls st). split; reflexivity. }
    destruct E as (row & st1 & -> & Ht & Hn & Hf).
    destruct (IH env st1) as (rows & st' & E' & Ht' & Hn' & Hf' & Hl).
    exists (row :: rows), st'. unfold bind. rewrite E'. cbn.
    split; [reflexivity|]. split; [rewrite Ht', Ht, <- app_assoc; reflexivity|].
    split; [lia|]. split; [|rewrite Hl; reflexivity].
    constructor; [exact Hf|].
    eapply Forall_impl; [|exact Hf']. intros r (H1 & H2 & H3).
    split; [lia|]. split; assumption.
Qed.

(** An INSERT changes the table, the sequence and the count of clock
    readings, and nothing else. *)
Lemma insert_rows_frame ps : forall env st rows st',
  insert_rows ps env st = (Ok rows, st') ->
  db_calls st' = db_calls st
  /\ s3_calls st' = s3_calls st
  /\ objects st' = objects st
  /\ session_new st' = session_new st
  /\ in_transaction st' = in_transaction st
  /\ engine st' = engine st
  /\ (next_id st' = next_id st + Z.of_nat (List.length ps))%Z.
Proof.
  induction ps as [|p ps IH]; intros env st rows st' H.
  - cbn in H. inversion H; subst. repeat split. cbn. lia.
  - cbn [insert_rows] in H. unfold insert_row, gets, modify, utcnow, ret, bind in H.
    cbn [fst snd next_id tasks utcnow_calls set_next_id set_utcnow_calls set_tasks] in H.
    match type of H with
    | context [insert_rows ps env ?s1] =>
        destruct (insert_rows ps env s1) as [[rows'|e] st2] eqn:E; [|discriminate H];
        apply IH in E
    end.
    inversion H; subst. cbn in E.
    destruct E as (K1 & K2 & K3 & K4 & K5 & K6 & K7).
    repeat split; try assumption. rewrite K7. cbn [List.length]. lia.
Qed.

(** The INSERTs of a lost transaction leave the table as it was and draw as
    many ids as there were objects. *)
Lemma insert_rows_rolled_back_run ps env st :
  insert_rows_rolled_back ps env st
  = (Ok tt, set_tasks (tasks st) (snd (insert_rows ps env st))).
Proof.
  unfold insert_rows_rolled_back, bind, gets, modify.
  destruct (insert_rows_spec ps env st) as (rows & st1 & E & _). rewrite E. reflexivity.
Qed.

(** [session_commit], by the fate of its round trip. *)
Lemma session_commit_unfold env st :
  session_commit env st
  = match session_new st, in_transaction st with
    | [], false => (Ok [], st)
    | _, _ =>
        match db_fault env (db_calls st) with
        | Some (DbLost msg) =>
            (Raise (OperationalError msg),
             set_db_calls (S (db_calls st))
               (set_tasks (tasks st) (snd (insert_rows (session_new st) env st))))
        | Some f => (Raise (exn_of_db_fault f), set_db_calls (S (db_calls st)) st)
        | None =>
            (rows <- insert_rows (session_new st) ;;
             modify (set_session_new []) ;; modify (set_in_transaction false) ;;
             ret rows) env (set_db_calls (S (db_calls st)) st)
        end
    end.
Proof.
  assert (H : forall ps,
            (lost <- connection_is_lost ;;
             if lost then insert_rows_rolled_back ps ;; db_round_trip ;; ret []
             else
               db_round_trip ;; rows <- insert_rows ps ;;
               modify (set_session_new []) ;; modify (set_in_transaction false) ;;
               ret rows) env st
            = match db_fault env (db_calls st) with
              | Some (DbLost msg) =>
                  (Raise (OperationalError msg),
                   set_db_calls (S (db_calls st))
                     (set_tasks (tasks st) (snd (insert_rows ps env st))))
              | Some f => (Raise (exn_of_db_fault f), set_db_calls (S (db_calls st)) st)
              | None =>
                  (rows <- insert_rows ps ;;
                   modify (set_session_new []) ;; modify (set_in_transaction false) ;;
                   ret rows) env (set_db_calls (S (db_calls st)) st)
              end).
  { intros ps. unfold bind at 1. unfold connection_is_lost.
    destruct (db_fault env (db_calls st)) as [[msg|msg|msg]|] eqn:Ef.
    - unfold bind at 1. unfold db_round_trip. rewrite Ef. reflexivity.
    - unfold bind at 1. unfold db_round_trip. rewrite Ef. reflexivity.
    - unfold bind at 1. rewrite insert_rows_rolled_back_run.
      unfold bind at 1. unfold db_round_trip.
      destruct (insert_rows_spec ps env st) as (rows & st1 & E & _).
      destruct (insert_rows_frame ps env st rows st1 E) as (Hd & _).
      rewrite E. cbn [snd db_calls set_tasks]. rewrite Hd, Ef. reflexivity.
    - unfold bind at 1. unfold db_round_trip. rewrite Ef. reflexivity. }
  unfold session_commit. unfold bind at 1 2. unfold gets.
  destruct (session_new st) as [|p ps]; [destruct (in_transaction st)|];
    [apply H|reflexivity|apply H].
Qed.

Lemma session_commit_pending env st rows st' :
  session_new st <> [] ->
  session_commit env st = (Ok rows, st') ->
  tasks st' = (tasks st ++ rows)%list
  /\ Forall (fresh_row env st) rows
  /\ List.length rows = List.length (session_new st).
Proof.
  intros Hne H. rewrite session_commit_unfold in H.
  assert (H' : match db_fault env (db_calls st) with
               | Some (DbLost msg) =>
                   (Raise (OperationalError msg),
                    set_db_calls (S (db_calls st))
                      (set_tasks (tasks st) (snd (insert_rows (session_new st) env st))))
               | Some f => (Raise (exn_of_db_fault f), set_db_calls (S (db_calls st)) st)
               | None =>
                   (rows <- insert_rows (session_new st) ;;
                    modify (set_session_new []) ;; modify (set_in_transaction false) ;;
                    ret rows) env (set_db_calls (S (db_calls st)) st)
               end = (Ok rows, st')).
  { destruct (session_new st); [congruence|exact H]. }
  clear H. destruct (db_fault env (db_calls st)) as [[msg|msg|msg]|]; try discriminate.
  unfold bind at 1 in H'.
  destruct (insert_rows_spec (session_new st) env (set_db_calls (S (db_calls st)) st))
    as (rows' & st1 & E & Ht & Hn & Hf & Hl).
  rewrite E in H'. cbn in H'. inversion H'; subst. cbn.
  split; [exact Ht|]. split; [exact Hf|exact Hl].
Qed.

Lemma session_commit_idle env st :
  session_new st = [] -> in_transaction st = false ->
  session_commit env st = (Ok [], st).
Proof. intros Hn Ht. rewrite session_commit_unfold, Hn, Ht. reflexivity. Qed.

(** [session_commit] with something to commit, by the fate of its round
    trip. *)
Lemma session_commit_busy env st :
  (session_new st <> [] \/ in_transaction st = true) ->
  session_commit env st
  = match db_fault env (db_calls st) with
    | Some (DbLost msg) =>
        (Raise (OperationalError msg),
         set_db_calls (S (db_calls st))
           (set_tasks (tasks st) (snd (insert_rows (session_new st) env st))))
    | Some f => (Raise (exn_of_db_fault f), set_db_calls (S (db_calls st)) st)
    | None =>
        (rows <- insert_rows (session_new st) ;;
         modify (set_session_new []) ;; modify (set_in_transaction false) ;;
         ret rows) env (set_db_calls (S (db_calls st)) st)
    end.
Proof.
  intros H. rewrite session_commit_unfold.
  destruct (session_new st) as [|p ps] eqn:En; [|reflexivity].
  destruct (in_transaction st) eqn:Et; [reflexivity|].
  destruct H as [H|H]; congruence.
Qed.

(** A commit whose round trip fails raises the exception of the failure and
    leaves the table as it was.  The sequence is where it was when the
    failure came before the INSERTs, and past the ids they drew when the
    connection was lost after them. *)
Lemma session_commit_fails env st f :
  (session_new st <> [] \/ in_transaction st = true) ->
  db_fault env (db_calls st) = Some f ->
  exists st',
    session_commit env st = (Raise (exn_of_db_fault f), st')
    /\ tasks st' = tasks st
    /\ session_new st' = session_new st
    /\ db_calls st' = S (db_calls st)
    /\ s3_calls st' = s3_calls st
    /\ objects st' = objects st
    /\ ((forall msg, f <> DbLost msg) -> next_id st' = next_id st)
    /\ (forall msg, f = DbLost msg ->
        next_id st' = (next_id st + Z.of_nat (List.length (session_new st)))%Z).
Proof.
  intros H Hf. rewrite (session_commit_busy env st H), Hf.
  destruct f as [msg|msg|msg].
  - eexists. split; [reflexivity|]. cbn.
    do 5 (split; [reflexivity|]). split; [reflexivity|]. intros m Hm. discriminate Hm.
  - eexists. split; [reflexivity|]. cbn.
    do 5 (split; [reflexivity|]). split; [reflexivity|]. intros m Hm. discriminate Hm.
  - eexists. split; [reflexivity|].
    destruct (insert_rows_spec (session_new st) env st) as (rows & st1 & E & _).
    destruct (insert_rows_frame _ env st rows st1 E) as (H1 & H2 & H3 & H4 & _ & _ & H7).
    rewrite E. cbn.
    split; [reflexivity|]. split; [exact H4|]. split; [reflexivity|].
    split; [exact H2|]. split; [exact H3|]. split.
    + intros Hno. destruct (Hno msg eq_refl).
    + intros m _. exact H7.
Qed.

Lemma session_commit_succeeds env st :
  (session_new st <> [] \/ in_transaction st = true) ->
  db_fault env (db_calls st) = None ->
  exists rows st',
    session_commit env st = (Ok rows, st')
    /\ tasks st' = (tasks st ++ rows)%list
    /\ Forall (fresh_row env st) rows
    /\ List.length rows = List.length (session_new st)
    /\ session_new st' = [] /\ in_transaction st' = false.
Proof.
  intros H Hf. rewrite (session_commit_busy env st H), Hf.
  destruct (insert_rows_spec (session_new st) env (set_db_calls (S (db_calls st)) st))
    as (rows & st1 & E & Ht & _ & Hfresh & Hl).
  exists rows. unfold bind at 1. cbn [session_new set_db_calls]. rewrite E.
  eexists. split; [reflexivity|]. cbn.
  split; [exact Ht|]. split; [exact Hfresh|]. split; [exact Hl|]. split; reflexivity.
Qed.

Lemma session_scope_run {A} (handler : M A) env st :
  session_scope handler env st
  = match handler env st with
    | (Ok a, st1) =>
        match session_commit env st1 with
        | (Ok _, st2) => (Ok a, rollback_state st2)
        | (Raise e, st2) => (Raise e, rollback_state (rollback_state st2))
        end
    | (Raise e, st1) => (Raise e, rollback_state (rollback_state st1))
    end.
Proof.
  unfold session_scope, finally, try_except, bind.
  destruct (handler env st) as [[a|e] st1];
    [destruct (session_commit env st1) as [[rows|e] st2]|]; reflexivity.
Qed.

(* ===================================================================== *)
(** ** Relations kept by every run *)
(* ===================================================================== *)

(** The lemmas of this section hold for any preorder [R] on states that
    ignores the counters and is kept by an INSERT; they are used below with
    [extends] and with [records]. *)
Section Frame.
Variable R : State -> State -> Prop.
Hypothesis R_refl : forall st, R st st.
Hypothesis R_trans : forall a b c, R a b -> R b c -> R a c.

Lemma preserves_ret {A} (a : A) : preserves R (ret a).
Proof. intros env st. apply R_refl. Qed.

Lemma preserves_raise {A} (e : Exn) : preserves R (@raise A e).
Proof. intros env st. apply R_refl. Qed.

Lemma preserves_asks {A} (f : Env -> A) : preserves R (asks f).
Proof. intros env st. apply R_refl. Qed.

Lemma preserves_gets {A} (f : State -> A) : preserves R (gets f).
Proof. intros env st. apply R_refl. Qed.

Lemma preserves_modify (f : State -> State) :
  (forall st, R st (f st)) -> preserves R (modify f).
Proof. intros H env st. apply H. Qed.

Lemma preserves_bind_returns {A B} (P : A -> Prop) (m : M A) (k : A -> M B) :
  preserves R m -> returns P m -> (forall a, P a -> preserves R (k a)) ->
  preserves R (bind m k).
Proof.
  intros Hm HP Hk env st. unfold bind.
  specialize (Hm env st). specialize (HP env st).
  destruct (m env st) as [[a|e] st1]; simpl in *.
  - eapply R_trans; [exact Hm|]. apply Hk. eapply HP. reflexivity.
  - exact Hm.
Qed.

Lemma preserves_bind {A B} (m : M A) (k : A -> M B) :
  preserves R m -> (forall a, preserves R (k a)) -> preserves R (bind m k).
Proof.
  intros Hm Hk. apply (preserves_bind_returns (fun _ => True)); auto.
  intros env st a st' _. exact I.
Qed.

Lemma preserves_try_except {A} (body : M A) (handler : Exn -> M A) :
  preserves R body -> (forall e, preserves R (handler e)) ->
  preserves R (try_except body handler).
Proof.
  intros Hb Hh env st. unfold try_except.
  specialize (Hb env st).
  destruct (body env st) as [[a|e] st1]; simpl in *.
  - exact Hb.
  - eapply R_trans; [exact Hb|]. apply Hh.
Qed.

Lemma preserves_finally {A} (body : M A) (cleanup : State -> State) :
  preserves R body -> (forall st, R st (cleanup st)) ->
  preserves R (finally body cleanup).
Proof.
  intros Hb Hc env st. unfold finally.
  specialize (Hb env st).
  destruct (body env st) as [r st1]; simpl in *.
  eapply R_trans; [exact Hb|]. apply Hc.
Qed.

(** The primitives below read or advance counters only. *)
Hypothesis R_counters :
  forall st st',
    tasks st' = tasks st -> next_id st' = next_id st -> s3_calls st' = s3_calls st ->
    R st st'.

Lemma preserves_utcnow : preserves R utcnow.
Proof. intros env st. apply R_counters; reflexivity. Qed.

Lemma preserves_uuid4 : preserves R uuid4.
Proof. intros env st. apply R_counters; reflexivity. Qed.

Lemma preserves_db_round_trip : preserves R db_round_trip.
Proof.
  intros env st. unfold db_round_trip.
  destruct (db_fault env (db_calls st)); apply R_counters; reflexivity.
Qed.

Lemma preserves_connect_and_select_1 : preserves R connect_and_select_1.
Proof.
  apply preserves_bind; [apply preserves_db_round_trip|intros _; apply preserves_db_round_trip].
Qed.

Lemma preserves_create_db_engine_loop n last : preserves R (create_db_engine_loop n last).
Proof.
  revert last. induction n as [|n IH]; intros last; simpl.
  - destruct last; apply preserves_raise.
  - apply preserves_try_except; [apply preserves_connect_and_select_1|].
    intros e. destruct e; try apply preserves_raise. apply IH.
Qed.

Lemma preserves_get_engine : preserves R get_engine.
Proof.
  unfold get_engine. apply preserves_bind; [apply preserves_gets|].
  intros [|]; [apply preserves_ret|].
  apply preserves_bind; [apply preserves_create_db_engine_loop|].
  intros _. apply preserves_modify. intros st. apply R_counters; reflexivity.
Qed.

Lemma preserves_rollback : forall st, R st (rollback_state st).
Proof. intros st. apply R_counters; reflexivity. Qed.

Lemma preserves_execute q : preserves R (execute q).
Proof.
  unfold execute.
  apply preserves_bind; [apply preserves_modify; intros st; apply R_counters; reflexivity|].
  intros _. apply preserves_bind; [apply preserves_db_round_trip|].
  intros _. apply preserves_bind; [apply preserves_gets|]. intros rows.
  apply preserves_bind; [apply preserves_asks|]. intros casts.
  destruct (refusal casts q rows); [apply preserves_raise|apply preserves_ret].
Qed.

Lemma preserves_session_refresh obj : preserves R (session_refresh obj).
Proof.
  unfold session_refresh.
  apply preserves_bind; [apply preserves_modify; intros st; apply R_counters; reflexivity|].
  intros _. apply preserves_bind; [apply preserves_db_round_trip|].
  intros _. apply preserves_bind; [apply preserves_gets|]. intros rows.
  destruct (find _ rows); [apply preserves_ret|apply preserves_raise].
Qed.

Lemma preserves_get_s3_bucket : preserves R get_s3_bucket.
Proof.
  unfold get_s3_bucket. apply preserves_bind; [apply preserves_asks|].
  intros [b|]; [destruct (truthy b); [apply preserves_ret|apply preserves_raise]|apply preserves_raise].
Qed.

Lemma preserves_aws_region : preserves R aws_region.
Proof.
  unfold aws_region. apply preserves_bind; [apply preserves_asks|]. intros r. apply preserves_ret.
Qed.

Lemma preserves_get_s3_client : preserves R get_s3_client.
Proof.
  unfold get_s3_client. apply preserves_bind; [apply preserves_aws_region|]. intros r. apply preserves_ret.
Qed.

Lemma preserves_generate_unique_filename name : preserves R (generate_unique_filename name).
Proof.
  unfold generate_unique_filename.
  apply preserves_bind; [apply preserves_utcnow|]. intros now.
  apply preserves_bind; [apply preserves_uuid4|]. intros u.
  destruct (contains _ _); [|apply preserves_ret].
  destruct (rsplit1 _ _) as [|a [|b [|c l]]]; try apply preserves_raise. apply preserves_ret.
Qed.

(** The handlers that only talk to the database. *)
Hypothesis R_insert_row : forall p, preserves R (insert_row p).
Hypothesis R_rolled_back : forall ps, preserves R (insert_rows_rolled_back ps).

Lemma preserves_insert_rows ps : preserves R (insert_rows ps).
Proof.
  induction ps as [|p ps IH]; simpl; [apply preserves_ret|].
  apply preserves_bind; [apply R_insert_row|]. intros row.
  apply preserves_bind; [exact IH|]. intros rows. apply preserves_ret.
Qed.

Lemma preserves_session_commit : preserves R session_commit.
Proof.
  unfold session_commit.
  apply preserves_bind; [apply preserves_gets|]. intros pending.
  apply preserves_bind; [apply preserves_gets|]. intros active.
  assert (H : preserves R
                (lost <- connection_is_lost ;;
                 if lost then insert_rows_rolled_back pending ;; db_round_trip ;; ret []
                 else
                   db_round_trip ;; rows <- insert_rows pending ;;
                   modify (set_session_new []) ;; modify (set_in_transaction false) ;;
                   ret rows)).
  { apply preserves_bind; [intros env st; apply R_refl|]. intros [|].
    - apply preserves_bind; [apply R_rolled_back|]. intros _.
      apply preserves_bind; [apply preserves_db_round_trip|]. intros _. apply preserves_ret.
    - apply preserves_bind; [apply preserves_db_round_trip|]. intros _.
      apply preserves_bind; [apply preserves_insert_rows|]. intros rows.
      apply preserves_bind;
        [apply preserves_modify; intros st; apply R_counters; reflexivity|].
      intros _.
      apply preserves_bind;
        [apply preserves_modify; intros st; apply R_counters; reflexivity|].
      intros _. apply preserves_ret. }
  destruct pending; [destruct active|]; [exact H|apply preserves_ret|exact H].
Qed.

Lemma preserves_session_add obj : preserves R (session_add obj).
Proof. apply preserves_modify. intros st. apply R_counters; reflexivity. Qed.

Lemma preserves_session_rollback : preserves R session_rollback.
Proof. apply preserves_modify. apply preserves_rollback. Qed.

Lemma preserves_session_scope {A} (handler : M A) :
  preserves R handler -> preserves R (session_scope handler).
Proof.
  intros H. unfold session_scope.
  apply preserves_finally; [|apply preserves_rollback].
  apply preserves_try_except.
  - apply preserves_bind; [exact H|]. intros r.
    apply preserves_bind; [apply preserves_session_commit|]. intros _. apply preserves_ret.
  - intros e. apply preserves_bind; [apply preserves_session_rollback|].
    intros _. apply preserves_raise.
Qed.

Lemma preserves_get_db {A} (handler : M A) :
  preserves R handler -> preserves R (get_db handler).
Proof.
  intros H. unfold get_db, get_session_factory, new_session.
  apply preserves_bind; [apply preserves_get_engine|]. intros _.
  apply preserves_bind; [apply preserves_session_rollback|]. intros _.
  apply preserves_session_scope. exact H.
Qed.

Lemma preserves_get_items skip limit status : preserves R (get_items skip limit status).
Proof.
  unfold get_items, query_all.
  apply preserves_try_except; [apply preserves_execute|]. intros e. apply preserves_raise.
Qed.

Lemma preserves_create_item task : preserves R (create_item task).
Proof.
  unfold create_item. apply preserves_try_except.
  - destruct (negb _); [apply preserves_raise|].
    apply preserves_bind; [apply preserves_session_add|]. intros _.
    apply preserves_bind; [apply preserves_session_commit|]. intros rows.
    destruct (rev rows); [apply preserves_raise|apply preserves_session_refresh].
  - intros e.
    destruct e; try apply preserves_raise;
      (apply preserves_bind; [apply preserves_session_rollback|]; intros _; apply preserves_raise).
Qed.

Lemma preserves_get_item item_id : preserves R (get_item item_id).
Proof.
  unfold get_item, query_first.
  apply preserves_bind.
  - apply preserves_bind; [apply preserves_execute|]. intros rows. apply preserves_ret.
  - intros [t|]; [apply preserves_ret|apply preserves_raise].
Qed.

Lemma preserves_health_check : preserves R health_check.
Proof.
  unfold health_check, test_db_connection, probe.
  apply preserves_bind.
  - apply preserves_try_except.
    + apply preserves_bind.
      * apply preserves_bind; [apply preserves_get_engine|].
        intros _. apply preserves_connect_and_select_1.
      * intros _. apply preserves_bind; [apply preserves_asks|]. intros l. apply preserves_ret.
    + intros e. apply preserves_ret.
  - intros db_status. apply preserves_bind; [apply preserves_utcnow|].
    intros now. apply preserves_ret.
Qed.
End Frame.

(** *** The two relations *)

Lemma extends_refl st : extends st st.
Proof. exists []. rewrite app_nil_r. split; [reflexivity|constructor]. Qed.

Lemma extends_trans a b c : extends a b -> extends b c -> extends a c.
Proof.
  intros (x & Hx & Fx) (y & Hy & Fy). exists (x ++ y)%list. split.
  - rewrite Hy, Hx, app_assoc. reflexivity.
  - apply Forall_app; split; assumption.
Qed.

Lemma extends_same_tasks st st' : tasks st' = tasks st -> extends st st'.
Proof.
  intros H. exists []. rewrite app_nil_r. split; [exact H|constructor].
Qed.

Lemma extends_counters st st' :
  tasks st' = tasks st -> next_id st' = next_id st -> s3_calls st' = s3_calls st ->
  extends st st'.
Proof. intros H _ _. apply extends_same_tasks, H. Qed.

Lemma extends_insert_row p : preserves extends (insert_row p).
Proof.
  intros env st. cbn. eexists. split; [reflexivity|].
  constructor; [reflexivity|constructor].
Qed.

(** What the INSERTs of a lost transaction leave: the table as it was, a
    sequence that did not go back, the other parts of the state untouched. *)
Lemma insert_rows_rolled_back_spec ps env st :
  let st' := snd (insert_rows_rolled_back ps env st) in
  tasks st' = tasks st
  /\ (next_id st' = next_id st + Z.of_nat (List.length ps))%Z
  /\ s3_calls st' = s3_calls st
  /\ objects st' = objects st
  /\ session_new st' = session_new st
  /\ db_calls st' = db_calls st.
Proof.
  cbv zeta. rewrite insert_rows_rolled_back_run.
  destruct (insert_rows_spec ps env st) as (rows & st1 & E & _).
  destruct (insert_rows_frame ps env st rows st1 E) as (H1 & H2 & H3 & H4 & _ & _ & H7).
  rewrite E. cbn. repeat split; assumption.
Qed.

Lemma extends_rolled_back ps : preserves extends (insert_rows_rolled_back ps).
Proof.
  intros env st. apply extends_same_tasks. apply insert_rows_rolled_back_spec.
Qed.

Lemma records_refl good st : records good st st.
Proof. exists []. rewrite app_nil_r. split; [reflexivity|constructor]. Qed.

Lemma records_trans good a b c : records good a b -> records good b c -> records good a c.
Proof.
  intros (x & Hx & Fx) (y & Hy & Fy). exists (x ++ y)%list. split.
  - rewrite Hy, Hx, app_assoc. reflexivity.
  - apply Forall_app; split; assumption.
Qed.

Lemma records_counters good st st' :
  tasks st' = tasks st -> next_id st' = next_id st -> s3_calls st' = s3_calls st ->
  records good st st'.
Proof.
  intros _ _ H. exists []. rewrite app_nil_r. split; [exact H|constructor].
Qed.

Lemma records_insert_row good p : preserves (records good) (insert_row p).
Proof.
  intros env st. cbn. exists []. rewrite app_nil_r. split; [reflexivity|constructor].
Qed.

Lemma records_rolled_back good ps : preserves (records good) (insert_rows_rolled_back ps).
Proof.
  intros env st. exists []. rewrite app_nil_r. split; [|constructor].
  apply insert_rows_rolled_back_spec.
Qed.


Lemma get_items_returns skip limit status :
  returns (Forall (fun row => Task.is_active row = true)) (get_items skip limit status).
Proof.
  intros env st rows st' H. unfold get_items, query_all, try_except in H.
  destruct (execute _ env st) as [[rows'|e] st1] eqn:E; [|discriminate].
  inversion H; subst. apply execute_returns in E.
  eapply Forall_impl; [|exact E]. intros row. apply items_query_matches.
Qed.

Lemma get_item_returns item_id :
  returns (fun row => Task.is_active row = true) (get_item item_id).
Proof.
  intros env st row st' H. unfold get_item, query_first, bind in H.
  destruct (execute _ env st) as [[rows|e] st1] eqn:E; [|discriminate].
  apply execute_returns in E. cbn in H.
  destruct rows as [|r rows]; [discriminate|]. cbn in H. inversion H; subst.
  inversion E as [|? ? Hr _]; subst. cbn in Hr.
  rewrite andb_true_r in Hr. apply andb_true_iff in Hr. apply Hr.
Qed.

(** *** The id sequence *)

Lemma keeps_ahead_refl st : keeps_ahead st st.
Proof. intros H. exact H. Qed.

Lemma keeps_ahead_trans a b c : keeps_ahead a b -> keeps_ahead b c -> keeps_ahead a c.
Proof. intros Hab Hbc H. apply Hbc, Hab, H. Qed.

Lemma keeps_ahead_counters st st' :
  tasks st' = tasks st -> next_id st' = next_id st -> s3_calls st' = s3_calls st ->
  keeps_ahead st st'.
Proof.
  intros Ht Hn _ [Hpos Hall]. unfold sequence_ahead. rewrite Ht, Hn. split; assumption.
Qed.

Lemma keeps_ahead_insert_row p : preserves keeps_ahead (insert_row p).
Proof.
  intros env st [Hpos Hall].
  assert (Hn : next_id (snd (insert_row p env st)) = (next_id st + 1)%Z) by reflexivity.
  assert (Ht : exists row, Task.id row = next_id st
                 /\ tasks (snd (insert_row p env st)) = (tasks st ++ [row])%list).
  { eexists. split; [|reflexivity]. reflexivity. }
  destruct Ht as (row & Hid & Ht).
  unfold sequence_ahead. rewrite Hn, Ht. split; [lia|].
  apply Forall_app. split.
  - eapply Forall_impl; [|exact Hall]. cbn beta. intros old Hold. lia.
  - constructor; [lia|constructor].
Qed.

Lemma keeps_ahead_rolled_back ps : preserves keeps_ahead (insert_rows_rolled_back ps).
Proof.
  intros env st [Hpos Hall].
  destruct (insert_rows_rolled_back_spec ps env st) as (Ht & Hn & _).
  unfold sequence_ahead. rewrite Ht, Hn. split; [lia|].
  eapply Forall_impl; [|exact Hall]. cbn beta. intros row Hrow. lia.
Qed.

(** *** The object-store side *)

Lemma extends_s3_request c : preserves extends (s3_request c).
Proof.
  intros env st. unfold s3_request.
  destruct (s3_fault env _); apply extends_same_tasks; reflexivity.
Qed.

Lemma keeps_ahead_s3_request c : preserves keeps_ahead (s3_request c).
Proof.
  intros env st H. unfold s3_request.
  destruct (s3_fault env _); exact H.
Qed.

Lemma records_s3_request (good : S3.call -> Prop) c :
  good c -> preserves (records good) (s3_request c).
Proof.
  intros Hc env st. unfold s3_request.
  destruct (s3_fault env _); cbn; exists [c];
    (split; [reflexivity|constructor; [exact Hc|constructor]]).
Qed.

(** The side conditions of the section lemmas, for the three relations. *)
Ltac frame_side :=
  solve [ assumption
        | apply extends_refl | apply extends_trans | apply extends_counters
        | apply extends_insert_row | apply extends_s3_request
        | apply extends_rolled_back
        | apply keeps_ahead_refl | apply keeps_ahead_trans | apply keeps_ahead_counters
        | apply keeps_ahead_insert_row | apply keeps_ahead_s3_request
        | apply keeps_ahead_rolled_back
        | apply records_refl | apply records_trans
        | apply records_counters | apply records_insert_row
        | apply records_rolled_back ].

(** Walks down a handler along its binds, handlers and case analyses. *)
Ltac frame :=
  repeat first
    [ frame_side
    | match goal with |- forall _, _ => intro end
    | apply preserves_ret | apply preserves_raise | apply preserves_asks
    | apply preserves_gets | apply preserves_utcnow | apply preserves_uuid4
    | apply preserves_db_round_trip | apply preserves_execute
    | apply preserves_aws_region | apply preserves_get_s3_client
    | apply preserves_get_s3_bucket | apply preserves_generate_unique_filename
    | apply preserves_get_db | apply preserves_get_items | apply preserves_create_item
    | apply preserves_get_item | apply preserves_health_check
    | match goal with
      | |- preserves _ (match ?x with _ => _ end) => destruct x
      | |- preserves _ (bind _ _) => apply preserves_bind
      | |- preserves _ (try_except _ _) => apply preserves_try_except
      end ].

Section StoreFrame.
Variable R : State -> State -> Prop.
Hypothesis R_refl : forall st, R st st.
Hypothesis R_trans : forall a b c, R a b -> R b c -> R a c.
Hypothesis R_counters :
  forall st st',
    tasks st' = tasks st -> next_id st' = next_id st -> s3_calls st' = s3_calls st ->
    R st st'.
Hypothesis R_insert_row : forall p, preserves R (insert_row p).
Hypothesis R_rolled_back : forall ps, preserves R (insert_rows_rolled_back ps).
Hypothesis R_s3_request : forall c, preserves R (s3_request c).

(** A call that raises before it is sent leaves what a call the store fails
    leaves: the record of the call. *)
Lemma preserves_upload_fileobj_with_keywords c :
  preserves R (upload_fileobj_with_keywords c).
Proof.
  intros env st.
  exact (R_s3_request c
           (mkEnv (S3_BUCKET env) (AWS_REGION env) (DEBUG env) (utcnow_at env)
              (uuid4_at env) (db_fault env) (fun _ => Some S3NoCredentials)
              (latency_ms env) (bind_casts env)) st).
Qed.

Lemma preserves_upload_file_to_s3 content name ctype prefix :
  preserves R (upload_file_to_s3 content name ctype prefix).
Proof. unfold upload_file_to_s3. frame. apply preserves_upload_fileobj_with_keywords. Qed.

Lemma preserves_upload_file file : preserves R (upload_file file).
Proof. unfold upload_file. frame; apply preserves_upload_file_to_s3. Qed.

Lemma preserves_create_backup data table_name :
  preserves R (create_backup data table_name).
Proof. unfold create_backup. frame. apply R_s3_request. Qed.

Lemma preserves_trigger_backup : preserves R trigger_backup.
Proof. unfold trigger_backup, query_all. frame; apply preserves_create_backup. Qed.

Lemma preserves_endpoint req : preserves R (endpoint req).
Proof.
  destruct req; unfold endpoint; frame;
    first [apply preserves_upload_file | apply preserves_trigger_backup].
Qed.
End StoreFrame.

Lemma extends_endpoint req : preserves extends (endpoint req).
Proof.
  exact (preserves_endpoint extends extends_refl extends_trans extends_counters
           extends_insert_row extends_rolled_back extends_s3_request req).
Qed.

Lemma keeps_ahead_endpoint req : preserves keeps_ahead (endpoint req).
Proof.
  exact (preserves_endpoint keeps_ahead keeps_ahead_refl keeps_ahead_trans
           keeps_ahead_counters keeps_ahead_insert_row keeps_ahead_rolled_back
           keeps_ahead_s3_request req).
Qed.

Lemma reachable_sequence_ahead st : reachable st -> sequence_ahead st.
Proof.
  induction 1 as [|st req env _ IH].
  - split; [reflexivity|constructor].
  - rewrite app_state. apply keeps_ahead_endpoint. exact IH.
Qed.

Lemma to_dict_is_active row :
  dict_get "is_active" (to_dict row) = Some (PBool (Task.is_active row)).
Proof. reflexivity. Qed.

Lemma records_create_backup rows :
  Forall (fun row => Task.is_active row = true) rows ->
  preserves (records snapshot_of_active_rows) (create_backup (map to_dict rows) "tasks").
Proof.
  intros Hrows. unfold create_backup. frame.
  apply records_s3_request. unfold snapshot_of_active_rows, backup_content.
  eexists _, rows. split; [exact Hrows|]. split.
  - apply Forall_map. eapply Forall_impl; [|exact Hrows].
    intros row Hr. rewrite to_dict_is_active, Hr. reflexivity.
  - cbn [S3.Body]. rewrite length_map. reflexivity.
Qed.

Lemma records_trigger_backup : preserves (records snapshot_of_active_rows) trigger_backup.
Proof.
  unfold trigger_backup, query_all.
  apply preserves_try_except; [apply records_trans| |frame].
  apply (preserves_bind_returns _ (records_trans _)
           (Forall (fun row => matches (query_filter Task.is_active query_Task) row = true))).
  - frame.
  - apply execute_returns.
  - intros rows Hrows. frame. apply records_create_backup.
    eapply Forall_impl; [|exact Hrows]. intros row. apply active_query_matches.
Qed.

Lemma records_backup_endpoint :
  preserves (records snapshot_of_active_rows) (endpoint POST_backup).
Proof. unfold endpoint. frame. apply records_trigger_backup. Qed.

(** *** What a run returns *)

Lemma returns_ret {A} (P : A -> Prop) a : P a -> returns P (ret a).
Proof. intros H env st a' st' E. inversion E; subst. exact H. Qed.

Lemma returns_raise {A} (P : A -> Prop) e : returns P (raise e).
Proof. intros env st a st' E. discriminate. Qed.

Lemma returns_bind {A B} (P : A -> Prop) (Q : B -> Prop) (m : M A) (k : A -> M B) :
  returns P m -> (forall a, P a -> returns Q (k a)) -> returns Q (bind m k).
Proof.
  intros Hm Hk env st b st' E. unfold bind in E.
  destruct (m env st) as [[a|e] st1] eqn:Em; [|discriminate].
  eapply Hk; [eapply Hm; exact Em|exact E].
Qed.

Lemma returns_any {A} (m : M A) : returns (fun _ => True) m.
Proof. intros env st a st' _. exact I. Qed.

Lemma returns_session_scope {A} (P : A -> Prop) (handler : M A) :
  returns P handler -> returns P (session_scope handler).
Proof.
  intros H env st a st' E. unfold session_scope, finally, try_except, bind in E.
  destruct (handler env st) as [[r|e] st1] eqn:Eh.
  - destruct (session_commit env st1) as [[rows|e] st2]; cbn in E.
    + inversion E; subst. eapply H. exact Eh.
    + discriminate.
  - cbn in E. discriminate.
Qed.

Lemma returns_get_db {A} (P : A -> Prop) (handler : M A) :
  returns P handler -> returns P (get_db handler).
Proof.
  intros H. unfold get_db.
  apply (returns_bind (fun _ => True)); [apply returns_any|]. intros _ _.
  apply (returns_bind (fun _ => True)); [apply returns_any|]. intros _ _.
  apply returns_session_scope, H.
Qed.

Lemma exception_response_content env e :
  (forall rows, content (exception_response env e) <> JTasks rows)
  /\ (forall row, content (exception_response env e) <> JTask row).
Proof. destruct e; split; intros x; discriminate. Qed.

Lemma endpoint_returns req : returns (reads_active req) (endpoint req).
Proof.
  destruct req; unfold endpoint.
  - eapply returns_bind; [apply returns_any|]. intros r _. apply returns_ret.
    split; [intros; discriminate|intros; discriminate].
  - apply returns_get_db.
    destruct (validate_skip skip), (validate_limit limit); try apply returns_raise.
    eapply returns_bind; [apply get_items_returns|]. intros rows Hrows.
    apply returns_ret. split; [|intros; discriminate].
    intros rows' E. inversion E; subst. exact Hrows.
  - apply returns_get_db. destruct (validate_TaskCreate body); [|apply returns_raise].
    eapply returns_bind; [apply returns_any|]. intros r _. apply returns_ret.
    split; intros; discriminate.
  - apply returns_get_db.
    eapply returns_bind; [apply get_item_returns|]. intros row Hrow.
    apply returns_ret. split; [intros; discriminate|].
    intros i row' _ E. inversion E; subst. exact Hrow.
  - destruct file; [|apply returns_raise].
    eapply returns_bind; [apply returns_any|]. intros r _. apply returns_ret.
    split; intros; discriminate.
  - apply returns_get_db.
    eapply returns_bind; [apply returns_any|]. intros r _. apply returns_ret.
    split; intros; discriminate.
Qed.


(* ===================================================================== *)
(** ** The claims *)
(* ===================================================================== *)

(** *** C1: what a successful create returns *)

(** C1, as amended.  When [create_item] returns a row, started from a state
    whose id sequence is ahead of the stored ids (as in every state reached
    from the initial one, by [reachable_sequence_ahead]), the row has a
    positive id that no row stored before carries, it is active, it is stored, and its
    [created_at] and [updated_at] are two successive readings of the clock
    (each column default calls [datetime.utcnow] on its own), so they are
    equal exactly when the clock did not advance between the two. *)
Theorem create_item_returns_fresh_active_task
    (env : Env) (st : State) (task : TaskCreate.t) (row : Task.t) (st' : State) :
  sequence_ahead st ->
  create_item task env st = (Ok row, st') ->
  (0 < Task.id row)%Z
  /\ Task.is_active row = true
  /\ (exists n, Task.created_at row = utcnow_at env n
                /\ Task.updated_at row = Some (utcnow_at env (S n)))
  /\ Forall (fun old => Task.id old <> Task.id row) (tasks st)
  /\ In row (tasks st').
Proof.
  intros [Hpos Hahead] H. unfold create_item, try_except in H.
  destruct (negb _) eqn:Hv; [discriminate|].
  unfold bind at 1 in H. unfold session_add at 1 in H. cbn [modify] in H.
  set (st0 := set_session_new _ st) in H.
  unfold bind at 1 in H.
  destruct (session_commit env st0) as [[rows|e] st1] eqn:Ec.
  2:{ destruct e; unfold bind, raise, session_rollback, modify in H; discriminate H. }
  apply session_commit_pending in Ec.
  2:{ subst st0. cbn. destruct (session_new st); discriminate. }
  destruct Ec as (Ht & Hf & Hl).
  destruct (rev rows) as [|db_task others] eqn:Er.
  { unfold bind, raise, session_rollback, modify in H. discriminate H. }
  assert (Hin : In db_task rows).
  { apply in_rev. rewrite Er. left. reflexivity. }
  unfold session_refresh, bind, modify, gets, db_round_trip in H. cbn in H.
  destruct (db_fault env (db_calls st1)) as [[?|?|?]|]; cbn in H; try discriminate H.
  destruct (find _ (tasks st1)) as [found|] eqn:Ef; cbn in H; [|discriminate H].
  inversion H; subst found st'. clear H.
  apply find_some in Ef. destruct Ef as [Hrow Hid]. apply Z.eqb_eq in Hid.
  rewrite Forall_forall in Hf. destruct (Hf _ Hin) as (Hge & _ & _).
  subst st0. cbn in Hge, Ht.
  assert (Hnew : In row rows).
  { rewrite Ht in Hrow. apply in_app_or in Hrow.
    destruct Hrow as [Hold|Hnew]; [|exact Hnew].
    rewrite Forall_forall in Hahead. specialize (Hahead _ Hold). lia. }
  destruct (Hf _ Hnew) as (Hge' & Hact & Hclock). cbn in Hge'.
  split; [lia|]. split; [exact Hact|]. split; [exact Hclock|]. split.
  - eapply Forall_impl; [|exact Hahead]. cbn. intros old Hold. lia.
  - cbn. exact Hrow.
Qed.

(** The first create over an empty table, under a clock that stands still. *)
Lemma create_item_first_row :
  (0 < Task.id sample_row)%Z
  /\ Task.is_active sample_row = true
  /\ (exists n, Task.created_at sample_row = utcnow_at steady_env n
                /\ Task.updated_at sample_row = Some (utcnow_at steady_env (S n)))
  /\ Forall (fun old => Task.id old <> Task.id sample_row) (tasks warm_state)
  /\ In sample_row
       (tasks (snd (create_item (TaskCreate.mk "write report" None "pending")
                      steady_env warm_state))).
Proof.
  apply (create_item_returns_fresh_active_task steady_env warm_state
           (TaskCreate.mk "write report" None "pending") sample_row
           (snd (create_item (TaskCreate.mk "write report" None "pending")
                   steady_env warm_state))).
  - split; [reflexivity|constructor].
  - vm_compute. reflexivity.
Defined.

(** Under a clock that advances between two readings, the row a create
    returns has an [updated_at] later than its [created_at]. *)
Lemma created_at_differs_from_updated_at :
  exists row st',
    sequence_ahead warm_state
    /\ create_item (TaskCreate.mk "write report" None "pending") ticking_env warm_state
       = (Ok row, st')
    /\ Task.created_at row = mk_datetime 2026 1 15 12 0 0 0
    /\ Task.updated_at row = Some (mk_datetime 2026 1 15 12 0 0 1)
    /\ Task.updated_at row <> Some (Task.created_at row).
Proof.
  eexists _, _. split; [split; [reflexivity|constructor]|].
  split; [vm_compute; reflexivity|]. split; [reflexivity|]. split; [reflexivity|].
  cbn. discriminate.
Qed.

(** *** C2: what a list request returns *)

(** C2, as amended.  For [skip] from 0 to the largest INTEGER, [limit] in
    1..1000 and a status that is absent or not the empty string, a list
    request whose round trip succeeds returns exactly the active rows (of
    exactly that status, when one is given), the offset and the limit
    applied after the filter; no stored row changes, and with no matching
    row the answer is the empty list. *)
Theorem get_items_lists_active_rows_of_status
    (env : Env) (st : State) (skip limit : Z) (status : option string) :
  (0 <= skip <= max_integer)%Z -> (1 <= limit <= 1000)%Z ->
  status <> Some "" ->
  db_fault env (db_calls st) = None ->
  exists st',
    get_items skip limit status env st
      = (Ok (page skip limit (filter (listed status) (tasks st))), st')
    /\ tasks st' = tasks st
    /\ (filter (listed status) (tasks st) = [] ->
        get_items skip limit status env st = (Ok [], st')).
Proof.
  intros Hskip Hlimit Hs Hdb.
  assert (E : get_items skip limit status env st
              = (Ok (select (items_query skip limit status) (tasks st)),
                 set_db_calls (S (db_calls st)) (set_in_transaction true st))).
  { unfold get_items, query_all, try_except.
    rewrite execute_ok; [reflexivity|exact Hdb|].
    apply (refusal_none _ _ _ skip limit);
      [| reflexivity | reflexivity | exact Hskip | unfold max_integer; lia].
    unfold items_query. destruct status as [s|]; [destruct (truthy s)|]; reflexivity. }
  rewrite items_query_select in E by exact Hs.
  eexists. split; [exact E|]. split; [reflexivity|].
  intros Hnone. rewrite E, Hnone. unfold page. rewrite skipn_nil, firstn_nil. reflexivity.
Qed.

(** Listing the pending rows of a table that holds one. *)
Lemma get_items_pending_rows :
  exists st',
    get_items 0 100 (Some "pending") steady_env one_row_state
      = (Ok (page 0 100 (filter (listed (Some "pending")) (tasks one_row_state))), st')
    /\ tasks st' = tasks one_row_state
    /\ (filter (listed (Some "pending")) (tasks one_row_state) = [] ->
        get_items 0 100 (Some "pending") steady_env one_row_state = (Ok [], st')).
Proof.
  apply (get_items_lists_active_rows_of_status steady_env one_row_state 0 100
           (Some "pending")).
  - unfold max_integer. lia.
  - lia.
  - discriminate.
  - reflexivity.
Defined.

(** With the empty string as status the pending row is listed, although its
    status is not the empty string. *)
Lemma empty_status_lists_rows_of_other_status :
  exists st',
    get_items 0 100 (Some "") steady_env one_row_state = (Ok [sample_row], st')
    /\ page 0 100 (filter (listed (Some "")) (tasks one_row_state)) = [].
Proof. eexists. split; [vm_compute; reflexivity|reflexivity]. Qed.

(** *** C3: requests that violate the schema *)

(** C3, as amended.  Once the engine exists, a request with a title of
    length outside 1..255, a negative [skip] or a [limit] outside 1..1000 is
    answered with status 422, the status of a [RequestValidationError],
    without the handler being called: no database round trip and no
    object-store call is made and nothing stored changes.  (FastAPI enters
    [get_db] before it validates, and a first [get_db] creates the engine.) *)
Theorem schema_violation_is_rejected_before_the_handler
    (env : Env) (st : State) (req : Request) :
  violates_schema req ->
  engine st = true ->
  let resp := fst (app req env st) in
  let st' := snd (app req env st) in
  resp = mkResponse HTTP_422_UNPROCESSABLE_ENTITY JValidationErrors
  /\ tasks st' = tasks st
  /\ next_id st' = next_id st
  /\ db_calls st' = db_calls st
  /\ s3_calls st' = s3_calls st
  /\ objects st' = objects st.
Proof.
  intros Hv Hwarm. cbv zeta.
  assert (E : app req env st
              = (mkResponse HTTP_422_UNPROCESSABLE_ENTITY JValidationErrors,
                 rollback_state (rollback_state (rollback_state st)))).
  { unfold app, endpoint.
    destruct Hv as [skip limit status H|skip limit status H|items title Ht H].
    - rewrite get_db_warm by exact Hwarm.
      assert (Hs : validate_skip (Some skip) = None).
      { unfold validate_skip. destruct (Z.leb_spec 0 skip); [lia|reflexivity]. }
      rewrite Hs, session_scope_raise. reflexivity.
    - rewrite get_db_warm by exact Hwarm.
      assert (Hl : validate_limit (Some limit) = None).
      { unfold validate_limit.
        destruct (Z.leb_spec 1 limit), (Z.leb_spec limit 1000); cbn; try reflexivity; lia. }
      rewrite Hl. destruct (validate_skip skip); rewrite session_scope_raise; reflexivity.
    - rewrite get_db_warm by exact Hwarm.
      assert (Hb : validate_TaskCreate (PDict items) = None).
      { unfold validate_TaskCreate, validate_title. rewrite Ht.
        destruct (Nat.leb_spec 1 (String.length title)),
                 (Nat.leb_spec (String.length title) 255); cbn; try reflexivity; lia. }
      rewrite Hb, session_scope_raise. reflexivity. }
  rewrite E. cbn. repeat split.
Qed.

(** A list request with [skip = -1]. *)
Lemma negative_skip_is_rejected :
  let resp := fst (app (GET_items (Some (-1)%Z) None None) steady_env one_row_state) in
  let st' := snd (app (GET_items (Some (-1)%Z) None None) steady_env one_row_state) in
  resp = mkResponse HTTP_422_UNPROCESSABLE_ENTITY JValidationErrors
  /\ tasks st' = tasks one_row_state
  /\ next_id st' = next_id one_row_state
  /\ db_calls st' = db_calls one_row_state
  /\ s3_calls st' = s3_calls one_row_state
  /\ objects st' = objects one_row_state.
Proof.
  apply (schema_violation_is_rejected_before_the_handler steady_env one_row_state
           (GET_items (Some (-1)%Z) None None)).
  - apply negative_skip. lia.
  - reflexivity.
Defined.

(** The same request as the first one of a process: the answer is the
    same, after the two round trips in which [get_db] creates the engine. *)
Example first_request_creates_the_engine :
  fst (app (GET_items (Some (-1)%Z) None None) steady_env initial_state)
    = mkResponse HTTP_422_UNPROCESSABLE_ENTITY JValidationErrors
  /\ db_calls (snd (app (GET_items (Some (-1)%Z) None None) steady_env initial_state)) = 2
  /\ engine (snd (app (GET_items (Some (-1)%Z) None None) steady_env initial_state)) = true.
Proof. repeat split. Qed.

(** The status of that answer is 422, not 400. *)
Lemma schema_violation_is_not_answered_400 :
  violates_schema (GET_items (Some (-1)%Z) None None)
  /\ status_code (fst (app (GET_items (Some (-1)%Z) None None) steady_env one_row_state))
     = 422%Z
  /\ status_code (fst (app (GET_items (Some (-1)%Z) None None) steady_env one_row_state))
     <> 400%Z.
Proof.
  split; [apply negative_skip; lia|]. split; [reflexivity|]. cbn. discriminate.
Qed.

(** *** C4: a status outside the allowed set *)

(** C4.  A create whose status is not one of pending, in_progress and
    completed raises [HTTPException] 400, which is answered with status 400;
    the handler changes nothing, and after the session scope of [get_db] the
    table and the id sequence are as before, nothing is pending and no
    round trip to the database was made. *)
Theorem create_item_rejects_unknown_status
    (env : Env) (st : State) (task : TaskCreate.t) :
  ~ In (TaskCreate.status task) ["pending"; "in_progress"; "completed"] ->
  exists detail,
    create_item task env st = (Raise (HTTPException 400 detail), st)
    /\ status_code (exception_response env (HTTPException 400 detail)) = 400%Z
    /\ exists st',
         session_scope (create_item task) env st = (Raise (HTTPException 400 detail), st')
         /\ tasks st' = tasks st
         /\ next_id st' = next_id st
         /\ session_new st' = []
         /\ db_calls st' = db_calls st.
Proof.
  intros H. apply not_in_valid_statuses in H.
  eexists.
  assert (E : create_item task env st
              = (Raise (HTTPException 400
                   ("Invalid status. Must be one of: " ++ join ", " valid_statuses)), st)).
  { unfold create_item, try_except. rewrite H. reflexivity. }
  split; [exact E|]. split; [reflexivity|].
  eexists. split.
  - unfold session_scope, finally, try_except, bind. rewrite E. reflexivity.
  - cbn. repeat split.
Qed.

(** A create with status archived. *)
Lemma create_item_rejects_archived :
  exists detail,
    create_item (TaskCreate.mk "write report" None "archived") steady_env one_row_state
      = (Raise (HTTPException 400 detail), one_row_state)
    /\ status_code (exception_response steady_env (HTTPException 400 detail)) = 400%Z
    /\ exists st',
         session_scope (create_item (TaskCreate.mk "write report" None "archived"))
           steady_env one_row_state
           = (Raise (HTTPException 400 detail), st')
         /\ tasks st' = tasks one_row_state
         /\ next_id st' = next_id one_row_state
         /\ session_new st' = []
         /\ db_calls st' = db_calls one_row_state.
Proof.
  apply (create_item_rejects_unknown_status steady_env one_row_state
           (TaskCreate.mk "write report" None "archived")).
  cbn. intros [H|[H|[H|[]]]]; discriminate H.
Defined.

(** *** C5: the checks of an upload *)

(** C5, as amended.  For an upload whose file has a non-empty name: a
    content of more than 10 MiB is answered with status 413 and the state is
    left as it was, so no object-store call is made; and for a content of at
    most 10 MiB with no bucket configured, the [ValueError] of
    [get_s3_bucket] is answered with status 500, again with no call made. *)
Theorem upload_file_size_and_bucket_checks
    (env : Env) (st : State) (file : UploadFile.t) (filename : string) :
  UploadFile.filename file = Some filename ->
  filename <> "" ->
  let size := Z.of_nat (String.length (UploadFile.content file)) in
  ((max_size < size)%Z ->
     app (POST_upload (Some file)) env st
     = (mkResponse 413 (JDetail "File too large. Maximum size is 10MB"), st))
  /\ ((size <= max_size)%Z -> S3_BUCKET env = None ->
     app (POST_upload (Some file)) env st
     = (mkResponse 500 (JDetail "S3_BUCKET environment variable is not set"), st)).
Proof.
  intros Hname Hne. cbv zeta.
  assert (Ht : truthy filename = true) by (destruct filename; [congruence|reflexivity]).
  split.
  - intros Hbig. unfold app, endpoint, bind, upload_file. rewrite Hname, Ht.
    unfold try_except. apply Z.ltb_lt in Hbig. rewrite Hbig. reflexivity.
  - intros Hsmall Hbucket. unfold app, endpoint, bind, upload_file. rewrite Hname, Ht.
    unfold try_except. apply Z.ltb_ge in Hsmall. rewrite Hsmall.
    unfold upload_file_to_s3, get_s3_client, aws_region, get_s3_bucket, bind, asks, ret.
    rewrite Hbucket. reflexivity.
Qed.

(** A file of exactly 10 MiB + 1 byte, and a small file with no bucket
    configured. *)
Lemma upload_of_10MiB_plus_1_and_without_bucket :
  app (POST_upload (Some (UploadFile.mk (Some "disk.img") None
                            (bytes_of_length "x" (Z.to_nat (max_size + 1))))))
      steady_env warm_state
  = (mkResponse 413 (JDetail "File too large. Maximum size is 10MB"), warm_state)
  /\ app (POST_upload (Some (UploadFile.mk (Some "notes.txt") (Some "text/plain") "hello")))
       unconfigured_env warm_state
     = (mkResponse 500 (JDetail "S3_BUCKET environment variable is not set"), warm_state).
Proof.
  split.
  - apply (upload_file_size_and_bucket_checks steady_env warm_state
             (UploadFile.mk (Some "disk.img") None
                (bytes_of_length "x" (Z.to_nat (max_size + 1)))) "disk.img").
    + reflexivity.
    + discriminate.
    + cbn [UploadFile.content]. rewrite length_bytes_of_length.
      rewrite Z2Nat.id; unfold max_size; lia.
  - apply (upload_file_size_and_bucket_checks unconfigured_env warm_state
             (UploadFile.mk (Some "notes.txt") (Some "text/plain") "hello") "notes.txt").
    + reflexivity.
    + discriminate.
    + unfold max_size. cbn. lia.
    + reflexivity.
Defined.

(** An empty file without a name, with no bucket configured, is answered
    with status 400, not 500; so is one whose name is the empty string. *)
Lemma upload_without_filename_is_answered_400 :
  (Z.of_nat (String.length (UploadFile.content (UploadFile.mk None None ""))) <= max_size)%Z
  /\ S3_BUCKET unconfigured_env = None
  /\ app (POST_upload (Some (UploadFile.mk None None ""))) unconfigured_env warm_state
     = (mkResponse 400 (JDetail "No filename provided"), warm_state)
  /\ app (POST_upload (Some (UploadFile.mk (Some "") None ""))) unconfigured_env warm_state
     = (mkResponse 400 (JDetail "No filename provided"), warm_state).
Proof.
  split; [unfold max_size; cbn; lia|]. split; [reflexivity|]. split; reflexivity.
Qed.

(** *** C6: the key of an upload *)

Lemma generate_unique_filename_run env st original_filename :
  exists final,
    generate_unique_filename original_filename env st
    = (Ok (strftime_Ymd_HMS (utcnow_at env (utcnow_calls st)) ++ "_"
           ++ take 8 (str_uuid (uuid4_at env (uuid4_calls st))) ++ "_" ++ final),
       set_uuid4_calls (S (uuid4_calls st)) (set_utcnow_calls (S (utcnow_calls st)) st))
    /\ (contains "." original_filename = true ->
        exists name ext,
          rsplit1 "." original_filename = [name; ext]
          /\ original_filename = name ++ "." ++ ext
          /\ contains "." ext = false
          /\ final = name ++ "." ++ ext)
    /\ (contains "." original_filename = false -> final = original_filename).
Proof.
  unfold generate_unique_filename, bind, utcnow, uuid4. cbn [fst snd].
  destruct (contains "." original_filename) eqn:Hc.
  - destruct (rpartition_found _ _ Hc) as (name & ext & Hp).
    unfold rsplit1. rewrite Hp. exists (name ++ "." ++ ext). split; [reflexivity|].
    split; [|discriminate]. intros _. exists name, ext.
    destruct (rpartition_cut _ _ _ _ Hp) as [Heq Hext].
    repeat split; assumption.
  - exists original_filename. split; [reflexivity|]. split; [discriminate|reflexivity].
Qed.

(** C6.  For every original filename, [generate_unique_filename] returns
    timestamp, underscore, id, underscore and a final segment, where the
    timestamp is the clock reading in the form YYYYMMDD_HHMMSS, the id is
    the first 8 characters of the UUID drawn, and the final segment is
    name.ext with the filename cut at its last dot, or the whole filename
    when it has no dot; and with a bucket configured [upload_file_to_s3]
    issues one call, whose key is uploads/ followed by that name. *)
Theorem upload_key_form (env : Env) (st : State) (original_filename : string) :
  let timestamp := strftime_Ymd_HMS (utcnow_at env (utcnow_calls st)) in
  let unique_id := take 8 (str_uuid (uuid4_at env (uuid4_calls st))) in
  exists final st',
    generate_unique_filename original_filename env st
      = (Ok (timestamp ++ "_" ++ unique_id ++ "_" ++ final), st')
    /\ is_Ymd_HMS timestamp = true
    /\ String.length unique_id = 8
    /\ (contains "." original_filename = true ->
        exists name ext,
          rsplit1 "." original_filename = [name; ext]
          /\ original_filename = name ++ "." ++ ext
          /\ contains "." ext = false
          /\ final = name ++ "." ++ ext)
    /\ (contains "." original_filename = false -> final = original_filename)
    /\ (forall file_content content_type bucket,
          S3_BUCKET env = Some bucket -> bucket <> "" ->
          exists call,
            calls_since st
              (snd (upload_file_to_s3 file_content original_filename content_type
                      "uploads" env st)) = [call]
            /\ S3.Key call = "uploads/" ++ timestamp ++ "_" ++ unique_id ++ "_" ++ final
            /\ S3.Bucket call = bucket
            /\ S3.Body call = file_content).
Proof.
  cbv zeta.
  destruct (generate_unique_filename_run env st original_filename)
    as (final & E & Hdot & Hnodot).
  exists final. eexists. split; [exact E|].
  split; [apply strftime_shape|]. split; [apply unique_id_length|].
  split; [exact Hdot|]. split; [exact Hnodot|].
  intros file_content content_type bucket Hb Hne.
  exists (S3.mk S3.upload_fileobj bucket
            ("uploads" ++ "/" ++ strftime_Ymd_HMS (utcnow_at env (utcnow_calls st)) ++ "_"
               ++ take 8 (str_uuid (uuid4_at env (uuid4_calls st))) ++ "_" ++ final)
            file_content (if truthy_opt content_type then content_type else None)).
  split; [|split; [reflexivity|split; reflexivity]].
  apply calls_since_one.
  unfold upload_file_to_s3.
  rewrite (bind_ok _ _ _ _ _ _ (get_s3_client_run env st)).
  rewrite (bind_ok _ _ _ _ _ _ (get_s3_bucket_set env st bucket Hb Hne)).
  rewrite (bind_ok _ _ _ _ _ _ E).
  reflexivity.
Qed.

(** Two names at noon, with the UUID of value 0. *)
Example upload_key_samples :
  fst (generate_unique_filename "a.tar.gz" steady_env warm_state)
    = Ok "20260115_120000_00000000_a.tar.gz"
  /\ fst (generate_unique_filename "README" steady_env warm_state)
    = Ok "20260115_120000_00000000_README"
  /\ calls_since warm_state
       (snd (upload_file_to_s3 "hello" "a.tar.gz" None "uploads" steady_env warm_state))
     = [S3.mk S3.upload_fileobj "nexus-files"
          "uploads/20260115_120000_00000000_a.tar.gz" "hello" None].
Proof. repeat split. Qed.

(** *** C7: the backup document *)

(** C7.  With a bucket configured, [create_backup] issues one [put_object]
    call, under key backups/TABLE_backup_TIMESTAMP.json with the timestamp
    in the form YYYYMMDD_HHMMSS, with content type application/json, whose
    body is the JSON text of the dict of backup_timestamp, table_name,
    record_count and data, where record_count is the number of records and
    data is the list of records; when the store accepts the call, the
    backup succeeds and the object is stored.  With no record the document
    has record_count 0 and data the empty list. *)
Theorem create_backup_writes_json_snapshot
    (env : Env) (st : State) (data : list (list (string * value)))
    (table_name bucket : string) :
  S3_BUCKET env = Some bucket ->
  bucket <> "" ->
  let now := utcnow_at env (utcnow_calls st) in
  let now' := utcnow_at env (S (utcnow_calls st)) in
  let key := "backups/" ++ table_name ++ "_backup_" ++ strftime_Ymd_HMS now ++ ".json" in
  let document :=
    PDict [ ("backup_timestamp", PStr (isoformat now'));
            ("table_name", PStr table_name);
            ("record_count", PInt (Z.of_nat (List.length data)));
            ("data", PList (map PDict data)) ] in
  let call := S3.mk S3.put_object bucket key (json_dumps document) (Some "application/json") in
  is_Ymd_HMS (strftime_Ymd_HMS now) = true
  /\ calls_since st (snd (create_backup data table_name env st)) = [call]
  /\ (s3_fault env (List.length (s3_calls st)) = None ->
      exists result st',
        create_backup data table_name env st = (Ok result, st')
        /\ objects st' = (objects st ++ [call])%list
        /\ BackupResult.s3_key result = key
        /\ BackupResult.record_count result = Z.of_nat (List.length data))
  /\ (data = [] ->
      document = PDict [ ("backup_timestamp", PStr (isoformat now'));
                         ("table_name", PStr table_name);
                         ("record_count", PInt 0);
                         ("data", PList []) ]).
Proof.
  intros Hb Hne. cbv zeta.
  split; [apply strftime_shape|].
  unfold create_backup.
  rewrite (bind_ok _ _ _ _ _ _ (get_s3_client_run env st)).
  rewrite (bind_ok _ _ _ _ _ _ (get_s3_bucket_set env st bucket Hb Hne)).
  unfold try_except, bind, utcnow, s3_request, aws_region, asks, ret, backup_content.
  cbn [s3_calls objects set_utcnow_calls utcnow_calls fst snd].
  split; [|split].
  - apply calls_since_one.
    destruct (s3_fault env (List.length (s3_calls st))) as [[| |]|]; reflexivity.
  - intros Hok. rewrite Hok. eexists _, _. split; [reflexivity|].
    cbn. repeat split.
  - intros ->. reflexivity.
Qed.

(** The backup of an empty table, at noon. *)
Lemma backup_of_no_rows_succeeds :
  exists result st',
    create_backup [] "tasks" steady_env warm_state = (Ok result, st')
    /\ objects st'
       = [ S3.mk S3.put_object "nexus-files" "backups/tasks_backup_20260115_120000.json"
             (json_dumps
                (PDict [ ("backup_timestamp", PStr "2026-01-15T12:00:00");
                         ("table_name", PStr "tasks");
                         ("record_count", PInt 0);
                         ("data", PList []) ]))
             (Some "application/json") ]
    /\ BackupResult.s3_key result = "backups/tasks_backup_20260115_120000.json"
    /\ BackupResult.record_count result = 0%Z.
Proof.
  destruct (create_backup_writes_json_snapshot steady_env warm_state [] "tasks"
              "nexus-files" eq_refl ltac:(discriminate)) as (_ & _ & H & _).
  apply H. reflexivity.
Defined.

(** *** C8: the health report *)

Lemma create_db_engine_loop_text n : forall last env st e st',
  carries_text env ->
  (forall e0, last = Some e0 -> str_exn e0 <> "") ->
  create_db_engine_loop n last env st = (Raise e, st') ->
  str_exn e <> "".
Proof.
  induction n as [|n IH]; intros last env st e st' Htext Hlast H.
  - cbn in H. destruct last as [e0|].
    + inversion H; subst. apply Hlast. reflexivity.
    + inversion H; subst. discriminate.
  - cbn [create_db_engine_loop] in H.
    unfold try_except, connect_and_select_1, bind in H.
    rewrite db_round_trip_run in H.
    destruct (db_fault env (db_calls st)) as [f|] eqn:E1.
    + pose proof (Htext _ _ E1) as Hf.
      destruct f as [msg|msg|msg]; cbn [exn_of_db_fault] in H, Hf.
      * eapply IH; [exact Htext| |exact H]. intros e0 He0. inversion He0; subst. exact Hf.
      * inversion H; subst. exact Hf.
      * eapply IH; [exact Htext| |exact H]. intros e0 He0. inversion He0; subst. exact Hf.
    + rewrite db_round_trip_run in H. cbn [db_calls set_db_calls] in H.
      destruct (db_fault env (S (db_calls st))) as [f|] eqn:E2; [|discriminate H].
      pose proof (Htext _ _ E2) as Hf.
      destruct f as [msg|msg|msg]; cbn [exn_of_db_fault] in H, Hf.
      * eapply IH; [exact Htext| |exact H]. intros e0 He0. inversion He0; subst. exact Hf.
      * inversion H; subst. exact Hf.
      * eapply IH; [exact Htext| |exact H]. intros e0 He0. inversion He0; subst. exact Hf.
Qed.

(** What the probe raises is an exception of the database stack. *)
Lemma probe_text env st e st' :
  carries_text env -> probe env st = (Raise e, st') -> str_exn e <> "".
Proof.
  intros Htext H. unfold probe in H. unfold bind at 1 in H.
  destruct (get_engine env st) as [[[]|e0] s1] eqn:Eg.
  - unfold connect_and_select_1, bind in H. rewrite db_round_trip_run in H.
    destruct (db_fault env (db_calls s1)) as [f|] eqn:E1.
    + inversion H; subst. exact (Htext _ _ E1).
    + rewrite db_round_trip_run in H. cbn [db_calls set_db_calls] in H.
      destruct (db_fault env (S (db_calls s1))) as [f|] eqn:E2; [|discriminate H].
      inversion H; subst. exact (Htext _ _ E2).
  - inversion H; subst. unfold get_engine, bind, gets in Eg.
    destruct (engine st); [discriminate Eg|]. unfold create_db_engine in Eg.
    destruct (create_db_engine_loop 3 None env st) as [[[]|e1] s2] eqn:El;
      [discriminate Eg|].
    inversion Eg; subst.
    eapply create_db_engine_loop_text; [exact Htext| |exact El]. intros e0 He0. discriminate He0.
Qed.

(** C8.  A health request is always answered with status 200.  When the
    connectivity probe succeeds the top-level status is healthy; when it
    raises, the top-level status is degraded and the database object holds
    an error field with the text of the exception, which is not empty:
    the exception is one of the database stack, and those carry a text. *)
Theorem health_check_reports_probe_outcome (env : Env) (st : State) :
  carries_text env ->
  exists r st',
    app GET_health env st = (mkResponse 200 (JHealth r), st')
    /\ (forall st1, probe env st = (Ok tt, st1) ->
        HealthResponse.status r = "healthy"
        /\ HealthResponse.database r
           = [ ("status", PStr "healthy");
               ("database", PStr "connected");
               ("latency_ms", PFloat (latency_ms env)) ])
    /\ (forall e st1, probe env st = (Raise e, st1) ->
        HealthResponse.status r = "degraded"
        /\ HealthResponse.database r
           = [ ("status", PStr "unhealthy");
               ("database", PStr "disconnected");
               ("error", PStr (str_exn e)) ]
        /\ str_exn e <> "").
Proof.
  intros Htext.
  unfold app, endpoint, health_check, test_db_connection.
  unfold bind at 1 2. unfold try_except. unfold bind at 1.
  destruct (probe env st) as [[[]|e] st1] eqn:Ep.
  - cbn. eexists _, _. split; [reflexivity|]. split.
    + intros st2 _. split; reflexivity.
    + intros e st2 H. discriminate H.
  - cbn. eexists _, _. split; [reflexivity|]. split.
    + intros st2 H. discriminate H.
    + intros e' st2 H. inversion H; subst. split; [reflexivity|]. split; [reflexivity|].
      exact (probe_text env st e' st2 Htext Ep).
Qed.

(** A process whose database is unavailable: the report is degraded and its
    error field holds the text of the exception. *)
Lemma health_check_of_an_unavailable_database :
  exists r st',
    app GET_health unavailable_env initial_state = (mkResponse 200 (JHealth r), st')
    /\ (forall st1, probe unavailable_env initial_state = (Ok tt, st1) ->
        HealthResponse.status r = "healthy"
        /\ HealthResponse.database r
           = [ ("status", PStr "healthy");
               ("database", PStr "connected");
               ("latency_ms", PFloat (latency_ms unavailable_env)) ])
    /\ (forall e st1, probe unavailable_env initial_state = (Raise e, st1) ->
        HealthResponse.status r = "degraded"
        /\ HealthResponse.database r
           = [ ("status", PStr "unhealthy");
               ("database", PStr "disconnected");
               ("error", PStr (str_exn e)) ]
        /\ str_exn e <> "").
Proof.
  apply (health_check_reports_probe_outcome unavailable_env initial_state).
  intros n f H. inversion H. discriminate.
Defined.

(** The report of that process. *)
Example degraded_report :
  fst (app GET_health unavailable_env initial_state)
  = mkResponse 200
      (JHealth (HealthResponse.mk "degraded" "2026-01-15T12:00:00"
                  [ ("status", PStr "unhealthy");
                    ("database", PStr "disconnected");
                    ("error", PStr "database unavailable") ] "1.0.0")).
Proof. reflexivity. Qed.

(** *** C9: the active flag *)

(** C9.  Every request (health, list, create, get, upload, backup) leaves
    each stored row as it was and adds only active rows, so no row has its
    [is_active] set to false; the rows a list answers with and the row a get
    answers with are active; and every object-store call of a backup carries
    the document of a list of active rows, each record of which has
    [is_active] true. *)
Theorem active_flag_invariant (env : Env) (st : State) (req : Request) :
  let resp := fst (app req env st) in
  let st' := snd (app req env st) in
  extends st st'
  /\ (forall rows, content resp = JTasks rows ->
        Forall (fun row => Task.is_active row = true) rows)
  /\ (forall item_id row, req = GET_item item_id -> content resp = JTask row ->
        Task.is_active row = true)
  /\ (req = POST_backup -> records snapshot_of_active_rows st st').
Proof.
  cbv zeta. rewrite app_state. split; [apply extends_endpoint|].
  assert (Hr : reads_active req (fst (app req env st))).
  { unfold app. destruct (endpoint req env st) as [[r|e] st'] eqn:E; cbn.
    - eapply endpoint_returns. exact E.
    - destruct (exception_response_content env e) as [H1 H2].
      split; [intros rows Hc; destruct (H1 _ Hc)|intros i row _ Hc; destruct (H2 _ Hc)]. }
  destruct Hr as [H1 H2]. split; [exact H1|]. split; [exact H2|].
  intros ->. apply records_backup_endpoint.
Qed.

(** A table with a soft-deleted row: the list, the get and the backup leave
    it out. *)
Example soft_deleted_row_is_not_read :
  let hidden := Task.mk 2 "old" None "pending" noon (Some noon) false in
  let st := set_next_id 3 (set_tasks [sample_row; hidden] warm_state) in
  content (fst (app (GET_items None None None) steady_env st)) = JTasks [sample_row]
  /\ content (fst (app (GET_item 2) steady_env st)) = JDetail "Task not found"
  /\ map S3.Body (calls_since st (snd (app POST_backup steady_env st)))
     = [json_dumps (backup_content "2026-01-15T12:00:00" "tasks" [to_dict sample_row])]
  /\ tasks (snd (app POST_backup steady_env st)) = [sample_row; hidden].
Proof. cbv zeta. repeat split; vm_compute; reflexivity. Qed.

(** *** C10: the empty string as status *)

(** C10.  A list request with the empty string as status runs the query of
    the same request with no status: the handler and the route give the
    same result; the rows selected are the active rows of any status,
    paged; and when the round trips succeed that page of all the active
    rows is what the handler returns and what the route answers. *)
Theorem empty_status_is_no_filter
    (env : Env) (st : State) (skip limit : Z) (raw_skip raw_limit : option Z) :
  get_items skip limit (Some "") env st = get_items skip limit None env st
  /\ app (GET_items raw_skip raw_limit (Some "")) env st
     = app (GET_items raw_skip raw_limit None) env st
  /\ (forall rows,
       select (items_query skip limit (Some "")) rows
       = page skip limit (filter Task.is_active rows))
  /\ (db_fault env (db_calls st) = None ->
      (0 <= skip <= max_integer)%Z -> (0 <= limit <= max_integer)%Z ->
      fst (get_items skip limit (Some "") env st)
      = Ok (page skip limit (filter Task.is_active (tasks st))))
  /\ (engine st = true ->
      validate_skip raw_skip = Some skip -> validate_limit raw_limit = Some limit ->
      (skip <= max_integer)%Z ->
      db_fault env (db_calls st) = None -> db_fault env (S (db_calls st)) = None ->
      fst (app (GET_items raw_skip raw_limit (Some "")) env st)
      = mkResponse 200 (JTasks (page skip limit (filter Task.is_active (tasks st))))).
Proof.
  assert (Hsel : forall rows,
            select (items_query skip limit (Some "")) rows
            = page skip limit (filter Task.is_active rows)).
  { intros rows. unfold select, page. cbn. f_equal. f_equal.
    apply filter_ext. intros row. cbn. apply andb_true_r. }
  assert (Hrun : forall s0,
            db_fault env (db_calls s0) = None ->
            (0 <= skip <= max_integer)%Z -> (0 <= limit <= max_integer)%Z ->
            get_items skip limit (Some "") env s0
            = (Ok (page skip limit (filter Task.is_active (tasks s0))),
               set_db_calls (S (db_calls s0)) (set_in_transaction true s0))).
  { intros s0 Hdb Hs Hl. unfold get_items, query_all, try_except.
    rewrite execute_ok; [rewrite Hsel; reflexivity|exact Hdb|].
    apply (refusal_none _ _ _ skip limit); [reflexivity|reflexivity|reflexivity|exact Hs|exact Hl]. }
  split; [reflexivity|]. split; [reflexivity|]. split; [exact Hsel|]. split.
  - intros Hdb Hs Hl. rewrite (Hrun st Hdb Hs Hl). reflexivity.
  - intros Hwarm Hvs Hvl Hmax Hd1 Hd2.
    assert (Hs : (0 <= skip <= max_integer)%Z).
    { unfold validate_skip in Hvs. destruct raw_skip as [n|].
      - destruct (Z.leb_spec 0 n); [|discriminate]. inversion Hvs; subst. lia.
      - inversion Hvs; subst. unfold max_integer. lia. }
    assert (Hl : (0 <= limit <= max_integer)%Z).
    { unfold validate_limit in Hvl. destruct raw_limit as [n|].
      - destruct (Z.leb_spec 1 n), (Z.leb_spec n 1000); cbn in Hvl; try discriminate.
        inversion Hvl; subst. unfold max_integer. lia.
      - inversion Hvl; subst. unfold max_integer. lia. }
    unfold app, endpoint. rewrite get_db_warm by exact Hwarm. rewrite Hvs, Hvl.
    rewrite session_scope_run.
    rewrite (bind_ok _ _ _ _ _ _ (Hrun (rollback_state st) Hd1 Hs Hl)). cbn [ret].
    destruct (session_commit_succeeds env
                (set_db_calls (S (db_calls (rollback_state st)))
                   (set_in_transaction true (rollback_state st))))
      as (rows & st2 & Ec & _); [right; reflexivity|exact Hd2|].
    rewrite Ec. reflexivity.
Qed.

(** Over a table that holds a pending and a completed row, the request with
    the empty string as status lists both. *)
Lemma empty_status_lists_rows_of_every_status :
  fst (get_items 0 100 (Some "") steady_env two_row_state) = Ok [sample_row; second_row].
Proof.
  destruct (empty_status_is_no_filter steady_env two_row_state 0 100 None None)
    as (_ & _ & _ & H & _).
  apply H; [reflexivity|unfold max_integer; lia|unfold max_integer; lia].
Defined.

(* ===================================================================== *)
(** ** Further properties of the code *)
(* ===================================================================== *)

(** *** The engine: attempts and retries *)

Ltac same_call H :=
  match type of H with
  | db_fault _ ?a = _ =>
      match goal with
      | |- db_fault _ ?b = _ => replace b with a by lia; exact H
      end
  end.

Lemma create_db_engine_loop_spec n : forall last env st,
  exists r k,
    create_db_engine_loop n last env st = (r, set_db_calls (db_calls st + k) st)
    /\ k <= 2 * n
    /\ (r = Ok tt ->
        2 <= k
        /\ db_fault env (db_calls st + k - 2) = None
        /\ db_fault env (db_calls st + k - 1) = None).
Proof.
  induction n as [|n IH]; intros last env st.
  - exists (match last with
            | Some e => Raise e
            | None => Raise (PyException "exceptions must derive from BaseException")
            end), 0.
    cbn. rewrite Nat.add_0_r, set_db_calls_same.
    split; [destruct last; reflexivity|]. split; [lia|].
    destruct last; discriminate.
  - assert (Hretry1 : forall msg,
              exists r k,
                create_db_engine_loop n (Some (OperationalError msg)) env
                  (set_db_calls (S (db_calls st)) st)
                = (r, set_db_calls (db_calls st + k) st)
                /\ k <= 2 * S n
                /\ (r = Ok tt ->
                    2 <= k
                    /\ db_fault env (db_calls st + k - 2) = None
                    /\ db_fault env (db_calls st + k - 1) = None)).
    { intros msg.
      destruct (IH (Some (OperationalError msg)) env (set_db_calls (S (db_calls st)) st))
        as (r & k & Er & Hk & Hok).
      exists r, (S k). cbn [db_calls set_db_calls] in Er. rewrite Er.
      rewrite set_db_calls_twice.
      replace (db_calls st + S k) with (S (db_calls st) + k) by lia.
      split; [reflexivity|]. split; [lia|].
      intros Hr. destruct (Hok Hr) as (H2 & Ha & Hb).
      cbn [db_calls set_db_calls] in Ha, Hb.
      split; [lia|]. split; [same_call Ha|same_call Hb]. }
    assert (Hretry2 : forall msg,
              exists r k,
                create_db_engine_loop n (Some (OperationalError msg)) env
                  (set_db_calls (S (S (db_calls st))) st)
                = (r, set_db_calls (db_calls st + k) st)
                /\ k <= 2 * S n
                /\ (r = Ok tt ->
                    2 <= k
                    /\ db_fault env (db_calls st + k - 2) = None
                    /\ db_fault env (db_calls st + k - 1) = None)).
    { intros msg.
      destruct (IH (Some (OperationalError msg)) env
                  (set_db_calls (S (S (db_calls st))) st))
        as (r & k & Er & Hk & Hok).
      exists r, (S (S k)). cbn [db_calls set_db_calls] in Er. rewrite Er.
      rewrite set_db_calls_twice.
      replace (db_calls st + S (S k)) with (S (S (db_calls st)) + k) by lia.
      split; [reflexivity|]. split; [lia|].
      intros Hr. destruct (Hok Hr) as (H2 & Ha & Hb).
      cbn [db_calls set_db_calls] in Ha, Hb.
      split; [lia|]. split; [same_call Ha|same_call Hb]. }
    cbn [create_db_engine_loop]. unfold try_except, connect_and_select_1, bind.
    rewrite db_round_trip_run.
    destruct (db_fault env (db_calls st)) as [[msg|msg|msg]|] eqn:E1.
    + cbn [exn_of_db_fault]. apply Hretry1.
    + exists (Raise (PyException msg)), 1. cbn [exn_of_db_fault].
      replace (db_calls st + 1) with (S (db_calls st)) by lia.
      split; [reflexivity|]. split; [lia|]. discriminate.
    + cbn [exn_of_db_fault]. apply Hretry1.
    + rewrite db_round_trip_run. cbn [db_calls set_db_calls]. rewrite set_db_calls_twice.
      destruct (db_fault env (S (db_calls st))) as [[msg|msg|msg]|] eqn:E2.
      * cbn [exn_of_db_fault]. apply Hretry2.
      * exists (Raise (PyException msg)), 2. cbn [exn_of_db_fault].
        replace (db_calls st + 2) with (S (S (db_calls st))) by lia.
        split; [reflexivity|]. split; [lia|]. discriminate.
      * cbn [exn_of_db_fault]. apply Hretry2.
      * exists (Ok tt), 2.
        replace (db_calls st + 2) with (S (S (db_calls st))) by lia.
        split; [reflexivity|]. split; [lia|]. intros _.
        split; [lia|]. split; [same_call E1|same_call E2].
Qed.

(** X1.  [create_db_engine max_retries] makes at most [max_retries] attempts of
    two round trips each and changes nothing but the count of round trips;
    when it returns, the last two round trips (the connect and the
    [SELECT 1] of the last attempt) succeeded; with no attempt allowed it
    raises without a round trip. *)
Theorem create_db_engine_attempts_are_bounded
    (env : Env) (st : State) (max_retries : nat) :
  exists r round_trips,
    create_db_engine max_retries env st
      = (r, set_db_calls (db_calls st + round_trips) st)
    /\ round_trips <= 2 * max_retries
    /\ (r = Ok tt ->
        2 <= round_trips
        /\ db_fault env (db_calls st + round_trips - 2) = None
        /\ db_fault env (db_calls st + round_trips - 1) = None)
    /\ (max_retries = 0 -> exists e, r = Raise e /\ round_trips = 0).
Proof.
  unfold create_db_engine.
  destruct (create_db_engine_loop_spec max_retries None env st) as (r & k & E & Hk & Hok).
  exists r, k. split; [exact E|]. split; [exact Hk|]. split; [exact Hok|].
  intros ->. cbn in E. assert (k = 0) by lia. subst k.
  inversion E; subst. eexists. split; reflexivity.
Qed.

Lemma operational_failures_loop n : forall last env st (msg : nat -> string),
  (forall k, k < n -> db_fault env (db_calls st + k) = Some (DbOperational (msg k))) ->
  create_db_engine_loop n last env st
  = (match n with
     | O => match last with
            | Some e => Raise e
            | None => Raise (PyException "exceptions must derive from BaseException")
            end
     | S m => Raise (OperationalError (msg m))
     end, set_db_calls (db_calls st + n) st).
Proof.
  induction n as [|n IH]; intros last env st msg H.
  - cbn. rewrite Nat.add_0_r, set_db_calls_same. destruct last; reflexivity.
  - cbn [create_db_engine_loop]. unfold try_except, connect_and_select_1, bind.
    rewrite db_round_trip_run.
    assert (H0 := H 0 ltac:(lia)). rewrite Nat.add_0_r in H0. rewrite H0.
    cbn [exn_of_db_fault].
    rewrite (IH _ env _ (fun k => msg (S k))).
    + cbn [db_calls set_db_calls].
      replace (S (db_calls st) + n) with (db_calls st + S n) by lia.
      destruct n; reflexivity.
    + intros k Hk. cbn [db_calls set_db_calls].
      replace (S (db_calls st) + k) with (db_calls st + S k) by lia.
      apply H. lia.
Qed.

(** X2.  When each of the [max_retries] attempts fails at its connect with an
    [OperationalError], the exception raised is the one of the last attempt,
    after [max_retries] round trips. *)
Theorem create_db_engine_raises_the_last_exception
    (env : Env) (st : State) (max_retries : nat) (msg : nat -> string) :
  0 < max_retries ->
  (forall k, k < max_retries ->
     db_fault env (db_calls st + k) = Some (DbOperational (msg k))) ->
  create_db_engine max_retries env st
  = (Raise (OperationalError (msg (max_retries - 1))),
     set_db_calls (db_calls st + max_retries) st).
Proof.
  intros Hpos H. unfold create_db_engine.
  rewrite (operational_failures_loop max_retries None env st msg H).
  destruct max_retries as [|m]; [lia|].
  replace (S m - 1) with m by lia. reflexivity.
Qed.

(** Three attempts ended by an [OperationalError]: the engine is not
    created and three round trips were made. *)
Lemma three_failed_attempts :
  create_db_engine 3 unavailable_env initial_state
  = (Raise (OperationalError "database unavailable"), set_db_calls 3 initial_state).
Proof.
  apply (create_db_engine_raises_the_last_exception unavailable_env initial_state 3
           (fun _ => "database unavailable")).
  - lia.
  - intros k _. reflexivity.
Defined.

(** X3.  An exception that is no [OperationalError] is not retried: after
    [failed] attempts ended by an [OperationalError], a connect that raises
    something else leaves the loop with that exception although attempts
    remain. *)
Theorem create_db_engine_does_not_retry_other_exceptions
    (env : Env) (st : State) (max_retries failed : nat) (msg : nat -> string)
    (text : string) :
  failed < max_retries ->
  (forall k, k < failed ->
     db_fault env (db_calls st + k) = Some (DbOperational (msg k))) ->
  db_fault env (db_calls st + failed) = Some (DbFailure text) ->
  create_db_engine max_retries env st
  = (Raise (PyException text), set_db_calls (db_calls st + failed + 1) st).
Proof.
  unfold create_db_engine. generalize (@None Exn) as last.
  revert st max_retries msg. induction failed as [|j IH]; intros st n msg last Hlt Hop Hf.
  - destruct n as [|n]; [lia|]. cbn [create_db_engine_loop].
    unfold try_except, connect_and_select_1, bind. rewrite db_round_trip_run.
    rewrite Nat.add_0_r in Hf. rewrite Hf. cbn.
    replace (db_calls st + 0 + 1) with (S (db_calls st)) by lia. reflexivity.
  - destruct n as [|n]; [lia|]. cbn [create_db_engine_loop].
    unfold try_except, connect_and_select_1, bind. rewrite db_round_trip_run.
    assert (H0 := Hop 0 ltac:(lia)). rewrite Nat.add_0_r in H0. rewrite H0.
    cbn [exn_of_db_fault].
    rewrite (IH _ n (fun k => msg (S k))).
    + cbn [db_calls set_db_calls].
      replace (S (db_calls st) + j + 1) with (db_calls st + S j + 1) by lia. reflexivity.
    + lia.
    + intros k Hk. cbn [db_calls set_db_calls].
      replace (S (db_calls st) + k) with (db_calls st + S k) by lia. apply Hop. lia.
    + cbn [db_calls set_db_calls].
      replace (S (db_calls st) + j) with (db_calls st + S j) by lia. exact Hf.
Qed.

(** One [OperationalError], then a rejected password: the second attempt
    is the last. *)
Lemma rejected_password_ends_the_attempts :
  create_db_engine 3 rejecting_env initial_state
  = (Raise (PyException "password authentication failed"), set_db_calls 2 initial_state).
Proof.
  apply (create_db_engine_does_not_retry_other_exceptions rejecting_env initial_state 3 1
           (fun _ => "database unavailable") "password authentication failed").
  - lia.
  - intros k Hk. destruct k; [reflexivity|lia].
  - reflexivity.
Defined.

(** X4.  [get_engine] with an engine returns it and changes nothing; when it
    returns, the engine exists and every later call, in any environment,
    returns at once; when it raises there was no engine and there is none
    after, so the next call tries again. *)
Theorem get_engine_creates_the_engine_once (env : Env) (st : State) :
  (engine st = true -> get_engine env st = (Ok tt, st))
  /\ (fst (get_engine env st) = Ok tt ->
      engine (snd (get_engine env st)) = true
      /\ forall env', get_engine env' (snd (get_engine env st))
                      = (Ok tt, snd (get_engine env st)))
  /\ (forall e, fst (get_engine env st) = Raise e ->
      engine st = false /\ engine (snd (get_engine env st)) = false).
Proof.
  assert (Hwarm : forall env0 st0, engine st0 = true -> get_engine env0 st0 = (Ok tt, st0)).
  { intros env0 st0 H. unfold get_engine, bind, gets. rewrite H. reflexivity. }
  split; [apply Hwarm|].
  destruct (engine st) eqn:E.
  - rewrite (Hwarm env st E). cbn. split.
    + intros _. split; [exact E|]. intros env'. apply Hwarm, E.
    + intros e H. discriminate H.
  - unfold get_engine, bind, gets. rewrite E. unfold create_db_engine.
    destruct (create_db_engine_loop_spec 3 None env st) as (r & k & Er & _ & _).
    rewrite Er. destruct r as [[]|e]; cbn.
    + split.
      * intros _. split; [reflexivity|]. intros env'. reflexivity.
      * intros e H. discriminate H.
    + split.
      * intros H. discriminate H.
      * intros e' _. split; [reflexivity|exact E].
Qed.

(** *** The session of a request *)

(** X5.  The scope of [get_db] around a handler.  On every exit the session has
    nothing pending and no transaction.  An exception of the handler is
    raised again, with the table, the sequence and the round trips as the
    handler left them.  A commit that fails raises its exception and
    inserts nothing.  A commit that succeeds passes the result of the
    handler on and appends as many rows as objects were pending. *)
Theorem session_scope_releases_the_session {A : Type}
    (handler : M A) (env : Env) (st : State) :
  session_new (snd (session_scope handler env st)) = []
  /\ in_transaction (snd (session_scope handler env st)) = false
  /\ (forall e st1, handler env st = (Raise e, st1) ->
      fst (session_scope handler env st) = Raise e
      /\ tasks (snd (session_scope handler env st)) = tasks st1
      /\ next_id (snd (session_scope handler env st)) = next_id st1
      /\ db_calls (snd (session_scope handler env st)) = db_calls st1)
  /\ (forall a st1 f, handler env st = (Ok a, st1) ->
      (session_new st1 <> [] \/ in_transaction st1 = true) ->
      db_fault env (db_calls st1) = Some f ->
      fst (session_scope handler env st) = Raise (exn_of_db_fault f)
      /\ tasks (snd (session_scope handler env st)) = tasks st1)
  /\ (forall a st1, handler env st = (Ok a, st1) ->
      db_fault env (db_calls st1) = None ->
      fst (session_scope handler env st) = Ok a
      /\ exists rows,
           tasks (snd (session_scope handler env st)) = (tasks st1 ++ rows)%list
           /\ List.length rows = List.length (session_new st1)).
Proof.
  rewrite session_scope_run.
  split; [|split; [|split; [|split]]].
  - destruct (handler env st) as [[a|e] st1];
      [destruct (session_commit env st1) as [[rows|e] st2]|]; reflexivity.
  - destruct (handler env st) as [[a|e] st1];
      [destruct (session_commit env st1) as [[rows|e] st2]|]; reflexivity.
  - intros e st1 H. rewrite H. cbn. repeat split.
  - intros a st1 f H Hp Hf. rewrite H.
    destruct (session_commit_fails env st1 f Hp Hf) as (s2 & E & Ht & _).
    rewrite E. cbn. split; [reflexivity|exact Ht].
  - intros a st1 H Hf. rewrite H.
    destruct (session_new st1) as [|p ps] eqn:En.
    + destruct (in_transaction st1) eqn:Et.
      * destruct (session_commit_succeeds env st1 (or_intror Et) Hf)
          as (rows & s2 & E & Ht & _ & Hl & _).
        rewrite E. cbn. split; [reflexivity|]. exists rows.
        split; [exact Ht|]. rewrite Hl, En. reflexivity.
      * rewrite (session_commit_idle env st1 En Et). cbn.
        split; [reflexivity|]. exists []. rewrite app_nil_r. split; reflexivity.
    + assert (Hp : session_new st1 <> [] \/ in_transaction st1 = true).
      { left. rewrite En. discriminate. }
      destruct (session_commit_succeeds env st1 Hp Hf)
        as (rows & s2 & E & Ht & _ & Hl & _).
      rewrite E. cbn. split; [reflexivity|]. exists rows.
      split; [exact Ht|]. rewrite Hl, En. reflexivity.
Qed.

(** *** One task by its id *)

Lemma hd_error_firstn_filter {A} (g : A -> bool) (l : list A) :
  hd_error (firstn 1 (filter g l)) = find g l.
Proof.
  induction l as [|x l IH]; [reflexivity|]. cbn. destruct (g x); [reflexivity|exact IH].
Qed.

Lemma find_conj {A} (f g : A -> bool) (l : list A) x :
  find f l = Some x -> g x = true -> find (fun y => f y && g y) l = Some x.
Proof.
  induction l as [|y l IH]; cbn; [discriminate|].
  destruct (f y) eqn:Ef; cbn.
  - intros H Hg. inversion H; subst. rewrite Hg. reflexivity.
  - intros H Hg. apply IH; assumption.
Qed.

Lemma find_app_skip {A} (f : A -> bool) (l l' : list A) :
  Forall (fun x => f x = false) l -> find f (l ++ l')%list = find f l'.
Proof.
  induction 1 as [|x l Hx _ IH]; cbn; [reflexivity|]. rewrite Hx. exact IH.
Qed.

Lemma not_an_id_stored rows row :
  In row rows -> not_an_id rows (Task.id row) = false.
Proof.
  intros Hin. unfold not_an_id.
  assert (E : existsb (fun r => (Task.id r =? Task.id row)%Z) rows = true).
  { apply existsb_exists. exists row. split; [exact Hin|apply Z.eqb_refl]. }
  rewrite E. apply andb_false_r.
Qed.

Lemma not_an_id_integer rows n :
  (min_integer <= n <= max_integer)%Z -> not_an_id rows n = false.
Proof.
  intros H. unfold not_an_id. apply is_integer_iff in H. rewrite H. reflexivity.
Qed.

Lemma not_an_id_outside rows n :
  (n < min_integer \/ max_integer < n)%Z ->
  (forall row, In row rows -> Task.id row <> n) ->
  not_an_id rows n = true.
Proof.
  intros Hout Hno. unfold not_an_id.
  assert (E1 : is_integer n = false).
  { destruct (is_integer n) eqn:E; [|reflexivity]. apply is_integer_iff in E. lia. }
  assert (E2 : existsb (fun r => (Task.id r =? n)%Z) rows = false).
  { destruct (existsb _ rows) eqn:E; [|reflexivity].
    apply existsb_exists in E. destruct E as (row & Hin & Heq).
    apply Z.eqb_eq in Heq. destruct (Hno row Hin Heq). }
  rewrite E1, E2. reflexivity.
Qed.

Lemma get_item_run env st item_id :
  db_fault env (db_calls st) = None ->
  get_item item_id env st
  = (if not_an_id (tasks st) item_id
     then Raise (PyException "integer out of range")
     else
       match find (fun row => (Task.id row =? item_id)%Z && Task.is_active row)
               (tasks st) with
       | Some row => Ok row
       | None => Raise (HTTPException 404 "Task not found")
       end, set_db_calls (S (db_calls st)) (set_in_transaction true st)).
Proof.
  intros Hdb. unfold get_item, query_first.
  unfold bind at 1. unfold bind at 1.
  rewrite execute_run, Hdb.
  assert (Er : refusal (bind_casts env)
                 (query_limit 1 (query_filter_id item_id Task.is_active query_Task))
                 (tasks st)
               = if not_an_id (tasks st) item_id then Some "integer out of range"
                 else None).
  { unfold refusal.
    destruct (bind_casts env); cbn; destruct (not_an_id (tasks st) item_id); reflexivity. }
  rewrite Er. destruct (not_an_id (tasks st) item_id); [reflexivity|].
  cbn [ret]. unfold select.
  cbn [Query.limit Query.offset query_limit query_filter_id query_Task
       apply_limit apply_offset Query.criteria].
  change (Z.to_nat 1) with 1.
  rewrite (filter_ext _ (fun row => (Task.id row =? item_id)%Z && Task.is_active row)).
  2:{ intros row. cbn. apply andb_true_r. }
  rewrite hd_error_firstn_filter.
  destruct (find _ (tasks st)); reflexivity.
Qed.

(** X6.  When the round trip succeeds, [get_item] for an id within the
    INTEGER range returns the first stored row of that id that is active, or
    raises 404 when there is none.  For an id outside that range, which no
    stored row carries, the database raises: the handler raises an exception
    that is no [HTTPException], and the route answers 500.  Table, sequence
    and object-store calls stay as they were. *)
Theorem get_item_returns_the_active_row_or_404
    (env : Env) (st : State) (item_id : Z) :
  db_fault env (db_calls st) = None ->
  exists st',
    snd (get_item item_id env st) = st'
    /\ tasks st' = tasks st
    /\ next_id st' = next_id st
    /\ s3_calls st' = s3_calls st
    /\ ((min_integer <= item_id <= max_integer)%Z ->
        fst (get_item item_id env st)
        = match find (fun row => (Task.id row =? item_id)%Z && Task.is_active row)
                  (tasks st) with
          | Some row => Ok row
          | None => Raise (HTTPException 404 "Task not found")
          end)
    /\ ((item_id < min_integer \/ max_integer < item_id)%Z ->
        (forall row, In row (tasks st) -> Task.id row <> item_id) ->
        (exists text, fst (get_item item_id env st) = Raise (PyException text))
        /\ (engine st = true ->
            status_code (fst (app (GET_item item_id) env st)) = 500%Z)).
Proof.
  intros Hdb. eexists. split; [reflexivity|].
  rewrite (get_item_run env st item_id Hdb). cbn [fst snd].
  split; [reflexivity|]. split; [reflexivity|]. split; [reflexivity|]. split.
  - intros Hin. rewrite (not_an_id_integer _ _ Hin). reflexivity.
  - intros Hout Hno. rewrite (not_an_id_outside _ _ Hout Hno).
    split; [eexists; reflexivity|].
    intros Hwarm. unfold app, endpoint. rewrite get_db_warm by exact Hwarm.
    rewrite session_scope_run.
    assert (Hdb' : db_fault env (db_calls (rollback_state st)) = None) by exact Hdb.
    unfold bind at 1. rewrite (get_item_run env (rollback_state st) item_id Hdb').
    cbn [tasks rollback_state set_in_transaction set_session_new].
    rewrite (not_an_id_outside _ _ Hout Hno). reflexivity.
Qed.

(** The row of id 1 of a table that holds it, and the id 2 that it does not
    hold. *)
Lemma get_item_of_the_stored_row :
  fst (get_item 1 steady_env one_row_state) = Ok sample_row
  /\ fst (get_item 2 steady_env one_row_state) = Raise (HTTPException 404 "Task not found").
Proof.
  destruct (get_item_returns_the_active_row_or_404 steady_env one_row_state 1 eq_refl)
    as (s1 & _ & _ & _ & _ & H1 & _).
  destruct (get_item_returns_the_active_row_or_404 steady_env one_row_state 2 eq_refl)
    as (s2 & _ & _ & _ & _ & H2 & _).
  split; [apply H1|apply H2]; unfold min_integer, max_integer; lia.
Defined.

(** An id one past the largest INTEGER. *)
Example get_item_out_of_range :
  app (GET_item 2147483648) steady_env one_row_state
  = (mkResponse 500 (JUnexpected None),
     set_db_calls 1 one_row_state).
Proof. reflexivity. Qed.

(** *** Creating a task *)

Lemma bind_raise {A B} (m : M A) (k : A -> M B) env st e st' :
  m env st = (Raise e, st') -> bind m k env st = (Raise e, st').
Proof. intros H. unfold bind. rewrite H. reflexivity. Qed.

Lemma valid_status_test s :
  In s valid_statuses -> negb (existsb (String.eqb s) valid_statuses) = false.
Proof.
  intros H. apply negb_false_iff. apply existsb_exists. exists s.
  split; [exact H|apply String.eqb_refl].
Qed.

(** The body of [create_item] after the status test. *)
Lemma create_item_valid task env st :
  In (TaskCreate.status task) valid_statuses ->
  create_item task env st
  = try_except
      (session_add (Pending.mk (TaskCreate.title task) (TaskCreate.description task)
                      (TaskCreate.status task)) ;;
       rows <- session_commit ;;
       match rev rows with
       | db_task :: _ => session_refresh db_task
       | [] => raise (PyException "Instance is not persistent within this Session")
       end)
      (fun e =>
         match e with
         | HTTPException _ _ => raise e
         | _ =>
             session_rollback ;;
             raise (HTTPException 500 ("Failed to create item: " ++ str_exn e))
         end) env st.
Proof.
  intros H. unfold create_item, try_except. rewrite (valid_status_test _ H). reflexivity.
Qed.

(** X7.  A valid create whose commit fails: the session is rolled back and
    the handler raises 500 with the text of the database exception; no row
    is stored, nothing stays pending, one round trip was made.  The sequence
    is where it was, unless the connection was lost after the INSERT: then
    the ids of the pending objects are used up. *)
Theorem create_item_rolls_back_a_failed_commit
    (env : Env) (st : State) (task : TaskCreate.t) (f : DbFault) :
  In (TaskCreate.status task) ["pending"; "in_progress"; "completed"] ->
  db_fault env (db_calls st) = Some f ->
  exists st',
    create_item task env st
    = (Raise (HTTPException 500
                ("Failed to create item: " ++ str_exn (exn_of_db_fault f))), st')
    /\ tasks st' = tasks st
    /\ session_new st' = []
    /\ db_calls st' = S (db_calls st)
    /\ (next_id st <= next_id st')%Z
    /\ ((forall msg, f <> DbLost msg) -> next_id st' = next_id st)
    /\ (forall msg, f = DbLost msg ->
        next_id st' = (next_id st + Z.of_nat (S (List.length (session_new st))))%Z).
Proof.
  intros Hv Hf. rewrite (create_item_valid task env st Hv).
  unfold try_except. unfold bind at 1. unfold session_add at 1. cbn [modify].
  set (st0 := set_session_new _ st).
  assert (Hp : session_new st0 <> [] \/ in_transaction st0 = true).
  { left. subst st0. cbn. destruct (session_new st); discriminate. }
  destruct (session_commit_fails env st0 f Hp Hf) as (s1 & E & Ht & _ & Hd & _ & _ & Hn & Hl).
  rewrite (bind_raise _ _ _ _ _ _ E).
  assert (Hlen : List.length (session_new st0) = S (List.length (session_new st))).
  { subst st0. cbn. rewrite length_app. cbn. lia. }
  eexists. split.
  - destruct f; cbn [exn_of_db_fault]; reflexivity.
  - assert (Ht' : tasks s1 = tasks st) by exact Ht.
    assert (Hd' : db_calls s1 = S (db_calls st)) by exact Hd.
    assert (Hcases : (forall msg, f <> DbLost msg) \/ exists msg, f = DbLost msg).
    { destruct f as [m|m|m]; [left; discriminate|left; discriminate|right; exists m; reflexivity]. }
    destruct f as [m|m|m];
      cbn [exn_of_db_fault tasks next_id session_new db_calls session_rollback modify
           rollback_state set_in_transaction set_session_new bind raise fst snd];
      (split; [exact Ht'|]; split; [reflexivity|]; split; [exact Hd'|]).
    + rewrite (Hn ltac:(discriminate)). subst st0. cbn.
      split; [lia|]. split; [reflexivity|]. intros msg Hm. discriminate Hm.
    + rewrite (Hn ltac:(discriminate)). subst st0. cbn.
      split; [lia|]. split; [reflexivity|]. intros msg Hm. discriminate Hm.
    + rewrite (Hl m eq_refl), Hlen. subst st0. cbn [next_id set_session_new].
      split; [lia|]. split; [intros Hno; destruct (Hno m eq_refl)|].
      intros msg _. reflexivity.
Qed.

(** A create whose commit raises an [OperationalError]. *)
Lemma create_item_with_a_failed_commit :
  exists st',
    create_item sample_task unavailable_env warm_state
    = (Raise (HTTPException 500 "Failed to create item: database unavailable"), st')
    /\ tasks st' = tasks warm_state
    /\ session_new st' = []
    /\ db_calls st' = S (db_calls warm_state)
    /\ (next_id warm_state <= next_id st')%Z
    /\ ((forall msg, DbOperational "database unavailable" <> DbLost msg) ->
        next_id st' = next_id warm_state)
    /\ (forall msg, DbOperational "database unavailable" = DbLost msg ->
        next_id st'
        = (next_id warm_state + Z.of_nat (S (List.length (session_new warm_state))))%Z).
Proof.
  apply (create_item_rolls_back_a_failed_commit unavailable_env warm_state sample_task
           (DbOperational "database unavailable")).
  - left. reflexivity.
  - reflexivity.
Defined.

(** A create whose connection is lost at the COMMIT: nothing is stored, and
    the id 1 is used up. *)
Example create_item_with_a_lost_commit :
  exists st',
    create_item sample_task lost_commit_env warm_state
    = (Raise (HTTPException 500 "Failed to create item: server closed the connection"),
       st')
    /\ tasks st' = []
    /\ next_id st' = 2%Z.
Proof. eexists. split; [reflexivity|]. split; reflexivity. Qed.

Lemma ahead_skips_old_rows st :
  sequence_ahead st ->
  Forall (fun row => (Task.id row =? next_id st)%Z = false) (tasks st).
Proof.
  intros [_ H]. eapply Forall_impl; [|exact H]. cbn beta.
  intros row Hlt. apply Z.eqb_neq. lia.
Qed.

Lemma create_item_commits env st task :
  In (TaskCreate.status task) valid_statuses ->
  session_new st = [] ->
  db_fault env (db_calls st) = None ->
  exists st1,
    (session_add (Pending.mk (TaskCreate.title task) (TaskCreate.description task)
                    (TaskCreate.status task)) ;;
     session_commit) env st = (Ok [created_row env st task], st1)
    /\ tasks st1 = (tasks st ++ [created_row env st task])%list
    /\ next_id st1 = (next_id st + 1)%Z
    /\ session_new st1 = []
    /\ in_transaction st1 = false
    /\ db_calls st1 = S (db_calls st)
    /\ s3_calls st1 = s3_calls st
    /\ objects st1 = objects st
    /\ engine st1 = engine st
    /\ utcnow_calls st1 = S (S (utcnow_calls st)).
Proof.
  intros Hv Hn Hf.
  unfold bind at 1. unfold session_add, modify. rewrite Hn. cbn [List.app].
  rewrite session_commit_busy by (left; discriminate).
  cbn [db_calls set_session_new]. rewrite Hf.
  cbn. eexists. split; [reflexivity|]. cbn. repeat split.
Qed.

Lemma session_refresh_run env st obj :
  session_refresh obj env st
  = (match db_fault env (db_calls st) with
     | Some f => Raise (exn_of_db_fault f)
     | None =>
         match find (fun row => (Task.id row =? Task.id obj)%Z) (tasks st) with
         | Some row => Ok row
         | None => Raise (PyException "Could not refresh instance")
         end
     end, set_db_calls (S (db_calls st)) (set_in_transaction true st)).
Proof.
  unfold session_refresh, bind, modify, gets, db_round_trip.
  cbn [db_calls set_in_transaction tasks set_db_calls].
  destruct (db_fault env (db_calls st)); [reflexivity|].
  cbn [tasks set_db_calls set_in_transaction].
  destruct (find _ (tasks st)); reflexivity.
Qed.

Lemma create_item_run env st task :
  In (TaskCreate.status task) valid_statuses ->
  sequence_ahead st ->
  session_new st = [] ->
  db_fault env (db_calls st) = None ->
  db_fault env (S (db_calls st)) = None ->
  exists st',
    create_item task env st = (Ok (created_row env st task), st')
    /\ tasks st' = (tasks st ++ [created_row env st task])%list
    /\ next_id st' = (next_id st + 1)%Z
    /\ session_new st' = []
    /\ db_calls st' = S (S (db_calls st)).
Proof.
  intros Hv Hahead Hn Hf1 Hf2. rewrite (create_item_valid task env st Hv).
  destruct (create_item_commits env st task Hv Hn Hf1)
    as (st1 & E & Ht & Hid & Hs & _ & Hd & _).
  unfold try_except.
  unfold bind at 1 in E.
  unfold bind at 1. destruct (session_add _ env st) as [[[]|e] s0]; [|discriminate E].
  unfold bind at 1. rewrite E. cbn [rev List.app].
  rewrite session_refresh_run, Hd, Hf2, Ht.
  rewrite find_app_skip by (apply ahead_skips_old_rows, Hahead).
  cbn [find created_row Task.id]. rewrite Z.eqb_refl.
  eexists. split; [reflexivity|].
  cbn [tasks next_id session_new db_calls set_db_calls set_in_transaction].
  split; [exact Ht|]. split; [exact Hid|]. split; [exact Hs|]. reflexivity.
Qed.

(** X8.  A valid create, from a session with nothing pending and a sequence
    ahead of the stored ids, whose commit and refresh succeed: the row
    returned is [created_row], it is the one row appended to the table, the
    sequence advances by one, and two round trips were made. *)
Theorem create_item_stores_the_request
    (env : Env) (st : State) (task : TaskCreate.t) :
  In (TaskCreate.status task) ["pending"; "in_progress"; "completed"] ->
  sequence_ahead st ->
  session_new st = [] ->
  db_fault env (db_calls st) = None ->
  db_fault env (S (db_calls st)) = None ->
  exists st',
    create_item task env st = (Ok (created_row env st task), st')
    /\ tasks st' = (tasks st ++ [created_row env st task])%list
    /\ next_id st' = (next_id st + 1)%Z
    /\ session_new st' = []
    /\ db_calls st' = S (S (db_calls st)).
Proof. apply create_item_run. Qed.

(** The first create over an empty table. *)
Lemma create_item_stores_the_sample_task :
  exists st',
    create_item sample_task steady_env warm_state = (Ok sample_row, st')
    /\ tasks st' = [sample_row]
    /\ next_id st' = 2%Z
    /\ session_new st' = []
    /\ db_calls st' = 2.
Proof.
  apply (create_item_stores_the_request steady_env warm_state sample_task).
  - left. reflexivity.
  - split; [reflexivity|constructor].
  - reflexivity.
  - reflexivity.
  - reflexivity.
Defined.

(** X9.  When the commit succeeds and the refresh after it fails, the handler
    raises 500 although the row has been committed: the table holds it. *)
Theorem create_item_answers_500_after_the_commit
    (env : Env) (st : State) (task : TaskCreate.t) (f : DbFault) :
  In (TaskCreate.status task) ["pending"; "in_progress"; "completed"] ->
  session_new st = [] ->
  db_fault env (db_calls st) = None ->
  db_fault env (S (db_calls st)) = Some f ->
  exists st',
    create_item task env st
    = (Raise (HTTPException 500
                ("Failed to create item: " ++ str_exn (exn_of_db_fault f))), st')
    /\ tasks st' = (tasks st ++ [created_row env st task])%list.
Proof.
  intros Hv Hn Hf1 Hf2. rewrite (create_item_valid task env st Hv).
  destruct (create_item_commits env st task Hv Hn Hf1)
    as (st1 & E & Ht & Hid & Hs & _ & Hd & _).
  unfold try_except.
  unfold bind at 1 in E.
  unfold bind at 1. destruct (session_add _ env st) as [[[]|e] s0]; [|discriminate E].
  unfold bind at 1. rewrite E. cbn [rev List.app].
  rewrite session_refresh_run, Hd, Hf2.
  eexists. split.
  - destruct f; cbn [exn_of_db_fault]; reflexivity.
  - cbn. exact Ht.
Qed.

(** The connection is lost between the commit and the refresh. *)
Lemma create_item_with_a_lost_connection :
  exists st',
    create_item sample_task lost_after_commit_env warm_state
    = (Raise (HTTPException 500 "Failed to create item: server closed the connection"),
       st')
    /\ tasks st' = [sample_row].
Proof.
  apply (create_item_answers_500_after_the_commit lost_after_commit_env warm_state
           sample_task (DbOperational "server closed the connection")).
  - left. reflexivity.
  - reflexivity.
  - reflexivity.
  - reflexivity.
Defined.

(** What a successful [create_item] leaves behind: the row it returns is
    the first stored row of its id, and it is active. *)
Lemma create_item_ok env st task row st' :
  sequence_ahead st ->
  create_item task env st = (Ok row, st') ->
  Task.is_active row = true
  /\ find (fun r => (Task.id r =? Task.id row)%Z) (tasks st') = Some row.
Proof.
  intros [Hpos Hahead] H. unfold create_item, try_except in H.
  destruct (negb _) eqn:Hv; [discriminate|].
  unfold bind at 1 in H. unfold session_add at 1 in H. cbn [modify] in H.
  set (st0 := set_session_new _ st) in H.
  unfold bind at 1 in H.
  destruct (session_commit env st0) as [[rows|e] st1] eqn:Ec.
  2:{ destruct e; unfold bind, raise, session_rollback, modify in H; discriminate H. }
  apply session_commit_pending in Ec.
  2:{ subst st0. cbn. destruct (session_new st); discriminate. }
  destruct Ec as (Ht & Hf & Hl).
  destruct (rev rows) as [|db_task others] eqn:Er.
  { unfold bind, raise, session_rollback, modify in H. discriminate H. }
  assert (Hin : In db_task rows).
  { apply in_rev. rewrite Er. left. reflexivity. }
  rewrite session_refresh_run in H.
  destruct (db_fault env (db_calls st1)) as [[?|?|?]|]; cbn in H; try discriminate H.
  destruct (find _ (tasks st1)) as [found|] eqn:Ef; cbn in H; [|discriminate H].
  inversion H; subst found st'. clear H.
  destruct (find_some _ _ Ef) as [Hrow Hid]. apply Z.eqb_eq in Hid.
  rewrite Forall_forall in Hf. destruct (Hf _ Hin) as (Hge & _ & _).
  subst st0. cbn in Hge, Ht.
  assert (Hnew : In row rows).
  { rewrite Ht in Hrow. apply in_app_or in Hrow.
    destruct Hrow as [Hold|Hnew]; [|exact Hnew].
    rewrite Forall_forall in Hahead. specialize (Hahead _ Hold). lia. }
  destruct (Hf _ Hnew) as (_ & Hact & _).
  split; [exact Hact|]. cbn [tasks set_db_calls set_in_transaction].
  rewrite Hid. exact Ef.
Qed.

(** X10.  A row that [create_item] returned is returned by [get_item] for its
    id, run in the state the create left, when the round trip succeeds. *)
Theorem created_row_can_be_fetched
    (env env' : Env) (st st1 : State) (task : TaskCreate.t) (row : Task.t) :
  sequence_ahead st ->
  create_item task env st = (Ok row, st1) ->
  db_fault env' (db_calls st1) = None ->
  exists st2, get_item (Task.id row) env' st1 = (Ok row, st2).
Proof.
  intros Hahead Hc Hdb.
  destruct (create_item_ok env st task row st1 Hahead Hc) as [Hact Hfind].
  rewrite get_item_run by exact Hdb.
  rewrite (find_conj _ Task.is_active _ _ Hfind Hact).
  destruct (find_some _ _ Hfind) as [Hin _].
  rewrite (not_an_id_stored _ _ Hin). eexists. reflexivity.
Qed.

(** The sample row, fetched after its create. *)
Lemma sample_row_is_fetched_after_its_create :
  exists st2,
    get_item 1 steady_env (snd (create_item sample_task steady_env warm_state))
    = (Ok sample_row, st2).
Proof.
  apply (created_row_can_be_fetched steady_env steady_env warm_state
           (snd (create_item sample_task steady_env warm_state)) sample_task sample_row).
  - split; [reflexivity|constructor].
  - vm_compute. reflexivity.
  - reflexivity.
Defined.

(** X11.  [POST /items] through the router, with the engine created and three
    successful round trips (commit, refresh, and the commit of [get_db]):
    the answer is 201 with [created_row], the one row appended to the
    table; the session is released. *)
Theorem post_items_creates_the_row
    (env : Env) (st : State) (body : value) (task : TaskCreate.t) :
  validate_TaskCreate body = Some task ->
  In (TaskCreate.status task) ["pending"; "in_progress"; "completed"] ->
  engine st = true ->
  sequence_ahead st ->
  db_fault env (db_calls st) = None ->
  db_fault env (S (db_calls st)) = None ->
  db_fault env (S (S (db_calls st))) = None ->
  exists st',
    app (POST_items body) env st
    = (mkResponse 201 (JTask (created_row env st task)), st')
    /\ tasks st' = (tasks st ++ [created_row env st task])%list
    /\ next_id st' = (next_id st + 1)%Z
    /\ session_new st' = []
    /\ in_transaction st' = false.
Proof.
  intros Hbody Hv Hwarm Hahead Hf1 Hf2 Hf3.
  unfold app, endpoint. rewrite get_db_warm by exact Hwarm. rewrite Hbody.
  destruct (create_item_run env (rollback_state st) task Hv Hahead
              eq_refl Hf1 Hf2) as (st1 & E & Ht & Hid & Hs & Hd).
  rewrite session_scope_run, (bind_ok _ _ _ _ _ _ E). cbn [ret].
  assert (Hc : exists st2, session_commit env st1 = (Ok [], st2)
                 /\ tasks st2 = tasks st1 /\ next_id st2 = next_id st1).
  { destruct (in_transaction st1) eqn:Et.
    - rewrite (session_commit_busy env st1 (or_intror Et)), Hs, Hd.
      cbn [db_calls rollback_state set_in_transaction set_session_new] in Hf3 |- *.
      rewrite Hf3. cbn.
      eexists. split; [reflexivity|]. split; reflexivity.
    - rewrite (session_commit_idle env st1 Hs Et). eexists. repeat split. }
  destruct Hc as (st2 & Ec & Ht2 & Hid2). rewrite Ec.
  eexists. split; [reflexivity|]. cbn. rewrite Ht2, Hid2. repeat split; assumption.
Qed.

(** The sample body over an empty table. *)
Lemma post_items_of_the_sample_body :
  exists st',
    app (POST_items sample_body) steady_env warm_state
    = (mkResponse 201 (JTask sample_row), st')
    /\ tasks st' = [sample_row]
    /\ next_id st' = 2%Z
    /\ session_new st' = []
    /\ in_transaction st' = false.
Proof.
  apply (post_items_creates_the_row steady_env warm_state sample_body sample_task).
  - reflexivity.
  - left. reflexivity.
  - reflexivity.
  - split; [reflexivity|constructor].
  - reflexivity.
  - reflexivity.
  - reflexivity.
Defined.

(** *** Listing tasks *)

Lemma length_firstn_le {A} n (l : list A) : List.length (firstn n l) <= n.
Proof.
  revert l. induction n as [|n IH]; intros [|x l]; cbn; try lia.
  specialize (IH l). lia.
Qed.

Lemma incl_firstn {A} n (l : list A) : incl (firstn n l) l.
Proof.
  revert l. induction n as [|n IH]; intros [|x l]; cbn; intros y Hy;
    try contradiction.
  destruct Hy as [->|Hy]; [left; reflexivity|right; apply IH, Hy].
Qed.

Lemma incl_skipn {A} n (l : list A) : incl (skipn n l) l.
Proof.
  revert l. induction n as [|n IH]; intros [|x l]; cbn; intros y Hy;
    try contradiction; try exact Hy.
  right. apply IH, Hy.
Qed.

Lemma firstn_plus {A} a b (l : list A) :
  firstn (a + b) l = (firstn a l ++ firstn b (skipn a l))%list.
Proof.
  revert l. induction a as [|a IH]; intros l; [reflexivity|].
  destruct l as [|x l]; cbn; [rewrite firstn_nil; reflexivity|].
  rewrite IH. reflexivity.
Qed.

Lemma items_query_page skip limit status rows :
  select (items_query skip limit status) rows
  = page skip limit (filter (shown status) rows).
Proof.
  unfold select, page, items_query, shown.
  destruct status as [s|]; [destruct (truthy s)|];
    cbn [Query.limit Query.offset query_limit query_offset apply_limit apply_offset];
    f_equal; f_equal; apply filter_ext; intros row; cbn;
    rewrite ?andb_true_r; reflexivity.
Qed.

Lemma get_items_ok env st skip limit status rows st' :
  get_items skip limit status env st = (Ok rows, st') ->
  rows = page skip limit (filter (shown status) (tasks st))
  /\ tasks st' = tasks st
  /\ next_id st' = next_id st
  /\ (0 <= skip)%Z /\ (0 <= limit)%Z.
Proof.
  unfold get_items, query_all, try_except. rewrite execute_run.
  destruct (db_fault env _); [discriminate|].
  destruct (refusal _ _ (tasks st)) eqn:En; [discriminate|].
  intros H. inversion H; subst. cbn [tasks next_id set_db_calls set_in_transaction].
  destruct (refusal_none_inv _ (items_query skip limit status) (tasks st) skip limit
              eq_refl eq_refl En) as [Hs Hl].
  split; [apply items_query_page|]. repeat split; lia.
Qed.

(** X12.  What [get_items] returns holds at most [limit] rows, each of them
    stored, and the table and the sequence are as before. *)
Theorem get_items_returns_one_page
    (env : Env) (st : State) (skip limit : Z) (status : option string)
    (rows : list Task.t) (st' : State) :
  get_items skip limit status env st = (Ok rows, st') ->
  (Z.of_nat (List.length rows) <= limit)%Z
  /\ incl rows (tasks st)
  /\ tasks st' = tasks st
  /\ next_id st' = next_id st.
Proof.
  intros H. destruct (get_items_ok _ _ _ _ _ _ _ H) as (-> & Ht & Hn & Hs & Hl).
  split; [|split; [|split; assumption]].
  - unfold page.
    pose proof (length_firstn_le (Z.to_nat limit)
                  (skipn (Z.to_nat skip) (filter (shown status) (tasks st)))) as Hlen.
    lia.
  - unfold page. intros row Hin. apply incl_firstn in Hin. apply incl_skipn in Hin.
    apply filter_In in Hin. apply Hin.
Qed.

(** The first page of size one of a table of two rows. *)
Lemma first_page_of_two_rows :
  (Z.of_nat (List.length [sample_row]) <= 1)%Z
  /\ incl [sample_row] (tasks two_row_state)
  /\ tasks (snd (get_items 0 1 None steady_env two_row_state)) = tasks two_row_state
  /\ next_id (snd (get_items 0 1 None steady_env two_row_state)) = next_id two_row_state.
Proof.
  apply (get_items_returns_one_page steady_env two_row_state 0 1 None [sample_row]
           (snd (get_items 0 1 None steady_env two_row_state))).
  vm_compute. reflexivity.
Defined.

(** X13.  Over the same table and with the same status, the page at [skip] of
    [limit1] rows followed by the page at [skip + limit1] of [limit2] rows
    is the page at [skip] of [limit1 + limit2] rows. *)
Theorem consecutive_pages_join
    (env1 env2 env3 : Env) (st1 st2 st3 st1' st2' st3' : State)
    (skip limit1 limit2 : Z) (status : option string)
    (first second both : list Task.t) :
  tasks st2 = tasks st1 ->
  tasks st3 = tasks st1 ->
  get_items skip limit1 status env1 st1 = (Ok first, st1') ->
  get_items (skip + limit1) limit2 status env2 st2 = (Ok second, st2') ->
  get_items skip (limit1 + limit2) status env3 st3 = (Ok both, st3') ->
  both = (first ++ second)%list.
Proof.
  intros Ht2 Ht3 H1 H2 H3.
  destruct (get_items_ok _ _ _ _ _ _ _ H1) as (-> & _ & _ & Hs & Hl1).
  destruct (get_items_ok _ _ _ _ _ _ _ H2) as (-> & _ & _ & _ & Hl2).
  destruct (get_items_ok _ _ _ _ _ _ _ H3) as (-> & _ & _ & _ & _).
  rewrite Ht2, Ht3. unfold page.
  rewrite !Z2Nat.inj_add by lia.
  rewrite firstn_plus, skipn_skipn.
  rewrite (Nat.add_comm (Z.to_nat limit1) (Z.to_nat skip)). reflexivity.
Qed.

(** Two pages of one row each, over a table of two rows. *)
Lemma two_pages_of_one_row_join :
  [sample_row; second_row] = ([sample_row] ++ [second_row])%list.
Proof.
  apply (consecutive_pages_join steady_env steady_env steady_env
           two_row_state two_row_state two_row_state
           (snd (get_items 0 1 None steady_env two_row_state))
           (snd (get_items (0 + 1) 1 None steady_env two_row_state))
           (snd (get_items 0 (1 + 1) None steady_env two_row_state))
           0 1 1 None [sample_row] [second_row] [sample_row; second_row]).
  - reflexivity.
  - reflexivity.
  - vm_compute. reflexivity.
  - vm_compute. reflexivity.
  - vm_compute. reflexivity.
Defined.

(** *** Database failures seen through the routes *)

Lemma execute_fails q env st f :
  db_fault env (db_calls st) = Some f ->
  execute q env st
  = (Raise (exn_of_db_fault f), set_db_calls (S (db_calls st)) (set_in_transaction true st)).
Proof.
  intros Hf. rewrite execute_run, Hf. reflexivity.
Qed.

(** X14.  [GET /items] with valid parameters whose query fails: the answer is
    500 and its detail carries the text of the database exception; the
    table is unchanged and the session released. *)
Theorem list_route_shows_the_database_error
    (env : Env) (st : State) (skip limit : option Z) (status : option string)
    (skip' limit' : Z) (f : DbFault) :
  engine st = true ->
  validate_skip skip = Some skip' ->
  validate_limit limit = Some limit' ->
  db_fault env (db_calls st) = Some f ->
  exists st',
    app (GET_items skip limit status) env st
    = (mkResponse 500
         (JDetail ("Failed to fetch items: " ++ str_exn (exn_of_db_fault f))), st')
    /\ tasks st' = tasks st
    /\ in_transaction st' = false.
Proof.
  intros Hwarm Hs Hl Hf. unfold app, endpoint.
  rewrite get_db_warm by exact Hwarm. rewrite Hs, Hl, session_scope_run.
  unfold get_items, query_all. unfold bind at 1. unfold try_except.
  rewrite (execute_fails _ env (rollback_state st) f Hf).
  eexists. split.
  - destruct f; reflexivity.
  - split; reflexivity.
Qed.

(** The list route over an unavailable database. *)
Lemma list_route_with_a_failed_query :
  exists st',
    app (GET_items None None None) unavailable_env warm_state
    = (mkResponse 500 (JDetail "Failed to fetch items: database unavailable"), st')
    /\ tasks st' = tasks warm_state
    /\ in_transaction st' = false.
Proof.
  apply (list_route_shows_the_database_error unavailable_env warm_state None None None
           0%Z 100%Z (DbOperational "database unavailable")).
  - reflexivity.
  - reflexivity.
  - reflexivity.
  - reflexivity.
Defined.

(** X15.  [GET /items/{id}] whose query fails: the exception reaches
    [global_exception_handler], which answers 500; the text of the
    exception is in the body exactly when [DEBUG], lower-cased, is [true]. *)
Theorem get_route_withholds_the_database_error
    (env : Env) (st : State) (item_id : Z) (f : DbFault) :
  engine st = true ->
  db_fault env (db_calls st) = Some f ->
  exists error st',
    app (GET_item item_id) env st = (mkResponse 500 (JUnexpected error), st')
    /\ tasks st' = tasks st
    /\ (DEBUG env = None -> error = None)
    /\ (forall d, DEBUG env = Some d -> lower d <> "true" -> error = None)
    /\ (forall d, DEBUG env = Some d -> lower d = "true" ->
        error = Some (str_exn (exn_of_db_fault f))).
Proof.
  intros Hwarm Hf. unfold app, endpoint.
  rewrite get_db_warm by exact Hwarm. rewrite session_scope_run.
  unfold get_item, query_first. unfold bind at 1 2 3.
  rewrite (execute_fails _ env (rollback_state st) f Hf).
  exists (if String.eqb (lower (match DEBUG env with Some d => d | None => "false" end)) "true"
          then Some (str_exn (exn_of_db_fault f)) else None).
  eexists. split; [destruct f; reflexivity|]. split; [reflexivity|].
  split; [|split].
  - intros ->. reflexivity.
  - intros d -> Hd. destruct (String.eqb_spec (lower d) "true"); [contradiction|reflexivity].
  - intros d -> Hd. rewrite Hd. reflexivity.
Qed.

(** The get route over an unavailable database, with [DEBUG] unset. *)
Lemma get_route_with_a_failed_query :
  exists error st',
    app (GET_item 1) unavailable_env warm_state = (mkResponse 500 (JUnexpected error), st')
    /\ tasks st' = tasks warm_state
    /\ (DEBUG unavailable_env = None -> error = None)
    /\ (forall d, DEBUG unavailable_env = Some d -> lower d <> "true" -> error = None)
    /\ (forall d, DEBUG unavailable_env = Some d -> lower d = "true" ->
        error = Some (str_exn (exn_of_db_fault (DbOperational "database unavailable")))).
Proof.
  apply (get_route_withholds_the_database_error unavailable_env warm_state 1
           (DbOperational "database unavailable")).
  - reflexivity.
  - reflexivity.
Defined.

(** *** Object-store keys *)

Lemma generate_unique_filename_whole env st original_filename :
  generate_unique_filename original_filename env st
  = (Ok (strftime_Ymd_HMS (utcnow_at env (utcnow_calls st)) ++ "_"
         ++ take 8 (str_uuid (uuid4_at env (uuid4_calls st))) ++ "_"
         ++ original_filename),
     set_uuid4_calls (S (uuid4_calls st)) (set_utcnow_calls (S (utcnow_calls st)) st)).
Proof.
  destruct (generate_unique_filename_run env st original_filename)
    as (final & E & Hdot & Hnodot).
  rewrite E. destruct (contains "." original_filename) eqn:Hc.
  - destruct (Hdot eq_refl) as (name & ext & _ & Heq & _ & ->). rewrite <- Heq. reflexivity.
  - rewrite (Hnodot eq_refl). reflexivity.
Qed.

(** X16.  [generate_unique_filename] always returns: the timestamp, an
    underscore, eight characters of the UUID, an underscore and the
    original filename as it was given, with or without a dot; one reading
    of the clock and one UUID are used. *)
Theorem generate_unique_filename_keeps_the_filename
    (env : Env) (st : State) (original_filename : string) :
  generate_unique_filename original_filename env st
  = (Ok (strftime_Ymd_HMS (utcnow_at env (utcnow_calls st)) ++ "_"
         ++ take 8 (str_uuid (uuid4_at env (uuid4_calls st))) ++ "_"
         ++ original_filename),
     set_uuid4_calls (S (uuid4_calls st)) (set_utcnow_calls (S (utcnow_calls st)) st))
  /\ String.length (take 8 (str_uuid (uuid4_at env (uuid4_calls st)))) = 8
  /\ is_Ymd_HMS (strftime_Ymd_HMS (utcnow_at env (utcnow_calls st))) = true.
Proof.
  split; [apply generate_unique_filename_whole|].
  split; [apply unique_id_length|apply strftime_shape].
Qed.

Lemma length_strftime dt : String.length (strftime_Ymd_HMS dt) = 15.
Proof. reflexivity. Qed.

Lemma append_inj_length a b x y :
  String.length a = String.length b -> a ++ x = b ++ y -> a = b /\ x = y.
Proof.
  revert b. induction a as [|c a IH]; intros [|d b] Hl H; cbn in *; try discriminate.
  - split; [reflexivity|exact H].
  - inversion H; subst. destruct (IH b) as [-> ->]; [lia|assumption|]. split; reflexivity.
Qed.

Lemma underscore_inj x y : "_" ++ x = "_" ++ y -> x = y.
Proof. cbn. intros H. injection H as H. exact H. Qed.

(** X17.  Two results of [generate_unique_filename] are equal exactly when the
    timestamps to the second, the eight characters of the UUIDs and the
    original filenames are. *)
Theorem unique_filenames_collide_exactly_when
    (env env' : Env) (st st' : State) (filename filename' : string) :
  fst (generate_unique_filename filename env st)
    = fst (generate_unique_filename filename' env' st')
  <-> strftime_Ymd_HMS (utcnow_at env (utcnow_calls st))
        = strftime_Ymd_HMS (utcnow_at env' (utcnow_calls st'))
      /\ take 8 (str_uuid (uuid4_at env (uuid4_calls st)))
         = take 8 (str_uuid (uuid4_at env' (uuid4_calls st')))
      /\ filename = filename'.
Proof.
  rewrite !generate_unique_filename_whole. cbn [fst]. split.
  - intros H.
    assert (H' : strftime_Ymd_HMS (utcnow_at env (utcnow_calls st))
                   ++ "_" ++ take 8 (str_uuid (uuid4_at env (uuid4_calls st)))
                   ++ "_" ++ filename
                 = strftime_Ymd_HMS (utcnow_at env' (utcnow_calls st'))
                   ++ "_" ++ take 8 (str_uuid (uuid4_at env' (uuid4_calls st')))
                   ++ "_" ++ filename') by congruence.
    clear H. apply append_inj_length in H'; [|rewrite !length_strftime; reflexivity].
    destruct H' as [Hts H']. split; [exact Hts|].
    apply underscore_inj in H'. rename H' into H''.
    apply append_inj_length in H''; [|rewrite !unique_id_length; reflexivity].
    destruct H'' as [Hu H'']. split; [exact Hu|]. apply underscore_inj, H''.
  - intros (-> & -> & ->). reflexivity.
Qed.

(** *** The upload route *)

Lemma s3_request_run env st c :
  s3_request c env st
  = match s3_fault env (List.length (s3_calls st)) with
    | Some f => (Raise (exn_of_s3_fault f), set_s3_calls (s3_calls st ++ [c])%list st)
    | None =>
        (Ok tt, set_objects (objects st ++ [c])%list
                  (set_s3_calls (s3_calls st ++ [c])%list st))
    end.
Proof. unfold s3_request. destruct (s3_fault env _); reflexivity. Qed.

(** [upload_file], by its checks. *)
Lemma upload_file_run file env st :
  upload_file file env st
  = match UploadFile.filename file with
    | Some filename =>
        if truthy filename then
          if (max_size <? Z.of_nat (String.length (UploadFile.content file)))%Z
          then (Raise (HTTPException 413 "File too large. Maximum size is 10MB"), st)
          else
            match S3_BUCKET env with
            | Some bucket =>
                if truthy bucket then
                  (Raise (HTTPException 500
                            ("Failed to upload file: " ++ unexpected_keyword)),
                   set_s3_calls
                     (s3_calls st
                      ++ [S3.mk S3.upload_fileobj bucket
                            ("uploads" ++ "/"
                             ++ strftime_Ymd_HMS (utcnow_at env (utcnow_calls st)) ++ "_"
                             ++ take 8 (str_uuid (uuid4_at env (uuid4_calls st))) ++ "_"
                             ++ filename)
                            (UploadFile.content file)
                            (if truthy_opt (UploadFile.content_type file)
                             then UploadFile.content_type file else None)])%list
                     (set_uuid4_calls (S (uuid4_calls st))
                        (set_utcnow_calls (S (utcnow_calls st)) st)))
                else
                  (Raise (HTTPException 500 "S3_BUCKET environment variable is not set"),
                   st)
            | None =>
                (Raise (HTTPException 500 "S3_BUCKET environment variable is not set"), st)
            end
        else (Raise (HTTPException 400 "No filename provided"), st)
    | None => (Raise (HTTPException 400 "No filename provided"), st)
    end.
Proof.
  unfold upload_file. destruct (UploadFile.filename file) as [filename|]; [|reflexivity].
  destruct (truthy filename); [|reflexivity].
  unfold try_except at 1.
  destruct (max_size <? Z.of_nat (String.length (UploadFile.content file)))%Z;
    [reflexivity|].
  unfold bind at 1. unfold upload_file_to_s3.
  rewrite (bind_ok _ _ _ _ _ _ (get_s3_client_run env st)).
  unfold bind at 1. unfold get_s3_bucket, asks. unfold bind at 1.
  destruct (S3_BUCKET env) as [bucket|]; [|reflexivity].
  destruct (truthy bucket); [|reflexivity].
  cbn [ret]. rewrite (bind_ok _ _ _ _ _ _ (generate_unique_filename_whole env st filename)).
  reflexivity.
Qed.

(** X18.  [POST /upload] never answers 200 and never stores an object, and
    it leaves the table as it was.  For a named file of at most 10 MiB with
    a bucket configured, the one call to [upload_fileobj] is made with the
    keywords [Bucket], [Key] and [Body]; Python raises [TypeError] for
    [Body], and the route answers 500 with the text of that error, whatever
    the object store would have done. *)
Theorem upload_route_never_stores_an_object
    (env : Env) (st : State) (file : option UploadFile.t) :
  status_code (fst (app (POST_upload file) env st)) <> 200%Z
  /\ objects (snd (app (POST_upload file) env st)) = objects st
  /\ tasks (snd (app (POST_upload file) env st)) = tasks st
  /\ (forall f filename bucket,
        file = Some f ->
        UploadFile.filename f = Some filename -> filename <> "" ->
        (Z.of_nat (String.length (UploadFile.content f)) <= max_size)%Z ->
        S3_BUCKET env = Some bucket -> bucket <> "" ->
        fst (app (POST_upload file) env st)
        = mkResponse 500 (JDetail ("Failed to upload file: " ++ unexpected_keyword))
        /\ exists call,
             calls_since st (snd (app (POST_upload file) env st)) = [call]
             /\ S3.op call = S3.upload_fileobj
             /\ S3.Bucket call = bucket
             /\ S3.Body call = UploadFile.content f).
Proof.
  unfold app, endpoint. destruct file as [f|].
  2:{ cbn. split; [discriminate|]. split; [reflexivity|]. split; [reflexivity|].
      intros f filename bucket H. discriminate H. }
  unfold bind at 1 2 3 4 5. rewrite (upload_file_run f env st).
  destruct (UploadFile.filename f) as [name|] eqn:En.
  2:{ cbn. split; [discriminate|]. split; [reflexivity|]. split; [reflexivity|].
      intros f0 filename bucket Hf Hname. inversion Hf; subst f0.
      rewrite En in Hname. discriminate Hname. }
  destruct (truthy name) eqn:Et.
  2:{ cbn. split; [discriminate|]. split; [reflexivity|]. split; [reflexivity|].
      intros f0 filename bucket Hf Hname Hne. inversion Hf; subst f0.
      rewrite En in Hname. inversion Hname; subst name.
      destruct filename; [congruence|cbn in Et; discriminate Et]. }
  destruct (max_size <? Z.of_nat (String.length (UploadFile.content f)))%Z eqn:Es.
  { cbn. split; [discriminate|]. split; [reflexivity|]. split; [reflexivity|].
    intros f0 filename bucket Hf _ _ Hsize. inversion Hf; subst f0.
    apply Z.ltb_lt in Es. exfalso. unfold max_size in Es. lia. }
  destruct (S3_BUCKET env) as [b|] eqn:Eb.
  2:{ cbn. split; [discriminate|]. split; [reflexivity|]. split; [reflexivity|].
      intros f0 filename bucket _ _ _ _ H. discriminate H. }
  destruct (truthy b) eqn:Etb.
  2:{ cbn. split; [discriminate|]. split; [reflexivity|]. split; [reflexivity|].
      intros f0 filename bucket _ _ _ _ H Hne. inversion H; subst b.
      destruct bucket; [congruence|cbn in Etb; discriminate Etb]. }
  cbn [fst snd exception_response status_code objects tasks set_s3_calls set_uuid4_calls
       set_utcnow_calls].
  split; [discriminate|]. split; [reflexivity|]. split; [reflexivity|].
  intros f0 filename bucket Hf _ _ _ Hb _. inversion Hf; subst f0. inversion Hb; subst b.
  split; [reflexivity|]. eexists. split.
  - apply calls_since_one. reflexivity.
  - split; [reflexivity|]. split; reflexivity.
Qed.

(** A small named file, with a bucket configured and a store that accepts
    every call. *)
Lemma upload_of_a_small_file :
  fst (app (POST_upload (Some sample_file)) steady_env warm_state)
  = mkResponse 500
      (JDetail "Failed to upload file: upload_fileobj() got an unexpected keyword argument 'Body'")
  /\ objects (snd (app (POST_upload (Some sample_file)) steady_env warm_state)) = [].
Proof.
  destruct (upload_route_never_stores_an_object steady_env warm_state (Some sample_file))
    as (_ & Ho & _ & H).
  split; [|exact Ho].
  apply (H sample_file "notes.txt" "nexus-files").
  - reflexivity.
  - reflexivity.
  - discriminate.
  - vm_compute. discriminate.
  - reflexivity.
  - discriminate.
Defined.

(** *** The backup route *)

Lemma active_query_selects rows :
  select (query_filter Task.is_active query_Task) rows = filter Task.is_active rows.
Proof.
  unfold select. cbn [Query.limit Query.offset query_filter query_Task apply_limit
    apply_offset]. apply filter_ext. intros row. cbn. apply andb_true_r.
Qed.

(** X19.  [POST /backup] with the engine created, a bucket configured, and the
    database and the store working: the answer is 200 with the count of
    the active rows, the URL of the object and the time of the second
    reading of the clock; the object stored is the document of the active
    rows under the key of the first reading; table and sequence are as
    before. *)
Theorem backup_route_snapshots_the_active_rows
    (env : Env) (st : State) (bucket : string) :
  engine st = true ->
  S3_BUCKET env = Some bucket ->
  bucket <> "" ->
  db_fault env (db_calls st) = None ->
  db_fault env (S (db_calls st)) = None ->
  s3_fault env (List.length (s3_calls st)) = None ->
  let rows := filter Task.is_active (tasks st) in
  let now := utcnow_at env (utcnow_calls st) in
  let now' := utcnow_at env (S (utcnow_calls st)) in
  let key := "backups/" ++ "tasks" ++ "_backup_" ++ strftime_Ymd_HMS now ++ ".json" in
  let region := match AWS_REGION env with Some r => r | None => "us-east-1" end in
  exists st',
    app POST_backup env st
    = (mkResponse 200
         (JBackup (BackupResponse.mk true
                     ("https://" ++ bucket ++ ".s3." ++ region ++ ".amazonaws.com/" ++ key)
                     (Z.of_nat (List.length rows)) (isoformat now')
                     "Backup created successfully")), st')
    /\ objects st'
       = (objects st
          ++ [S3.mk S3.put_object bucket key
                (json_dumps (backup_content (isoformat now') "tasks" (map to_dict rows)))
                (Some "application/json")])%list
    /\ tasks st' = tasks st
    /\ next_id st' = next_id st.
Proof.
  intros Hwarm Hb Hbne Hd1 Hd2 Hs. cbv zeta.
  unfold app, endpoint. rewrite get_db_warm by exact Hwarm. rewrite session_scope_run.
  unfold bind at 1. unfold trigger_backup, try_except, query_all.
  unfold bind at 1. rewrite execute_ok; [|exact Hd1|reflexivity].
  rewrite active_query_selects.
  cbn [tasks rollback_state set_in_transaction set_session_new].
  unfold bind at 1. unfold create_backup.
  rewrite (bind_ok _ _ _ _ _ _ (get_s3_client_run env _)).
  rewrite (bind_ok _ _ _ _ _ _ (get_s3_bucket_set env _ bucket Hb Hbne)).
  unfold try_except, bind, utcnow, aws_region, asks, ret. rewrite s3_request_run.
  cbn [s3_calls set_utcnow_calls set_db_calls set_in_transaction set_session_new
       rollback_state utcnow_calls fst snd].
  rewrite Hs. rewrite length_map.
  unfold session_commit, connection_is_lost, bind, gets.
  cbn [session_new in_transaction db_calls set_objects set_s3_calls set_utcnow_calls
       set_db_calls set_in_transaction set_session_new rollback_state].
  rewrite Hd2. rewrite db_round_trip_run.
  cbn [db_calls set_objects set_s3_calls set_utcnow_calls set_db_calls
       set_in_transaction set_session_new rollback_state].
  rewrite Hd2. cbn. eexists. split; [reflexivity|]. repeat split.
Qed.

(** The backup of a table of one row. *)
Lemma backup_of_one_row :
  exists st',
    app POST_backup steady_env one_row_state
    = (mkResponse 200
         (JBackup (BackupResponse.mk true
                     "https://nexus-files.s3.us-east-1.amazonaws.com/backups/tasks_backup_20260115_120000.json"
                     1 "2026-01-15T12:00:00" "Backup created successfully")), st')
    /\ objects st'
       = [ S3.mk S3.put_object "nexus-files" "backups/tasks_backup_20260115_120000.json"
             (json_dumps (backup_content "2026-01-15T12:00:00" "tasks" [to_dict sample_row]))
             (Some "application/json") ]
    /\ tasks st' = [sample_row]
    /\ next_id st' = 2%Z.
Proof.
  apply (backup_route_snapshots_the_active_rows steady_env one_row_state "nexus-files").
  - reflexivity.
  - reflexivity.
  - discriminate.
  - reflexivity.
  - reflexivity.
  - reflexivity.
Defined.

(** X20.  [POST /backup] with no bucket configured: the query is run first, then
    the answer is 500 with the message of [get_s3_bucket]; no call to the
    store is issued. *)
Theorem backup_route_queries_before_it_checks_the_bucket
    (env : Env) (st : State) :
  engine st = true ->
  S3_BUCKET env = None ->
  db_fault env (db_calls st) = None ->
  exists st',
    app POST_backup env st
    = (mkResponse 500 (JDetail "S3_BUCKET environment variable is not set"), st')
    /\ db_calls st' = S (db_calls st)
    /\ s3_calls st' = s3_calls st
    /\ objects st' = objects st
    /\ tasks st' = tasks st.
Proof.
  intros Hwarm Hb Hd.
  unfold app, endpoint. rewrite get_db_warm by exact Hwarm. rewrite session_scope_run.
  unfold bind at 1. unfold trigger_backup, try_except, query_all.
  unfold bind at 1. rewrite execute_ok; [|exact Hd|reflexivity].
  unfold bind at 1. unfold create_backup.
  rewrite (bind_ok _ _ _ _ _ _ (get_s3_client_run env _)).
  unfold bind at 1. unfold get_s3_bucket, bind, asks. rewrite Hb.
  eexists. split; [reflexivity|]. repeat split.
Qed.

(** A backup request with no bucket configured. *)
Lemma backup_without_a_bucket :
  exists st',
    app POST_backup unconfigured_env warm_state
    = (mkResponse 500 (JDetail "S3_BUCKET environment variable is not set"), st')
    /\ db_calls st' = S (db_calls warm_state)
    /\ s3_calls st' = s3_calls warm_state
    /\ objects st' = objects warm_state
    /\ tasks st' = tasks warm_state.
Proof.
  apply (backup_route_queries_before_it_checks_the_bucket unconfigured_env warm_state).
  - reflexivity.
  - reflexivity.
  - reflexivity.
Defined.

(** *** The primary key *)

Lemma NoDup_snoc {A} (l : list A) (x : A) :
  NoDup l -> ~ In x l -> NoDup (l ++ [x])%list.
Proof.
  induction 1 as [|y l Hy Hd IH]; intros Hx; cbn.
  - constructor; [intros []|constructor].
  - constructor.
    + intros Hin. apply in_app_or in Hin. destruct Hin as [Hin|[->|[]]].
      * exact (Hy Hin).
      * apply Hx. left. reflexivity.
    + apply IH. intros Hin. apply Hx. right. exact Hin.
Qed.

Lemma keeps_key_refl st : keeps_key st st.
Proof. intros H. exact H. Qed.

Lemma keeps_key_trans a b c : keeps_key a b -> keeps_key b c -> keeps_key a c.
Proof. intros Hab Hbc H. apply Hbc, Hab, H. Qed.

Lemma keeps_key_counters st st' :
  tasks st' = tasks st -> next_id st' = next_id st -> s3_calls st' = s3_calls st ->
  keeps_key st st'.
Proof.
  intros Ht Hn _ (Ha & Hp & Hd). unfold primary_key, sequence_ahead in *.
  rewrite Ht, Hn. split; [exact Ha|]. split; assumption.
Qed.

Lemma keeps_key_insert_row p : preserves keeps_key (insert_row p).
Proof.
  intros env st (Ha & Hp & Hd).
  pose proof (keeps_ahead_insert_row p env st Ha) as Ha'.
  assert (Ht : exists row, Task.id row = next_id st
                 /\ tasks (snd (insert_row p env st)) = (tasks st ++ [row])%list).
  { eexists. split; [|reflexivity]. reflexivity. }
  destruct Ht as (row & Hid & Ht). destruct Ha as [Hpos Hall].
  split; [exact Ha'|]. rewrite Ht. split.
  - apply Forall_app. split; [exact Hp|]. constructor; [lia|constructor].
  - rewrite map_app. cbn [map]. apply NoDup_snoc; [exact Hd|].
    intros Hin. apply in_map_iff in Hin. destruct Hin as (old & Hold & Hin).
    rewrite Forall_forall in Hall. specialize (Hall _ Hin). lia.
Qed.

Lemma keeps_key_rolled_back ps : preserves keeps_key (insert_rows_rolled_back ps).
Proof.
  intros env st (Ha & Hp & Hd).
  pose proof (keeps_ahead_rolled_back ps env st Ha) as Ha'.
  destruct (insert_rows_rolled_back_spec ps env st) as (Ht & _).
  split; [exact Ha'|]. rewrite Ht. split; assumption.
Qed.

Lemma keeps_key_s3_request c : preserves keeps_key (s3_request c).
Proof.
  intros env st H. unfold s3_request. destruct (s3_fault env _); exact H.
Qed.

Lemma keeps_key_endpoint req : preserves keeps_key (endpoint req).
Proof.
  exact (preserves_endpoint keeps_key keeps_key_refl keeps_key_trans
           keeps_key_counters keeps_key_insert_row keeps_key_rolled_back
           keeps_key_s3_request req).
Qed.

Lemma reachable_primary_key st : reachable st -> primary_key st.
Proof.
  induction 1 as [|st req env _ IH].
  - split; [split; [reflexivity|constructor]|]. split; constructor.
  - rewrite app_state. apply keeps_key_endpoint. exact IH.
Qed.

Lemma reachable_active st :
  reachable st -> Forall (fun row => Task.is_active row = true) (tasks st).
Proof.
  induction 1 as [|st req env _ IH]; [constructor|].
  destruct (extends_endpoint req env st) as (added & Ht & Ha).
  rewrite app_state, Ht. apply Forall_app. split; assumption.
Qed.

Lemma find_by_key (l : list Task.t) (row : Task.t) :
  NoDup (map Task.id l) -> In row l -> Task.is_active row = true ->
  find (fun r => (Task.id r =? Task.id row)%Z && Task.is_active r) l = Some row.
Proof.
  induction l as [|a l IH]; intros Hd Hin Ha; [contradiction|].
  cbn [map] in Hd. inversion Hd as [|? ? Hnot Hd']; subst.
  cbn [find]. destruct Hin as [->|Hin].
  - rewrite Z.eqb_refl, Ha. reflexivity.
  - destruct (Z.eqb_spec (Task.id a) (Task.id row)) as [e|ne].
    + exfalso. apply Hnot. rewrite e. apply in_map, Hin.
    + cbn. apply IH; assumption.
Qed.

(** X21.  In every state reached from the start by answering requests the ids of
    the stored rows are pairwise distinct, positive and below the sequence,
    every row is active, and [get_item] for the id of a stored row returns
    that row when the round trip succeeds. *)
Theorem stored_rows_are_found_by_their_ids (st : State) :
  reachable st ->
  NoDup (map Task.id (tasks st))
  /\ Forall (fun row => (0 < Task.id row < next_id st)%Z /\ Task.is_active row = true)
       (tasks st)
  /\ forall env row,
       In row (tasks st) -> db_fault env (db_calls st) = None ->
       fst (get_item (Task.id row) env st) = Ok row.
Proof.
  intros Hr. destruct (reachable_primary_key st Hr) as ([Hpos Hall] & Hp & Hd).
  pose proof (reachable_active st Hr) as Ha.
  split; [exact Hd|]. split.
  - rewrite Forall_forall in *. intros row Hin.
    specialize (Hall _ Hin). specialize (Hp _ Hin). specialize (Ha _ Hin).
    split; [lia|exact Ha].
  - intros env row Hin Hdb. rewrite get_item_run by exact Hdb.
    rewrite Forall_forall in Ha. rewrite (find_by_key _ _ Hd Hin (Ha _ Hin)).
    rewrite (not_an_id_stored _ _ Hin). reflexivity.
Qed.

(** The state after one create request. *)
Lemma rows_after_one_create :
  NoDup (map Task.id (tasks state_after_one_create))
  /\ Forall (fun row => (0 < Task.id row < next_id state_after_one_create)%Z
                        /\ Task.is_active row = true)
       (tasks state_after_one_create)
  /\ forall env row,
       In row (tasks state_after_one_create) ->
       db_fault env (db_calls state_after_one_create) = None ->
       fst (get_item (Task.id row) env state_after_one_create) = Ok row.
Proof.
  apply (stored_rows_are_found_by_their_ids state_after_one_create).
  apply reachable_request. apply reachable_initial.
Defined.

(** *** What a request leaves alone *)

Lemma untouched_refl st : untouched st st.
Proof. repeat split. Qed.

Lemma untouched_trans a b c : untouched a b -> untouched b c -> untouched a c.
Proof.
  intros (H1 & H2 & H3) (K1 & K2 & K3). unfold untouched.
  rewrite K1, K2, K3. repeat split; assumption.
Qed.

Lemma untouched_utcnow : preserves untouched utcnow.
Proof. intros env st. repeat split. Qed.

Lemma untouched_uuid4 : preserves untouched uuid4.
Proof. intros env st. repeat split. Qed.

Lemma untouched_db_round_trip : preserves untouched db_round_trip.
Proof. intros env st. rewrite db_round_trip_run. repeat split. Qed.

Lemma untouched_s3_request c : preserves untouched (s3_request c).
Proof.
  intros env st. rewrite s3_request_run. destruct (s3_fault env _); repeat split.
Qed.

Lemma untouched_upload_fileobj_with_keywords c :
  preserves untouched (upload_fileobj_with_keywords c).
Proof. intros env st. repeat split. Qed.

Lemma untouched_transaction b : preserves untouched (modify (set_in_transaction b)).
Proof. intros env st. repeat split. Qed.

Lemma untouched_engine b : preserves untouched (modify (set_engine b)).
Proof. intros env st. repeat split. Qed.

Ltac quiet :=
  repeat first
    [ solve [ apply untouched_refl | apply untouched_trans ]
    | match goal with |- forall _, _ => intro end
    | apply preserves_ret | apply preserves_raise | apply preserves_asks
    | apply preserves_gets | apply untouched_utcnow | apply untouched_uuid4
    | apply untouched_db_round_trip | apply untouched_s3_request
    | apply untouched_upload_fileobj_with_keywords
    | apply untouched_transaction | apply untouched_engine
    | match goal with
      | |- preserves _ (match ?x with _ => _ end) => destruct x
      | |- preserves _ (bind _ _) => apply preserves_bind
      | |- preserves _ (try_except _ _) => apply preserves_try_except
      end ].

Lemma untouched_create_db_engine_loop n : forall last,
  preserves untouched (create_db_engine_loop n last).
Proof.
  induction n as [|n IH]; intros last; cbn [create_db_engine_loop].
  - quiet.
  - unfold connect_and_select_1. quiet. apply IH.
Qed.

Lemma untouched_get_engine : preserves untouched get_engine.
Proof.
  unfold get_engine, create_db_engine. quiet. apply untouched_create_db_engine_loop.
Qed.

Lemma untouched_execute q : preserves untouched (execute q).
Proof. unfold execute. quiet. Qed.

Lemma untouched_get_items skip limit status : preserves untouched (get_items skip limit status).
Proof. unfold get_items, query_all. quiet. apply untouched_execute. Qed.

Lemma untouched_get_item item_id : preserves untouched (get_item item_id).
Proof. unfold get_item, query_first. quiet. apply untouched_execute. Qed.

Lemma untouched_health_check : preserves untouched health_check.
Proof.
  unfold health_check, test_db_connection, probe, connect_and_select_1. quiet.
  apply untouched_get_engine.
Qed.

Lemma untouched_get_s3_bucket : preserves untouched get_s3_bucket.
Proof. unfold get_s3_bucket. quiet. Qed.

Lemma untouched_get_s3_client : preserves untouched get_s3_client.
Proof. unfold get_s3_client, aws_region. quiet. Qed.

Lemma untouched_upload_file file : preserves untouched (upload_file file).
Proof.
  unfold upload_file, upload_file_to_s3, generate_unique_filename, aws_region. quiet;
    first [apply untouched_get_s3_client | apply untouched_get_s3_bucket].
Qed.

Lemma untouched_trigger_backup : preserves untouched trigger_backup.
Proof.
  unfold trigger_backup, query_all, create_backup, aws_region. quiet;
    first [apply untouched_execute | apply untouched_get_s3_client
          | apply untouched_get_s3_bucket].
Qed.

Lemma session_commit_nothing_pending env st :
  session_new st = [] ->
  tasks (snd (session_commit env st)) = tasks st
  /\ next_id (snd (session_commit env st)) = next_id st.
Proof.
  intros Hn. rewrite session_commit_unfold, Hn.
  destruct (in_transaction st); [|split; reflexivity].
  destruct (db_fault env (db_calls st)) as [[msg|msg|msg]|]; split; reflexivity.
Qed.

Lemma get_db_read_only {A} (handler : M A) :
  preserves untouched handler ->
  forall env st,
    tasks (snd (get_db handler env st)) = tasks st
    /\ next_id (snd (get_db handler env st)) = next_id st.
Proof.
  intros Hh env st. unfold get_db, get_session_factory, new_session.
  destruct (untouched_get_engine env st) as (Ht & Hn & _).
  unfold bind at 1 3. destruct (get_engine env st) as [[[]|e] s1]; cbn [snd] in Ht, Hn |- *.
  2:{ split; assumption. }
  unfold bind at 1 2. cbn [modify]. rewrite session_scope_run.
  destruct (Hh env (rollback_state s1)) as (Kt & Kn & Ks).
  destruct (handler env (rollback_state s1)) as [[a|e] s2]; cbn [snd] in Kt, Kn, Ks.
  - destruct (session_commit_nothing_pending env s2 Ks) as (Ct & Cn).
    destruct (session_commit env s2) as [[rows|e] s3]; cbn [snd] in Ct, Cn |- *;
      cbn [tasks next_id rollback_state set_in_transaction set_session_new];
      cbn [tasks next_id rollback_state set_in_transaction set_session_new] in Kt, Kn;
      rewrite Ct, Cn, Kt, Kn; split; assumption.
  - cbn [snd tasks next_id rollback_state set_in_transaction set_session_new] in Kt, Kn |- *.
    rewrite Kt, Kn. split; assumption.
Qed.

(** X22.  A request that is no [POST /items] leaves the table and the id
    sequence as they were, in every environment and from every state. *)
Theorem only_a_create_request_writes_rows (req : Request) (env : Env) (st : State) :
  (exists body, req = POST_items body)
  \/ (tasks (snd (app req env st)) = tasks st
      /\ next_id (snd (app req env st)) = next_id st).
Proof.
  rewrite app_state. destruct req as [|skip limit status|body|item_id|file|];
    [right|right|left; exists body; reflexivity|right|right|right]; unfold endpoint.
  - assert (H : preserves untouched (r <- health_check ;; ret (mkResponse 200 (JHealth r)))).
    { quiet. apply untouched_health_check. }
    destruct (H env st) as (Ht & Hn & _). split; assumption.
  - apply get_db_read_only. quiet; apply untouched_get_items.
  - apply get_db_read_only. quiet. apply untouched_get_item.
  - assert (H : preserves untouched
                  match file with
                  | Some f => r <- upload_file f ;; ret (mkResponse 200 (JUpload r))
                  | None => raise RequestValidationError
                  end).
    { quiet. apply untouched_upload_file. }
    destruct (H env st) as (Ht & Hn & _). split; assumption.
  - apply get_db_read_only. quiet. apply untouched_trigger_backup.
Qed.

(** X23.  A request that is neither an upload nor a backup issues no call to the
    object store. *)
Theorem only_upload_and_backup_call_the_object_store
    (req : Request) (env : Env) (st : State) :
  (req = POST_backup \/ exists file, req = POST_upload file)
  \/ s3_calls (snd (app req env st)) = s3_calls st.
Proof.
  rewrite app_state.
  assert (Hdb : forall A (h : M A), preserves (records no_call) h ->
                  preserves (records no_call) (get_db h)).
  { intros A h. apply preserves_get_db;
      [apply records_refl|apply records_trans|apply records_counters
      |apply records_insert_row|apply records_rolled_back]. }
  assert (Hnone : forall st', records no_call st st' -> s3_calls st' = s3_calls st).
  { intros st' (added & Hs & Hf). destruct added as [|c added].
    - rewrite Hs. apply app_nil_r.
    - inversion Hf as [|? ? Hc _]. destruct Hc. }
  destruct req as [|skip limit status|body|item_id|file|];
    [right|right|right|right|left; right; exists file; reflexivity|left; left; reflexivity];
    apply Hnone; unfold endpoint;
    match goal with
    | |- records _ _ (snd (?m env st)) =>
        cut (preserves (records no_call) m); [intros H; apply H|]
    end.
  - frame.
  - apply Hdb. frame.
  - apply Hdb. frame.
  - apply Hdb. frame.
Qed.

(** *** Listing the backups *)

Lemma string_leb_trans a : forall b c,
  String.leb a b = true -> String.leb b c = true -> String.leb a c = true.
Proof.
  unfold String.leb.
  induction a as [|x a IH]; intros [|y b] [|z c]; cbn [String.compare];
    try (intros; reflexivity); try (intros; discriminate).
  unfold Ascii.compare.
  destruct (N.compare_spec (N_of_ascii x) (N_of_ascii y)) as [E1|L1|G1];
    destruct (N.compare_spec (N_of_ascii y) (N_of_ascii z)) as [E2|L2|G2];
    destruct (N.compare_spec (N_of_ascii x) (N_of_ascii z)) as [E3|L3|G3];
    intros H1 H2; try discriminate; try reflexivity; try lia.
  exact (IH _ _ H1 H2).
Qed.

Lemma insert_reverse_perm {A} (key : A -> string) x l :
  Permutation (x :: l) (insert_reverse key x l).
Proof.
  induction l as [|y l IH]; cbn; [apply Permutation_refl|].
  destruct (String.leb (key y) (key x)); [apply Permutation_refl|].
  eapply Permutation_trans; [apply perm_swap|]. apply perm_skip, IH.
Qed.

Lemma sorted_reverse_perm {A} (key : A -> string) l :
  Permutation l (sorted_reverse key l).
Proof.
  induction l as [|x l IH]; cbn; [apply Permutation_refl|].
  eapply Permutation_trans; [apply perm_skip, IH|]. apply insert_reverse_perm.
Qed.

Lemma insert_reverse_sorted x l :
  StronglySorted newer_or_same l ->
  StronglySorted newer_or_same (insert_reverse Backup.last_modified x l).
Proof.
  induction 1 as [|y l Hs IH Hy]; cbn.
  - constructor; constructor.
  - destruct (String.leb (Backup.last_modified y) (Backup.last_modified x)) eqn:E.
    + constructor; [constructor; assumption|].
      constructor; [exact E|].
      eapply Forall_impl; [|exact Hy]. intros z Hz. unfold newer_or_same in *.
      eapply string_leb_trans; [exact Hz|exact E].
    + constructor; [exact IH|].
      assert (Hxy : newer_or_same y x).
      { unfold newer_or_same.
        destruct (String.leb_total (Backup.last_modified x) (Backup.last_modified y))
          as [H|H]; [exact H|congruence]. }
      eapply Permutation_Forall; [apply insert_reverse_perm|].
      constructor; assumption.
Qed.

Lemma sorted_reverse_sorted l :
  StronglySorted newer_or_same (sorted_reverse Backup.last_modified l).
Proof.
  induction l as [|x l IH]; cbn; [constructor|]. apply insert_reverse_sorted, IH.
Qed.

(** X24.  [list_backups] with a bucket configured, when the store answers: the
    result holds the entries of the listed objects, each once, every entry
    modified no earlier than the entries after it; an answer without
    [Contents] gives the empty list. *)
Theorem list_backups_returns_the_listing_newest_first
    (list_objects_v2 : string -> string -> Z -> ListResponse) (max_items : Z)
    (env : Env) (st : State) (bucket : string) (Contents : option (list Listed.t)) :
  S3_BUCKET env = Some bucket ->
  bucket <> "" ->
  list_objects_v2 bucket "backups/" max_items = ListAnswers Contents ->
  exists backups,
    list_backups list_objects_v2 max_items env st = (Ok backups, st)
    /\ Permutation (map backup_of (match Contents with Some l => l | None => [] end))
         backups
    /\ StronglySorted newer_or_same backups
    /\ (Contents = None -> backups = []).
Proof.
  intros Hb Hne Hl. unfold list_backups.
  rewrite (bind_ok _ _ _ _ _ _ (get_s3_client_run env st)).
  rewrite (bind_ok _ _ _ _ _ _ (get_s3_bucket_set env st bucket Hb Hne)).
  unfold try_except. rewrite Hl. cbn [ret].
  eexists. split; [reflexivity|]. split; [apply sorted_reverse_perm|].
  split; [apply sorted_reverse_sorted|]. intros ->. reflexivity.
Qed.

(** A listing that comes oldest first. *)
Lemma listing_of_two_backups :
  exists backups,
    list_backups sample_listing 100 steady_env warm_state = (Ok backups, warm_state)
    /\ Permutation (map backup_of sample_contents) backups
    /\ StronglySorted newer_or_same backups
    /\ (Some sample_contents = None -> backups = []).
Proof.
  apply (list_backups_returns_the_listing_newest_first sample_listing 100 steady_env
           warm_state "nexus-files" (Some sample_contents)).
  - reflexivity.
  - discriminate.
  - reflexivity.
Defined.

(** *** Start-up *)

(** X25.  [startup_event] returns in every environment; the table, the
    sequence, the session and the object-store calls are as before; an
    engine that exists is kept; at most seven round trips are made (three
    attempts of two, and [create_all]). *)
Theorem startup_event_never_fails (env : Env) (st : State) :
  exists st',
    startup_event env st = (Ok tt, st')
    /\ tasks st' = tasks st
    /\ next_id st' = next_id st
    /\ session_new st' = session_new st
    /\ s3_calls st' = s3_calls st
    /\ (engine st = true -> engine st' = true)
    /\ db_calls st' <= db_calls st + 7.
Proof.
  unfold startup_event, init_db, try_except. unfold bind at 1.
  destruct (engine st) eqn:Ee.
  - assert (Hg : get_engine env st = (Ok tt, st)).
    { unfold get_engine, bind, gets. rewrite Ee. reflexivity. }
    rewrite Hg, db_round_trip_run.
    destruct (db_fault env (db_calls st)); cbn; eexists;
      (split; [reflexivity|]); cbn; rewrite ?Ee; repeat split; lia.
  - unfold get_engine, bind, gets. rewrite Ee. unfold create_db_engine.
    destruct (create_db_engine_loop_spec 3 None env st) as (r & k & Er & Hk & _).
    rewrite Er. destruct r as [[]|e]; cbn [modify ret].
    + rewrite db_round_trip_run. cbn [db_calls set_engine set_db_calls].
      destruct (db_fault env (db_calls st + k)); cbn; eexists;
        (split; [reflexivity|]); cbn; repeat split; try discriminate; lia.
    + eexists. split; [reflexivity|]. cbn. repeat split; try discriminate; lia.
Qed.
